(** * scripts/download_samples.py: a best-effort sample downloader

    A shallow embedding of the script and the properties of its
    download / fallback / placeholder orchestration.

    The script talks to the network and to the file system.  Both are
    modelled explicitly:
    - the file system is a tree of directories and regular files rooted
      at [ROOT] (the repository root, which contains the running script
      and therefore exists as a directory);
    - the network is an oracle that answers each request given the
      history of the run so far;
    - a run leaves a trace of its I/O actions.
    Python exceptions are the [Raised] outcome of a small state and error
    monad. *)

From Stdlib Require Import Ascii.
From stdpp Require Import base option list gmap strings pretty.

Set Warnings "-register-all,-clear-no-such-hyp".
Set Default Proof Using "Type".

(** ** Paths

    A [pathlib.Path] below [ROOT] is the list of its components; [ROOT]
    itself is the empty list. *)

Abbreviation path := (list string).

(** [p / name] *)
Definition child (p : path) (name : string) : path := p ++ [name].
Infix "//" := child (at level 40, left associativity).

(** [p.parent] *)
Definition parent (p : path) : path := removelast p.

(** ** The file system *)

Module FS.

(** A node is a regular file or a directory.  Symbolic links are not part
    of the tree: a path names the node its components lead to, and what
    is said of a path is said of that node. *)
Inductive node :=
| File (data : string)
| Dir (entries : gmap string node).

(** The contents of [ROOT]. *)
Abbreviation tree := (gmap string node).

(** What [os.stat] reports: a regular file (with its contents, which
    is what reading the file gives) or a directory. *)
Inductive entry :=
| EFile (data : string)
| EDir.

#[global] Instance entry_eq_dec : EqDecision entry.
Proof. solve_decision. Defined.

Fixpoint stat (t : tree) (p : path) : option entry :=
  match p with
  | [] => Some EDir
  | x :: q =>
      match t !! x with
      | None => None
      | Some (File d) => match q with [] => Some (EFile d) | _ :: _ => None end
      | Some (Dir t') => stat t' q
      end
  end.

(** [Path.mkdir(parents=True, exist_ok=True)]: every missing component
    is created; a component that exists as a regular file makes the
    call fail ([None]) and nothing is created. *)
Fixpoint mkdir_p (t : tree) (p : path) : option tree :=
  match p with
  | [] => Some t
  | x :: q =>
      match t !! x with
      | Some (File _) => None
      | Some (Dir t') => t'' ← mkdir_p t' q; Some (<[x := Dir t'']> t)
      | None => t'' ← mkdir_p ∅ q; Some (<[x := Dir t'']> t)
      end
  end.

(** [open(p, "w")] followed by writing [d] and closing: the parent must
    be a directory and [p] must not be one; an existing file is
    replaced. *)
Fixpoint write_file (t : tree) (p : path) (d : string) : option tree :=
  match p with
  | [] => None
  | x :: q =>
      match q with
      | [] =>
          match t !! x with
          | Some (Dir _) => None
          | _ => Some (<[x := File d]> t)
          end
      | _ :: _ =>
          match t !! x with
          | Some (Dir t') => t'' ← write_file t' q d; Some (<[x := Dir t'']> t)
          | _ => None
          end
      end
  end.

(** [f.write(s)] on a file opened at [p]: the data is appended. *)
Definition append_file (t : tree) (p : path) (s : string) : tree :=
  match stat t p with
  | Some (EFile d) => default t (write_file t p (d +:+ s))
  | _ => t
  end.

Definition is_file (t : tree) (p : path) : Prop := ∃ d, stat t p = Some (EFile d).
Definition is_dir (t : tree) (p : path) : Prop := stat t p = Some EDir.

#[global] Instance is_file_dec t p : Decision (is_file t p).
Proof.
  unfold is_file. destruct (stat t p) as [[d|]|].
  - left. by exists d.
  - right. intros [d ?]. discriminate.
  - right. intros [d ?]. discriminate.
Defined.

#[global] Instance is_dir_dec t p : Decision (is_dir t p).
Proof. unfold is_dir. apply _. Defined.

End FS.

(** ** JSON values and [json.dump]

    Python strings are modelled as strings of code points below 256, which
    covers every string of the script (all of them are ASCII). *)

Module Json.

(** A float is kept as the text [float.__repr__] prints for it; the four
    floats of the script are written in the source in that shortest
    form already. *)
Inductive value :=
| Null
| Bool (b : bool)
| Int (n : Z)
| Float (repr : string)
| Str (s : string)
| List (items : list value)
| Dict (items : list (string * value)).

Definition dquote : ascii := "034"%char.
Definition backslash : ascii := "092"%char.
Definition newline : ascii := "010"%char.

Definition hex_digit (n : N) : ascii :=
  match n with
  | 0 => "0" | 1 => "1" | 2 => "2" | 3 => "3" | 4 => "4" | 5 => "5" | 6 => "6"
  | 7 => "7" | 8 => "8" | 9 => "9" | 10 => "a" | 11 => "b" | 12 => "c"
  | 13 => "d" | 14 => "e" | _ => "f"
  end%N%char.

(** [ensure_ascii=True]: everything outside [' ' .. '~'], and the quote and
    the backslash, is escaped. *)
Definition escape_char (c : ascii) : string :=
  let n := Ascii.N_of_ascii c in
  if decide (c = dquote) then String backslash (String dquote "")
  else if decide (c = backslash) then String backslash (String backslash "")
  else if decide (n = 10)%N then String backslash "n"
  else if decide (n = 13)%N then String backslash "r"
  else if decide (n = 9)%N then String backslash "t"
  else if decide (n = 8)%N then String backslash "b"
  else if decide (n = 12)%N then String backslash "f"
  else if decide (32 ≤ n ∧ n ≤ 126)%N then String c ""
  else String backslash
         (String "u" (String "0" (String "0"
            (String (hex_digit (n `div` 16)) (String (hex_digit (n `mod` 16)) ""))))).

Fixpoint escape (s : string) : string :=
  match s with
  | "" => ""
  | String c s' => escape_char c +:+ escape s'
  end.

Definition encode_str (s : string) : string :=
  String dquote (escape s +:+ String dquote "").

Fixpoint spaces (n : nat) : string :=
  match n with
  | O => ""
  | S n' => String " " (spaces n')
  end.

Definition newline_indent (indent level : nat) : string :=
  String newline (spaces (indent * level)).

(** [sep.join(parts)] *)
Fixpoint join (sep : string) (parts : list string) : string :=
  match parts with
  | [] => ""
  | [x] => x
  | x :: rest => x +:+ sep +:+ join sep rest
  end.

(** Code point order on strings, the order of [sorted] on [str] keys. *)
Fixpoint str_le (a b : string) : bool :=
  match a, b with
  | "", _ => true
  | String _ _, "" => false
  | String x a', String y b' =>
      let nx := Ascii.N_of_ascii x in
      let ny := Ascii.N_of_ascii y in
      if decide (nx < ny)%N then true
      else if decide (ny < nx)%N then false
      else str_le a' b'
  end.

Fixpoint insert_sorted {A} (kv : string * A) (l : list (string * A)) : list (string * A) :=
  match l with
  | [] => [kv]
  | kv' :: rest =>
      if str_le kv.1 kv'.1 then kv :: l else kv' :: insert_sorted kv rest
  end.

(** [sorted(items)] on the items of a dictionary (whose keys are pairwise
    different). *)
Definition sort_items {A} (l : list (string * A)) : list (string * A) :=
  foldr insert_sorted [] l.

(** [json.dumps(v, indent=indent, sort_keys=sort_keys)] at nesting depth
    [level]; with an indent the item separator is [","] and the key
    separator [": "].  The members of a dictionary are encoded first and
    put in key order afterwards, which gives the text Python produces by
    sorting first. *)
Definition bracket (indent level : nat) (opening closing : string) (parts : list string) : string :=
  match parts with
  | [] => opening +:+ closing
  | _ :: _ =>
      opening +:+ newline_indent indent (S level)
      +:+ join ("," +:+ newline_indent indent (S level)) parts
      +:+ newline_indent indent level +:+ closing
  end.

Fixpoint encode (indent : nat) (sort_keys : bool) (level : nat) (v : value) : string :=
  match v with
  | Null => "null"
  | Bool true => "true"
  | Bool false => "false"
  | Int n => pretty n
  | Float r => r
  | Str s => encode_str s
  | List items =>
      bracket indent level "[" "]" (map (encode indent sort_keys (S level)) items)
  | Dict items =>
      let members := map (λ kv, (kv.1, encode indent sort_keys (S level) kv.2)) items in
      let members := if sort_keys then sort_items members else members in
      bracket indent level "{" "}" (map (λ kv, encode_str kv.1 +:+ ": " +:+ kv.2) members)
  end.

Definition dumps (v : value) (indent : nat) (sort_keys : bool) : string :=
  encode indent sort_keys 0 v.

(** *** [json.loads]

    The reader of the JSON grammar (RFC 8259), used to state that a
    sidecar can be read back.  An object is returned with its members in
    document order. *)

Definition is_ws (c : ascii) : bool :=
  let n := Ascii.N_of_ascii c in
  bool_decide (n = 32 ∨ n = 10 ∨ n = 13 ∨ n = 9)%N.

Definition is_digit (c : ascii) : bool :=
  let n := Ascii.N_of_ascii c in bool_decide (48 ≤ n ∧ n ≤ 57)%N.

Fixpoint skip_ws (s : string) : string :=
  match s with
  | String c r => if is_ws c then skip_ws r else s
  | "" => ""
  end.

Fixpoint span (f : ascii → bool) (s : string) : string * string :=
  match s with
  | String c r => if f c then let '(a, b) := span f r in (String c a, b) else ("", s)
  | "" => ("", "")
  end.

Definition hex_value (c : ascii) : option N :=
  let n := Ascii.N_of_ascii c in
  if decide (48 ≤ n ∧ n ≤ 57)%N then Some (n - 48)%N
  else if decide (97 ≤ n ∧ n ≤ 102)%N then Some (n - 87)%N
  else if decide (65 ≤ n ∧ n ≤ 70)%N then Some (n - 55)%N
  else None.

Definition unescape (c : ascii) : option ascii :=
  if decide (c = dquote) then Some dquote
  else if decide (c = backslash) then Some backslash
  else if decide (c = "/"%char) then Some "/"%char
  else if decide (c = "n"%char) then Some "010"%char
  else if decide (c = "r"%char) then Some "013"%char
  else if decide (c = "t"%char) then Some "009"%char
  else if decide (c = "b"%char) then Some "008"%char
  else if decide (c = "f"%char) then Some "012"%char
  else None.

(** The characters of a string literal after its opening quote, up to
    the closing quote. *)
Fixpoint parse_chars (s : string) : option (string * string) :=
  match s with
  | "" => None
  | String c r =>
      if decide (c = dquote) then Some ("", r)
      else if decide (c = backslash) then
        match r with
        | String "u" (String h1 (String h2 (String h3 (String h4 r')))) =>
            a ← hex_value h1; b ← hex_value h2; c ← hex_value h3; d ← hex_value h4;
            let code := (((a * 16 + b) * 16 + c) * 16 + d)%N in
            if decide (code < 256)%N then
              '(str, rest) ← parse_chars r'; Some (String (Ascii.ascii_of_N code) str, rest)
            else None
        | String e r' =>
            c' ← unescape e; '(str, rest) ← parse_chars r'; Some (String c' str, rest)
        | "" => None
        end
      else if decide (Ascii.N_of_ascii c < 32)%N then None
      else '(str, rest) ← parse_chars r; Some (String c str, rest)
  end.

Fixpoint digits_value (acc : N) (s : string) : N :=
  match s with
  | String c r => digits_value (acc * 10 + (Ascii.N_of_ascii c - 48))%N r
  | "" => acc
  end.

Definition parse_number (s : string) : option (value * string) :=
  let '(neg, s1) := match s with String "-" r => (true, r) | _ => (false, s) end in
  let '(int_part, s2) := span is_digit s1 in
  if decide (int_part = "") then None else
  let '(frac, s3) :=
    match s2 with
    | String "." r => let '(f, r') := span is_digit r in (String "." f, r')
    | _ => ("", s2)
    end in
  if decide (frac = ".") then None else
  let sign := if neg then "-" else "" in
  if decide (frac = "") then
    let n := Z.of_N (digits_value 0 int_part) in
    Some (Int (if neg then (- n)%Z else n), s3)
  else Some (Float (sign +:+ int_part +:+ frac), s3).

Definition strip_prefix (p s : string) : option string :=
  if String.prefix p s
  then Some (String.substring (String.length p) (String.length s - String.length p) s)
  else None.

Fixpoint parse (fuel : nat) (s : string) : option (value * string) :=
  match fuel with
  | O => None
  | S n =>
      match skip_ws s with
      | String "{" r =>
          match skip_ws r with
          | String "}" r' => Some (Dict [], r')
          | _ =>
              (fix members (k : nat) (r : string) (acc : list (string * value)) {struct k} :=
                 match k with
                 | O => None
                 | S k' =>
                     match skip_ws r with
                     | String c r1 =>
                         if decide (c = dquote) then
                           '(key, r2) ← parse_chars r1;
                           match skip_ws r2 with
                           | String ":" r3 =>
                               '(v, r4) ← parse n r3;
                               match skip_ws r4 with
                               | String "," r5 => members k' r5 (acc ++ [(key, v)])
                               | String "}" r5 => Some (Dict (acc ++ [(key, v)]), r5)
                               | _ => None
                               end
                           | _ => None
                           end
                         else None
                     | "" => None
                     end
                 end) n r []
          end
      | String "[" r =>
          match skip_ws r with
          | String "]" r' => Some (List [], r')
          | _ =>
              (fix elements (k : nat) (r : string) (acc : list value) {struct k} :=
                 match k with
                 | O => None
                 | S k' =>
                     '(v, r1) ← parse n r;
                     match skip_ws r1 with
                     | String "," r2 => elements k' r2 (acc ++ [v])
                     | String "]" r2 => Some (List (acc ++ [v]), r2)
                     | _ => None
                     end
                 end) n r []
          end
      | String c r as s' =>
          if decide (c = dquote) then '(str, rest) ← parse_chars r; Some (Str str, rest)
          else match strip_prefix "true" s' with
               | Some rest => Some (Bool true, rest)
               | None =>
          match strip_prefix "false" s' with
               | Some rest => Some (Bool false, rest)
               | None =>
          match strip_prefix "null" s' with
               | Some rest => Some (Null, rest)
               | None => parse_number s'
               end end end
      | "" => None
      end
  end.

Definition loads (s : string) : option value :=
  '(v, rest) ← parse (S (String.length s)) s;
  if decide (skip_ws rest = "") then Some v else None.

(** [d[key]] on a parsed object; of two members with one key the later
    one counts. *)
Definition get (key : string) (v : value) : option value :=
  match v with
  | Dict items => snd <$> last (filter (λ kv, kv.1 = key) items)
  | _ => None
  end.

Definition keys (v : value) : list string :=
  match v with
  | Dict items => fst <$> items
  | _ => []
  end.

End Json.

(** ** Exceptions, the network and the trace of a run *)

Inductive exn :=
| RequestException (detail : string)
| HTTPError (status_code : Z)
| OSError (p : path).

(** [str(e)].  The text of a [RequestException] is its detail.  The
    texts Python gives an [HTTPError] and an [OSError] depend on the
    reply and on the platform: the two strings below stand for them, and
    no property depends on what they are. *)
Definition str_exn (e : exn) : string :=
  match e with
  | RequestException detail => detail
  | HTTPError status_code => pretty status_code +:+ " Error"
  | OSError p => "[Errno] " +:+ Json.join "/" p
  end.

(** What the network does with a GET request: no usable reply at all
    (name resolution, connection, time-out), or a status line followed
    by the chunks of the body, after which the stream may break. *)
Inductive response :=
| NoResponse (detail : string)
| Response (status_code : Z) (chunks : list string) (broken : option string).

(** The trace holds the I/O actions of a run and, for the driver, the
    calls it makes, what they return and the values its counter takes. *)
Inductive event :=
| EGet (url : string) (stream : bool) (timeout : Z)
| EWrite (p : path)
| EPrint (line : string)
| ECall (f : string)
| EReturn (f : string) (r : option path)
| ESet (v : Z).

#[global] Instance event_eq_dec : EqDecision event.
Proof. solve_decision. Defined.

Record world := World { fs : FS.tree; trace : list event }.

(** ** The monad of programs *)

Inductive outcome (A : Type) :=
| Ok (a : A)
| Raised (e : exn).
Arguments Ok {A} a.
Arguments Raised {A} e.

Definition prog (A : Type) : Type := world → outcome A * world.

#[global] Instance prog_ret : MRet prog := λ A a σ, (Ok a, σ).

#[global] Instance prog_bind : MBind prog := λ A B f m σ,
  match m σ with
  | (Ok a, σ') => f a σ'
  | (Raised e, σ') => (Raised e, σ')
  end.

Definition raise {A} (e : exn) : prog A := λ σ, (Raised e, σ).

(** [try: body / except Exception as e: handler(e)] *)
Definition try_except {A} (body : prog A) (handler : exn → prog A) : prog A := λ σ,
  match body σ with
  | (Ok a, σ') => (Ok a, σ')
  | (Raised e, σ') => handler e σ'
  end.

Definition emit (e : event) : prog unit := λ σ,
  (Ok tt, World (fs σ) (trace σ ++ [e])).

Definition print (line : string) : prog unit := emit (EPrint line).

(** [for x in l: body(x)] *)
Fixpoint for_each {A} (l : list A) (body : A → prog unit) : prog unit :=
  match l with
  | [] => mret tt
  | x :: rest => body x;; for_each rest body
  end.

(** *** File-system calls *)

(** [p.exists()] *)
Definition path_exists (p : path) : prog bool := λ σ,
  (Ok (bool_decide (is_Some (FS.stat (fs σ) p))), σ).

(** [p.mkdir(parents=True, exist_ok=True)] *)
Definition path_mkdir (p : path) : prog unit := λ σ,
  match FS.mkdir_p (fs σ) p with
  | Some t => (Ok tt, World t (trace σ))
  | None => (Raised (OSError p), σ)
  end.

(** [open(p, "w")] and [open(p, "wb")]: the file is created or truncated.
    The file object is identified with the path it was opened at. *)
Definition open_w (p : path) : prog unit := λ σ,
  match FS.write_file (fs σ) p "" with
  | Some t => (Ok tt, World t (trace σ ++ [EWrite p]))
  | None => (Raised (OSError p), σ)
  end.

(** [f.write(s)] *)
Definition fwrite (f : path) (s : string) : prog unit := λ σ,
  (Ok tt, World (FS.append_file (fs σ) f s) (trace σ)).

(** ** The script *)

Section Script.

(** The network answers a request given everything that happened in
    the run before it. *)
Variable net : list event → string → response.

(** [requests.get(url, stream=True, timeout=timeout)] *)
Definition requests_get (url : string) (timeout : Z) : prog (Z * list string * option string) := λ σ,
  let σ' := World (fs σ) (trace σ ++ [EGet url true timeout]) in
  match net (trace σ) url with
  | NoResponse detail => (Raised (RequestException detail), σ')
  | Response status_code chunks broken => (Ok (status_code, chunks, broken), σ')
  end.

(** [resp.raise_for_status()]: the 4xx and 5xx codes raise. *)
Definition raise_for_status (resp : Z * list string * option string) : prog unit :=
  let status_code := resp.1.1 in
  if decide (400 ≤ status_code < 600)%Z then raise (HTTPError status_code) else mret tt.

(** [for chunk in resp.iter_content(chunk_size=8192): body(chunk)] *)
Definition iter_content (resp : Z * list string * option string) (body : string → prog unit) : prog unit :=
  for_each resp.1.2 body;;
  match resp.2 with
  | Some detail => raise (RequestException detail)
  | None => mret tt
  end.

Definition ROOT : path := [].
Definition DATA_DIR : path := ROOT // "data".

Definition ensure_directory (p : path) : prog unit :=
  e ← path_exists p;
  if negb e then path_mkdir p else mret tt.

(** The default of [timeout_seconds]. *)
Definition timeout_seconds_default : Z := 60.

Definition http_download (url : string) (out_path : path) (timeout_seconds : Z) : prog bool :=
  try_except
    (resp ← requests_get url timeout_seconds;
     raise_for_status resp;;
     ensure_directory (parent out_path);;
     open_w out_path;;
     iter_content resp (λ chunk,
       if decide (chunk = "") then mret tt else fwrite out_path chunk);;
     mret true)
    (λ e,
     print ("Failed to download " +:+ url +:+ ": " +:+ str_exn e);;
     mret false).

Definition save_metadata (p : path) (metadata : Json.value) : prog unit :=
  ensure_directory (parent p);;
  open_w p;;
  fwrite p (Json.dumps metadata 2 true).

Definition date_default : string := "2020-01-01".

Definition wms_url (date : string) : string :=
  "https://gibs.earthdata.nasa.gov/wms/epsg4326/best/wms.cgi"
  +:+ "?SERVICE=WMS&REQUEST=GetMap&VERSION=1.3.0"
  +:+ "&LAYERS=MODIS_Terra_CorrectedReflectance_TrueColor"
  +:+ "&STYLES=&FORMAT=image/png&TRANSPARENT=TRUE"
  +:+ "&HEIGHT=512&WIDTH=512&CRS=EPSG:4326"
  +:+ "&BBOX=40.4,-74.4,41.0,-73.6"
  +:+ "&TIME=" +:+ date.

Definition worldview_metadata (wms : string) : Json.value :=
  Json.Dict [
    ("source", Json.Str "NASA GIBS / Worldview");
    ("layer", Json.Str "MODIS_Terra_CorrectedReflectance_TrueColor");
    ("projection", Json.Str "EPSG:4326");
    ("bbox", Json.List [Json.Float "40.4"; Json.Float "-74.4"; Json.Float "41.0"; Json.Float "-73.6"]);
    ("size", Json.List [Json.Int 512; Json.Int 512]);
    ("format", Json.Str "image/png");
    ("url", Json.Str wms);
    ("license", Json.Str "Publicly available imagery via NASA GIBS; see NASA usage policies")
  ].

Definition download_worldview_sample (date : string) : prog (option path) :=
  let wms := wms_url date in
  let out_dir := DATA_DIR // "worldview" in
  ensure_directory out_dir;;
  let out_path := out_dir // ("worldview_truecolor_" +:+ date +:+ ".png") in
  ok ← http_download wms out_path timeout_seconds_default;
  if ok : bool then
    save_metadata (out_dir // ("worldview_truecolor_" +:+ date +:+ ".json"))
      (worldview_metadata wms);;
    mret (Some out_path)
  else mret None.

Definition earth_observatory_url : string :=
  "https://earthobservatory.nasa.gov/ContentFeature/BlueMarble/Images/land_ocean_ice_2048.jpg".

Definition earth_observatory_metadata (url : string) : Json.value :=
  Json.Dict [
    ("source", Json.Str "NASA Earth Observatory");
    ("title", Json.Str "Blue Marble (sample image)");
    ("url", Json.Str url);
    ("license", Json.Str "Please see NASA Earth Observatory usage guidelines")
  ].

Definition download_earth_observatory_sample : prog (option path) :=
  let url := earth_observatory_url in
  let out_dir := DATA_DIR // "earth_observatory" in
  ensure_directory out_dir;;
  let out_path := out_dir // "sample_earth_observatory.jpg" in
  ok ← http_download url out_path timeout_seconds_default;
  if ok : bool then
    save_metadata (out_dir // "sample_earth_observatory.json")
      (earth_observatory_metadata url);;
    mret (Some out_path)
  else mret None.

Definition candidates : list string := [
  "https://datasets.wri.org/dataset/8f6b2c8e-e5b6-4c5e-8b7b-21f5b7a3b0ba/resource/8f37a987-b2e0-4a11-9d53-8b0d2050b1fe/download/sample.csv"
].

Definition wri_metadata (url : string) : Json.value :=
  Json.Dict [
    ("source", Json.Str "World Resources Institute (WRI) Data Explorer");
    ("url", Json.Str url);
    ("notes", Json.Str "Small sample CSV for demonstration; replace with a project-relevant dataset")
  ].

Definition wri_instructions : string :=
  "Could not fetch a small WRI CSV automatically." +:+ String Json.newline ""
  +:+ "Please visit https://data.wri.org/ and download a small CSV, then place it here as wri_sample.csv."
  +:+ String Json.newline "".

(** The loop [for url in candidates] of [download_wri_sample]; it gives
    [Some out_path] when its body returns from the function and [None]
    when the list is exhausted. *)
Fixpoint try_candidates (out_dir : path) (urls : list string) : prog (option path) :=
  match urls with
  | [] => mret None
  | url :: rest =>
      let out_path := out_dir // "wri_sample.csv" in
      ok ← http_download url out_path timeout_seconds_default;
      if ok : bool then
        save_metadata (out_dir // "wri_sample.json") (wri_metadata url);;
        mret (Some out_path)
      else try_candidates out_dir rest
  end.

(** [download_wri_sample] for any list of candidates. *)
Definition download_wri_sample_from (urls : list string) : prog (option path) :=
  let out_dir := DATA_DIR // "wri" in
  ensure_directory out_dir;;
  returned ← try_candidates out_dir urls;
  match returned with
  | Some out_path => mret (Some out_path)
  | None =>
      open_w (out_dir // "README.txt");;
      fwrite (out_dir // "README.txt") wri_instructions;;
      mret None
  end.

Definition download_wri_sample : prog (option path) :=
  download_wri_sample_from candidates.

Definition nl : string := String Json.newline "".

(** The dictionary [placeholders], in the order of its items. *)
Definition placeholders : list (string * string) := [
  ("sedac",
   "SEDAC datasets often require login. Create a free account at https://sedac.ciesin.columbia.edu/." +:+ nl
   +:+ "Once downloaded, place a small sample file here and document it in a metadata JSON." +:+ nl);
  ("worldpop",
   "WorldPop provides country-level population rasters. Visit https://www.worldpop.org/ to download a small country tile." +:+ nl
   +:+ "Place the file here and add a metadata JSON noting the source and license." +:+ nl);
  ("ghsl",
   "GHSL (EU Copernicus) provides population and built-up layers. Visit https://ghsl.jrc.ec.europa.eu/." +:+ nl
   +:+ "Download a small tile (e.g., a small country or region) and place it here with metadata." +:+ nl);
  ("eu_copernicus",
   "Copernicus Services Catalogue contains many datasets. Visit https://www.copernicus.eu/en/access-data/copernicus-services-catalogue." +:+ nl
   +:+ "Download a small, relevant sample and document license and attribution." +:+ nl);
  ("eotoolkit",
   "UN-Habitat Earth Observations Toolkit: https://eotoolkit.unhabitat.org/." +:+ nl
   +:+ "Identify a relevant resource and place a small sample or a link with documentation here." +:+ nl)
].

(** The body of the loop over [placeholders.items()]. *)
Definition write_placeholder (item : string * string) : prog unit :=
  let '(folder, text) := item in
  let folder_path := DATA_DIR // folder in
  ensure_directory folder_path;;
  let readme_path := folder_path // "README.txt" in
  e ← path_exists readme_path;
  if negb e then
    open_w readme_path;;
    fwrite readme_path text
  else mret tt.

Definition write_placeholders_for_sedac_worldpop_ghsl_copernicus_eotoolkit : prog unit :=
  for_each placeholders write_placeholder.

(** A call made by the driver, recorded in the trace with what it
    returns. *)
Definition call (f : string) (body : prog (option path)) : prog (option path) :=
  emit (ECall f);;
  r ← body;
  emit (EReturn f r);;
  mret r.

(** An assignment to the driver's counter [successes]. *)
Definition set_successes (v : Z) : prog Z := emit (ESet v);; mret v.

(** [if r:] on an [Optional[Path]]: a path is true, [None] is false. *)
Definition truthy (r : option path) : bool := bool_decide (is_Some r).

Definition main : prog Z :=
  print "Downloading sample datasets...";;
  successes ← set_successes 0;
  r ← call "download_worldview_sample" (download_worldview_sample date_default);
  successes ←
    (if truthy r then
       successes ← set_successes (successes + 1);
       print "- Worldview sample downloaded";; mret successes
     else
       print "- Worldview sample skipped (download failed)";; mret successes);
  r ← call "download_earth_observatory_sample" download_earth_observatory_sample;
  successes ←
    (if truthy r then
       successes ← set_successes (successes + 1);
       print "- Earth Observatory sample downloaded";; mret successes
     else
       print "- Earth Observatory sample skipped (download failed)";; mret successes);
  r ← call "download_wri_sample" download_wri_sample;
  successes ←
    (if truthy r then
       successes ← set_successes (successes + 1);
       print "- WRI sample downloaded";; mret successes
     else
       print "- WRI sample skipped (no direct small CSV found; added instructions)";;
       mret successes);
  call "write_placeholders_for_sedac_worldpop_ghsl_copernicus_eotoolkit"
    (write_placeholders_for_sedac_worldpop_ghsl_copernicus_eotoolkit;; mret None);;
  print "- Placeholders written for SEDAC, WorldPop, GHSL, Copernicus, and EO Toolkit";;
  print ("Completed with " +:+ pretty successes +:+ " successful downloads");;
  mret 0%Z.

(** [raise SystemExit(main())]: the exit status of the process is what
    [main] returns, and 1 when an exception leaves [main]. *)
Definition exit_status (σ : world) : Z :=
  match main σ with
  | (Ok status, _) => status
  | (Raised _, _) => 1
  end.

End Script.

(** * The vocabulary of the properties

    What the properties below speak of: what a program may touch, how a
    call of the helper can go, what a run leaves in its trace, and some
    networks and file systems to run the script on. *)

(** ** Footprints

    What a piece of the script may do: the URLs it may request, the files
    it may write and the directories it may create. *)

Record footprint := Footprint {
  fp_urls : list string;
  fp_files : list path;
  fp_dirs : list path
}.

Definition allowed (F : footprint) (e : event) : Prop :=
  match e with
  | EGet url _ _ => url ∈ fp_urls F
  | EWrite p => p ∈ fp_files F
  | EPrint _ => True
  | ECall _ | EReturn _ _ | ESet _ => False
  end.

(** Nothing is ever removed; files change only where the footprint says,
    directories appear only on the way to those of the footprint. *)
Record fs_evolves (W D : list path) (t t' : FS.tree) : Prop := {
  ev_file_back q d :
    FS.stat t' q = Some (FS.EFile d) → FS.stat t q = Some (FS.EFile d) ∨ q ∈ W;
  ev_dir_back q :
    FS.stat t' q = Some FS.EDir → FS.stat t q = Some FS.EDir ∨ ∃ p, p ∈ D ∧ q `prefix_of` p;
  ev_dir_keep q :
    FS.stat t q = Some FS.EDir → FS.stat t' q = Some FS.EDir;
  ev_file_keep q d :
    FS.stat t q = Some (FS.EFile d) → q ∉ W → FS.stat t' q = Some (FS.EFile d);
  ev_file_stay q :
    FS.is_file t q → FS.is_file t' q
}.

Record within (F : footprint) (σ σ' : world) : Prop := {
  wi_trace : ∃ τ, trace σ' = trace σ ++ τ ∧ Forall (allowed F) τ;
  wi_fs : fs_evolves (fp_files F) (fp_dirs F) (fs σ) (fs σ')
}.

Definition fp_le (F F' : footprint) : Prop :=
  fp_urls F ⊆ fp_urls F' ∧ fp_files F ⊆ fp_files F' ∧ fp_dirs F ⊆ fp_dirs F'.

(** A program stays within a footprint when every run of it does. *)
Definition stays_within {A} (F : footprint) (m : prog A) : Prop :=
  ∀ σ, within F σ (m σ).2.

(** ** The fetch helper *)

(** [open(p, "w")] right after [ensure_directory(p.parent)] works exactly
    when no proper ancestor of [p] is a regular file and [p] is not a
    directory. *)
Definition can_open (t : FS.tree) (p : path) : Prop :=
  p ≠ [] ∧ ¬ FS.is_dir t p ∧ ∀ q, q `prefix_of` p → q ≠ p → ¬ FS.is_file t q.

(** The bytes of a body received as [chunks]. *)
Definition body_of (chunks : list string) : string := foldr String.append "" chunks.

(** The line printed by the helper's handler. *)
Definition diagnostic (url : string) (e : exn) : string :=
  "Failed to download " +:+ url +:+ ": " +:+ str_exn e.

(** Why a fetch was given up before the destination was opened. *)
Definition refused (r : response) (t : FS.tree) (p : path) (e : exn) : Prop :=
  match r with
  | NoResponse detail => e = RequestException detail
  | Response status_code _ _ =>
      if decide (400 ≤ status_code < 600)%Z then e = HTTPError status_code
      else ¬ can_open t p ∧ ∃ p', e = OSError p'
  end.

Section Helper.
Variable net : list event → string → response.

(** The three ways a call of [http_download] can go. *)
Inductive fetch (url : string) (p : path) (timeout : Z) (σ : world) : bool → world → Prop :=
| fetch_complete status_code chunks σ' :
    net (trace σ) url = Response status_code chunks None →
    ¬ (400 ≤ status_code < 600)%Z →
    can_open (fs σ) p →
    trace σ' = trace σ ++ [EGet url true timeout; EWrite p] →
    FS.stat (fs σ') p = Some (FS.EFile (body_of chunks)) →
    fetch url p timeout σ true σ'
| fetch_broken status_code chunks detail σ' :
    net (trace σ) url = Response status_code chunks (Some detail) →
    ¬ (400 ≤ status_code < 600)%Z →
    can_open (fs σ) p →
    trace σ' = trace σ ++ [EGet url true timeout; EWrite p;
                           EPrint (diagnostic url (RequestException detail))] →
    FS.stat (fs σ') p = Some (FS.EFile (body_of chunks)) →
    fetch url p timeout σ false σ'
| fetch_refused e σ' :
    refused (net (trace σ) url) (fs σ) p e →
    fs σ' = fs σ →
    trace σ' = trace σ ++ [EGet url true timeout; EPrint (diagnostic url e)] →
    fetch url p timeout σ false σ'.

End Helper.

(** ** The two image sources *)

Section Sidecar.
Variable net : list event → string → response.

(** The shape [download_worldview_sample] and
    [download_earth_observatory_sample] have in common. *)
Definition fetch_with_sidecar (folder url data_name json_name : string)
    (metadata : Json.value) : prog (option path) :=
  let out_dir := DATA_DIR // folder in
  ensure_directory out_dir;;
  let out_path := out_dir // data_name in
  ok ← http_download net url out_path timeout_seconds_default;
  if ok : bool then
    save_metadata (out_dir // json_name) metadata;;
    mret (Some out_path)
  else mret None.

End Sidecar.

(** What such a source may touch. *)
Definition sidecar_footprint (folder url data_name json_name : string) : footprint :=
  Footprint [url]
    [DATA_DIR // folder // data_name; DATA_DIR // folder // json_name]
    [DATA_DIR // folder].

(** ** Reading a trace *)

Definition requested (τ : list event) : list string :=
  omap (λ e, match e with EGet url _ _ => Some url | _ => None end) τ.

Definition written (τ : list event) : list path :=
  omap (λ e, match e with EWrite p => Some p | _ => None end) τ.

Definition printed (τ : list event) : list string :=
  omap (λ e, match e with EPrint line => Some line | _ => None end) τ.

Definition calls (τ : list event) : list string :=
  omap (λ e, match e with ECall f => Some f | _ => None end) τ.

Definition returns (τ : list event) : list (string * option path) :=
  omap (λ e, match e with EReturn f r => Some (f, r) | _ => None end) τ.

Definition counter_values (τ : list event) : list Z :=
  omap (λ e, match e with ESet v => Some v | _ => None end) τ.

(** ** The CSV source *)

Definition wri_dir : path := DATA_DIR // "wri".
Definition wri_csv : path := wri_dir // "wri_sample.csv".
Definition wri_json : path := wri_dir // "wri_sample.json".
Definition wri_readme : path := wri_dir // "README.txt".

Section Wri.
Variable net : list event → string → response.

(** The helper is called on the given URLs one after the other, with the
    given results. *)
Inductive attempts : list string → world → list bool → world → Prop :=
| attempts_nil σ : attempts [] σ [] σ
| attempts_cons url urls σ b σ1 bs σ2 :
    http_download net url wri_csv timeout_seconds_default σ = (Ok b, σ1) →
    attempts urls σ1 bs σ2 →
    attempts (url :: urls) σ (b :: bs) σ2.

End Wri.

(** What the CSV source may touch. *)
Definition wri_footprint (urls : list string) : footprint :=
  Footprint urls [wri_csv; wri_json; wri_readme] [wri_dir].

(** Nothing stands in the way of the CSV source: [DATA_DIR] and its
    folder are not regular files, the sidecar and the instructions file
    are not directories. *)
Definition wri_ready (t : FS.tree) : Prop :=
  ¬ FS.is_file t DATA_DIR ∧ ¬ FS.is_file t wri_dir ∧
  ¬ FS.is_dir t wri_json ∧ ¬ FS.is_dir t wri_readme.

(** ** The placeholder writer *)

(** Where the instructions of a provider go. *)
Definition placeholder_readme (folder : string) : path :=
  DATA_DIR // folder // "README.txt".

(** What the writer may touch for one provider, and for a list of them. *)
Definition placeholder_footprint (folder : string) : footprint :=
  Footprint [] [placeholder_readme folder] [DATA_DIR // folder].

Definition placeholders_footprint (items : list (string * string)) : footprint :=
  Footprint [] (placeholder_readme <$> items.*1) ((λ f, DATA_DIR // f) <$> items.*1).

(** ** The driver *)

(** One block of [main]: a call, then the counter and the status line. *)
Definition stage (f : string) (body : prog (option path)) (ok_line skip_line : string)
    (successes : Z) : prog Z :=
  r ← call f body;
  if truthy r then
    successes ← set_successes (successes + 1);
    print ok_line;; mret successes
  else
    print skip_line;; mret successes.

(** The last line [main] prints. *)
Definition completed_line (successes : Z) : string :=
  "Completed with " +:+ pretty successes +:+ " successful downloads".

(** The state in which the callee of a block starts. *)
Definition after_call (f : string) (σ : world) : world :=
  World (fs σ) (trace σ ++ [ECall f]).

(** What a block does once its callee has ended in [o], leaving [σb]. *)
Definition stage_end (f ok_line skip_line : string) (successes : Z)
    (o : outcome (option path)) (σb : world) : outcome Z * world :=
  match o with
  | Ok (Some p) =>
      (Ok (successes + 1)%Z,
       World (fs σb) (trace σb ++ [EReturn f (Some p); ESet (successes + 1); EPrint ok_line]))
  | Ok None =>
      (Ok successes, World (fs σb) (trace σb ++ [EReturn f None; EPrint skip_line]))
  | Raised e => (Raised e, σb)
  end.

(** What a block leaves in the trace when its callee left [τ] and ended
    in [o]. *)
Definition stage_trace (f ok_line skip_line : string) (successes : Z)
    (τ : list event) (o : outcome (option path)) : list event :=
  ECall f :: τ ++
  match o with
  | Ok (Some p) => [EReturn f (Some p); ESet (successes + 1); EPrint ok_line]
  | Ok None => [EReturn f None; EPrint skip_line]
  | Raised _ => []
  end.

(** The counter after a block whose callee ended in [o]. *)
Definition stage_count (successes : Z) (o : outcome (option path)) : Z :=
  match o with
  | Ok (Some _) => successes + 1
  | _ => successes
  end.

(** The names under which the calls of [main] are recorded, and the two
    lines it prints whatever its callees return. *)
Definition name_worldview : string := "download_worldview_sample".
Definition name_earth_observatory : string := "download_earth_observatory_sample".
Definition name_wri : string := "download_wri_sample".
Definition name_placeholders : string :=
  "write_placeholders_for_sedac_worldpop_ghsl_copernicus_eotoolkit".

Definition header_line : string := "Downloading sample datasets...".
Definition placeholders_line : string :=
  "- Placeholders written for SEDAC, WorldPop, GHSL, Copernicus, and EO Toolkit".

(** What [main] calls last; the function returns [None]. *)
Definition placeholders_call : prog (option path) :=
  write_placeholders_for_sedac_worldpop_ghsl_copernicus_eotoolkit;; mret None.

(** The run ended without an exception. *)
Definition is_ok {A} (o : outcome A) : Prop :=
  match o with Ok _ => True | Raised _ => False end.

(** The trace of a run of [main], given what its four callees left in the
    trace and how they ended; a callee that raised ends the run. *)
Definition driver_trace (τ1 : list event) (o1 : outcome (option path))
    (τ2 : list event) (o2 : outcome (option path))
    (τ3 : list event) (o3 : outcome (option path))
    (τ4 : list event) (o4 : outcome (option path)) : list event :=
  [EPrint header_line; ESet 0] ++
  stage_trace name_worldview "- Worldview sample downloaded"
    "- Worldview sample skipped (download failed)" 0 τ1 o1 ++
  match o1 with
  | Raised _ => []
  | Ok _ =>
      let s1 := stage_count 0 o1 in
      stage_trace name_earth_observatory "- Earth Observatory sample downloaded"
        "- Earth Observatory sample skipped (download failed)" s1 τ2 o2 ++
      match o2 with
      | Raised _ => []
      | Ok _ =>
          let s2 := stage_count s1 o2 in
          stage_trace name_wri "- WRI sample downloaded"
            "- WRI sample skipped (no direct small CSV found; added instructions)"
            s2 τ3 o3 ++
          match o3 with
          | Raised _ => []
          | Ok _ =>
              let s3 := stage_count s2 o3 in
              ECall name_placeholders :: τ4 ++
              match o4 with
              | Raised _ => []
              | Ok r =>
                  [EReturn name_placeholders r; EPrint placeholders_line;
                   EPrint (completed_line s3)]
              end
          end
      end
  end.

(** What [main] returns or raises, given how its callees ended. *)
Definition driver_result (o1 o2 o3 o4 : outcome (option path)) : outcome Z :=
  match o1, o2, o3, o4 with
  | Raised e, _, _, _ => Raised e
  | Ok _, Raised e, _, _ => Raised e
  | Ok _, Ok _, Raised e, _ => Raised e
  | Ok _, Ok _, Ok _, Raised e => Raised e
  | Ok _, Ok _, Ok _, Ok _ => Ok 0%Z
  end.

(** What the two image sources may touch. *)
Definition worldview_footprint : footprint :=
  sidecar_footprint "worldview" (wms_url date_default)
    ("worldview_truecolor_" +:+ date_default +:+ ".png")
    ("worldview_truecolor_" +:+ date_default +:+ ".json").

Definition earth_observatory_footprint : footprint :=
  sidecar_footprint "earth_observatory" earth_observatory_url
    "sample_earth_observatory.jpg" "sample_earth_observatory.json".

(** The three callees of [main] that fetch something. *)
Definition primary : list string := [name_worldview; name_earth_observatory; name_wri].

(** How many of them returned a path. *)
Definition paths_returned (τ : list event) : nat :=
  length (filter (λ fr, fr.1 ∈ primary ∧ is_Some fr.2) (returns τ)).

(** The order in which [main] calls. *)
Definition steps : list string := primary ++ [name_placeholders].

(** The line [main] prints after the callee [f] returned [r]. *)
Definition status_line (f : string) (r : option path) : string :=
  if decide (f = name_worldview) then
    if truthy r then "- Worldview sample downloaded"
    else "- Worldview sample skipped (download failed)"
  else if decide (f = name_earth_observatory) then
    if truthy r then "- Earth Observatory sample downloaded"
    else "- Earth Observatory sample skipped (download failed)"
  else
    if truthy r then "- WRI sample downloaded"
    else "- WRI sample skipped (no direct small CSV found; added instructions)".

(** How many of the results are paths. *)
Definition count_paths (rs : list (option path)) : Z :=
  Z.of_nat (length (filter is_Some rs)).

(** ** What can leave a callee of the driver *)

(** Only an [OSError] leaves the program. *)
Definition os_only {A} (m : prog A) : Prop :=
  ∀ σ e σ', m σ = (Raised e, σ') → ∃ p, e = OSError p.


(** ** Runs that nothing obstructs *)

Definition worldview_json : path :=
  DATA_DIR // "worldview" // ("worldview_truecolor_" +:+ date_default +:+ ".json").
Definition worldview_png : path :=
  DATA_DIR // "worldview" // ("worldview_truecolor_" +:+ date_default +:+ ".png").
Definition earth_observatory_json : path :=
  DATA_DIR // "earth_observatory" // "sample_earth_observatory.json".
Definition earth_observatory_jpg : path :=
  DATA_DIR // "earth_observatory" // "sample_earth_observatory.jpg".

(** The directory creations and text-file writes that the script makes
    outside the fetch helper can all be made: [DATA_DIR], the folder of
    the CSV source and the provider folders are not regular files, and no
    directory sits where a sidecar or the CSV instructions go. *)
Definition unobstructed (t : FS.tree) : Prop :=
  ¬ FS.is_file t DATA_DIR ∧
  ¬ FS.is_file t wri_dir ∧
  Forall (λ folder, ¬ FS.is_file t (DATA_DIR // folder)) placeholders.*1 ∧
  ¬ FS.is_dir t worldview_json ∧
  ¬ FS.is_dir t earth_observatory_json ∧
  ¬ FS.is_dir t wri_json ∧
  ¬ FS.is_dir t wri_readme.

#[global] Instance unobstructed_dec t : Decision (unobstructed t).
Proof. unfold unobstructed. apply _. Defined.

(** Files at depth 3, directories at depth 2: the shape of every
    footprint of the script. *)
Definition shallow (F : footprint) : Prop :=
  Forall (λ p, length p = 3) (fp_files F) ∧ Forall (λ p, length p = 2) (fp_dirs F).

(** ** Some networks and file systems to run the script on *)

Definition empty_world : world := World ∅ [].

(** Nothing can be reached. *)
Definition net_down : list event → string → response :=
  λ _ _, NoResponse "Network is unreachable".

(** Every request is answered in full. *)
Definition net_up : list event → string → response :=
  λ _ _, Response 200 ["sample "; "bytes"] None.

(** Every reply starts well and breaks after its first chunk. *)
Definition net_broken : list event → string → response :=
  λ _ _, Response 200 ["partial "] (Some "Connection broken").

(** The network that gives each primary source the wanted outcome. *)
Definition net_for (b1 b2 b3 : bool) : list event → string → response :=
  λ _ url,
    let b :=
      if decide (url = wms_url date_default) then b1
      else if decide (url = earth_observatory_url) then b2
      else b3 in
    if b then Response 200 ["sample "; "bytes"] None else Response 404 [] None.

(** The first of two candidates is not found, the second is served. *)
Definition net_second_only : list event → string → response :=
  λ _ url, if decide (url = "https://example.org/first.csv")
           then Response 404 [] None
           else Response 200 ["city,value"] None.



(** A directory sits where the instructions of the CSV source go. *)
Definition world_readme_is_dir : world :=
  World (default ∅ (FS.mkdir_p ∅ wri_readme)) [].

(** A directory sits where the sidecar of the CSV source goes. *)
Definition world_wri_sidecar_is_dir : world :=
  World (default ∅ (FS.mkdir_p ∅ wri_json)) [].

(** An instructions file from an earlier run is there. *)
Definition world_old_readme : world :=
  World (default ∅ (t ← FS.mkdir_p ∅ wri_dir; FS.write_file t wri_readme "old notes")) [].

(** ** What a fetch leaves on disk *)

(** The data file and the sidecar of a source after a run that returned
    [r].  With a path returned, the data file holds the whole body of a
    complete reply and the sidecar holds the metadata.  With [None]
    returned, the sidecar is as it was; the data file is as it was too,
    unless the reply broke while it was streamed, and then it holds the
    chunks that came. *)
Definition files_after (net : list event → string → response) (σ σ' : world)
    (url : string) (data json : path) (metadata : Json.value) (r : option path) : Prop :=
  match r with
  | Some p =>
      p = data ∧
      (∃ status_code chunks,
         net (trace σ) url = Response status_code chunks None ∧
         FS.stat (fs σ') data = Some (FS.EFile (body_of chunks))) ∧
      FS.stat (fs σ') json = Some (FS.EFile (Json.dumps metadata 2 true))
  | None =>
      FS.stat (fs σ') json = FS.stat (fs σ) json ∧
      (FS.stat (fs σ') data = FS.stat (fs σ) data ∨
       ∃ status_code chunks detail,
         net (trace σ) url = Response status_code chunks (Some detail) ∧
         FS.stat (fs σ') data = Some (FS.EFile (body_of chunks)))
  end.

(** The download of a source was given up before its destination was
    opened: no reply, an error status, or a destination that cannot be
    opened. *)
Definition given_up_early (net : list event → string → response) (σ : world)
    (url : string) (data : path) : Prop :=
  match net (trace σ) url with
  | NoResponse _ => True
  | Response status_code _ _ => (400 ≤ status_code < 600)%Z ∨ ¬ can_open (fs σ) data
  end.

(** The destination was opened and the reply, [chunks] after which the
    stream broke or not, was written to it. *)
Definition streamed (net : list event → string → response) (σ : world)
    (url : string) (data : path) (chunks : list string) (broken : option string) : Prop :=
  ∃ status_code,
    net (trace σ) url = Response status_code chunks broken ∧
    ¬ (400 ≤ status_code < 600)%Z ∧ can_open (fs σ) data.

(** What a source that returned [r] has left of its data file and its
    sidecar, case by case of what the network answered in [σ]. *)
Definition disk_after_fetch (net : list event → string → response) (σ σ' : world)
    (url : string) (data json : path) (metadata : Json.value) (r : option path) : Prop :=
  (given_up_early net σ url data →
     r = None ∧
     FS.stat (fs σ') data = FS.stat (fs σ) data ∧
     FS.stat (fs σ') json = FS.stat (fs σ) json) ∧
  (∀ chunks detail, streamed net σ url data chunks (Some detail) →
     r = None ∧
     FS.stat (fs σ') data = Some (FS.EFile (body_of chunks)) ∧
     FS.stat (fs σ') json = FS.stat (fs σ) json) ∧
  (∀ chunks, streamed net σ url data chunks None →
     r = Some data ∧
     FS.stat (fs σ') data = Some (FS.EFile (body_of chunks)) ∧
     FS.stat (fs σ') json = Some (FS.EFile (Json.dumps metadata 2 true))) ∧
  (given_up_early net σ url data ∨ ∃ chunks broken, streamed net σ url data chunks broken).

(** The one candidate of the script. *)
Definition wri_url : string := default "" (head candidates).

(** ** The sidecars *)

(** The keys are in code point order. *)
Fixpoint keys_sorted (keys : list string) : bool :=
  match keys with
  | k1 :: (k2 :: _) as rest => Json.str_le k1 k2 && negb (String.eqb k1 k2) && keys_sorted rest
  | _ => true
  end.

(** The number of spaces a line starts with. *)
Fixpoint leading_spaces (s : string) : nat :=
  match s with
  | String " " s' => S (leading_spaces s')
  | _ => 0
  end.

(** The lines of a text, [current] being the line read so far. *)
Fixpoint lines_from (current : string) (s : string) : list string :=
  match s with
  | "" => [current]
  | String c s' =>
      if decide (c = Json.newline) then current :: lines_from "" s'
      else lines_from (current +:+ String c "") s'
  end.

(** The number of spaces each line of a text starts with. *)
Definition line_indents (text : string) : list nat :=
  leading_spaces <$> lines_from "" text.

(** What reading a sidecar back gives: the text is the one [json.dump]
    writes for [metadata] with sorted keys and an indent of two; read
    back, it is the mapping that was written, its keys in order, with the
    given non-empty strings under [source] and [url]; every line is
    indented by two spaces for each level it is nested in, and writing
    the mapping read back with an indent of two, in the order it was
    read, gives the text again. *)
Definition reads_back (text : string) (metadata : Json.value)
    (source url : string) (indents : list nat) : Prop :=
  text = Json.dumps metadata 2 true ∧
  ∃ items,
    metadata = Json.Dict items ∧
    Json.loads text = Some (Json.Dict (Json.sort_items items)) ∧
    keys_sorted (Json.keys (Json.Dict (Json.sort_items items))) = true ∧
    Json.get "source" (Json.Dict (Json.sort_items items)) = Some (Json.Str source) ∧
    source ≠ "" ∧
    Json.get "url" (Json.Dict (Json.sort_items items)) = Some (Json.Str url) ∧
    url ≠ "" ∧
    line_indents text = indents ∧
    Json.dumps (Json.Dict (Json.sort_items items)) 2 false = text.

(** ** Further vocabulary: single calls, other dates, the run as a whole *)

(** What one call of the helper may touch. *)
Definition download_footprint (url : string) (out_path : path) : footprint :=
  Footprint [url] [out_path] [parent out_path].

(** The first request is answered in full, every later one breaks after
    its first chunk. *)
Definition net_second_breaks : list event → string → response :=
  λ τ _, match requested τ with
         | [] => Response 200 ["sample "; "bytes"] None
         | _ :: _ => Response 200 ["partial "] (Some "Connection broken")
         end.

(** A date is put in a file name as it is.  [pathlib] splits a name at
    every ["/"], so a date is one path component, as it is in the list of
    components that models the path, only when it holds no separator. *)
Fixpoint has_separator (s : string) : bool :=
  match s with
  | "" => false
  | String c s' => bool_decide (c = "/"%char) || has_separator s'
  end.

(** The data file and the sidecar of the worldview source for a date. *)
Definition worldview_png_of (date : string) : path :=
  DATA_DIR // "worldview" // ("worldview_truecolor_" +:+ date +:+ ".png").
Definition worldview_json_of (date : string) : path :=
  DATA_DIR // "worldview" // ("worldview_truecolor_" +:+ date +:+ ".json").

(** [main] called [body] on a file system [t]; the call left [τ] in the
    trace and ended in [o], leaving [σ1]. *)
Definition called (body : prog (option path)) (t : FS.tree)
    (τ : list event) (o : outcome (option path)) (σ1 : world) : Prop :=
  ∃ σa, fs σa = t ∧ body σa = (o, σ1) ∧ trace σ1 = trace σa ++ τ.

(** What a source leaves in the trace besides its writes: one request,
    and one diagnostic exactly when it returns [None]; a source that
    raises does so before its request or after it, and has printed the
    diagnostic of a failed download or nothing. *)
Definition source_trace (url : string) (o : outcome (option path)) (τ : list event) : Prop :=
  match o with
  | Ok (Some _) => requested τ = [url] ∧ printed τ = []
  | Ok None => requested τ = [url] ∧ ∃ e, printed τ = [diagnostic url e]
  | Raised _ =>
      (requested τ = [] ∨ requested τ = [url]) ∧
      (printed τ = [] ∨ ∃ e, printed τ = [diagnostic url e])
  end.

(** Every file the script can write and every directory it can create. *)
Definition main_files : list path :=
  [worldview_png; worldview_json; earth_observatory_jpg; earth_observatory_json;
   wri_csv; wri_json; wri_readme] ++ (placeholder_readme <$> placeholders.*1).

Definition main_dirs : list path :=
  [DATA_DIR // "worldview"; DATA_DIR // "earth_observatory"; wri_dir]
  ++ ((λ folder, DATA_DIR // folder) <$> placeholders.*1).

Definition main_footprint : footprint :=
  Footprint [wms_url date_default; earth_observatory_url; wri_url] main_files main_dirs.

(** The script run once for each of the given networks, one run after
    the other on the file system the run before left. *)
Fixpoint rerun (nets : list (list event → string → response)) (σ : world) : world :=
  match nets with
  | [] => σ
  | net :: rest => rerun rest (main net σ).2
  end.

(** The files of a source that returned [r], between a file system [t]
    and a later one [t']: with a path returned, the data file and the
    sidecar with the metadata are there; with [None] returned, the
    sidecar is as it was. *)
Definition source_on_disk (t t' : FS.tree) (data json : path) (metadata : Json.value)
    (r : option path) : Prop :=
  match r with
  | Some p =>
      p = data ∧ FS.is_file t' data ∧
      FS.stat t' json = Some (FS.EFile (Json.dumps metadata 2 true))
  | None => FS.stat t' json = FS.stat t json
  end.

(** The lines a source that returned [r] printed: none, or the one
    diagnostic of its failed download. *)
Definition failure_lines (url : string) (r : option path) (lines : list string) : Prop :=
  match r with
  | Some _ => lines = []
  | None => ∃ e, lines = [diagnostic url e]
  end.

(** The first character of a line. *)
Definition first_char (s : string) : option ascii :=
  match s with
  | "" => None
  | String c _ => Some c
  end.

(** A line that cannot be taken for the count line, which starts with a
    capital C: the header, a status line, a diagnostic. *)
Definition progress_line (line : string) : Prop :=
  first_char line ≠ Some "C"%char.

(** * Reasoning about runs *)

(** ** The file system *)

Module FSFacts.
Import FS.

(** *** The tree is well formed by construction *)

Lemma stat_snoc t p x e : stat t (p ++ [x]) = Some e → stat t p = Some EDir.
Proof.
  revert t. induction p as [|y p IH]; intros t; [done|].
  simpl. destruct (t !! y) as [[d|t']|]; [|by apply IH|done].
  destruct p; simpl; discriminate.
Qed.

Lemma stat_prefix t p q e :
  p `prefix_of` q → stat t q = Some e → p ≠ q → stat t p = Some EDir.
Proof.
  intros [k ->]. revert p e. induction k as [|x k IH] using rev_ind; intros p e Hs Hne.
  - by rewrite app_nil_r in Hne.
  - rewrite app_assoc in Hs. apply stat_snoc in Hs.
    destruct (decide (p = p ++ k)) as [Heq|Hne']; [by rewrite Heq|]. by eapply IH.
Qed.

Lemma stat_parent t p e : p ≠ [] → stat t p = Some e → stat t (parent p) = Some EDir.
Proof.
  intros Hp Hs. unfold parent.
  rewrite (app_removelast_last "" Hp) in Hs. by apply stat_snoc in Hs.
Qed.

Lemma stat_below_file t p d q : stat t p = Some (EFile d) → p `prefix_of` q → p ≠ q → stat t q = None.
Proof.
  intros Hp Hpre Hne. destruct (stat t q) as [e|] eqn:Hq; [|done].
  by rewrite (stat_prefix _ _ _ _ Hpre Hq Hne) in Hp.
Qed.

(** *** What the operations do, seen through [stat] *)

Lemma stat_empty p : stat ∅ p = if decide (p = []) then Some EDir else None.
Proof. destruct p; simpl; [done|]. by rewrite lookup_empty. Qed.

Lemma prefix_cons_iff (x y : string) (q p : path) :
  y :: q `prefix_of` x :: p ↔ y = x ∧ q `prefix_of` p.
Proof.
  split.
  - intros H. split; [by eapply prefix_cons_inv_1|by eapply prefix_cons_inv_2].
  - intros [-> H]. by apply prefix_cons.
Qed.

Lemma if_prefix_cons_eq {A} (x : string) (q p : path) (a b : A) :
  (if decide (x :: q `prefix_of` x :: p) then a else b) =
  (if decide (q `prefix_of` p) then a else b).
Proof. apply decide_ext. rewrite prefix_cons_iff. naive_solver. Qed.

Lemma if_prefix_cons_ne {A} (x y : string) (q p : path) (a b : A) :
  y ≠ x → (if decide (y :: q `prefix_of` x :: p) then a else b) = b.
Proof. intros Hne. apply decide_False. rewrite prefix_cons_iff. naive_solver. Qed.

Lemma stat_mkdir_p t p t' q :
  mkdir_p t p = Some t' →
  stat t' q =
    match stat t q with
    | Some e => Some e
    | None => if decide (q `prefix_of` p) then Some EDir else None
    end.
Proof.
  revert t t' q. induction p as [|x p IH]; intros t t' q Hm; simpl in Hm.
  - injection Hm as <-. destruct (stat t q) eqn:Hq; [done|].
    case_decide as Hpre; [|done]. apply prefix_nil_inv in Hpre as ->. done.
  - destruct q as [|y q]; simpl; [done|].
    destruct (decide (y = x)) as [->|Hyx].
    + rewrite if_prefix_cons_eq.
      destruct (t !! x) as [[d|t1]|] eqn:Hx; [done| |].
      * destruct (mkdir_p t1 p) as [t1'|] eqn:Hp; [|done].
        injection Hm as <-. rewrite lookup_insert_eq. by apply IH.
      * destruct (mkdir_p ∅ p) as [t1'|] eqn:Hp; [|done].
        injection Hm as <-. rewrite lookup_insert_eq.
        rewrite (IH _ _ q Hp), stat_empty.
        destruct (decide (q = [])) as [->|]; [|done].
        by rewrite decide_True by apply prefix_nil.
    + rewrite if_prefix_cons_ne by done.
      assert (t' !! y = t !! y) as ->.
      { destruct (t !! x) as [[d|t1]|]; [done| |].
        - destruct (mkdir_p t1 p); [|done]. injection Hm as <-.
          by rewrite lookup_insert_ne.
        - destruct (mkdir_p ∅ p); [|done]. injection Hm as <-.
          by rewrite lookup_insert_ne. }
      destruct (t !! y) as [[d|t2]|]; [by destruct q| |done].
      by destruct (stat t2 q).
Qed.

(** [mkdir_p] fails exactly when a component of the path is a regular
    file. *)
Lemma mkdir_p_None t p :
  mkdir_p t p = None ↔ ∃ q, q `prefix_of` p ∧ is_file t q.
Proof.
  revert t. induction p as [|x p IH]; intros t; simpl.
  - split; [done|]. intros (q & Hq & d & Hd).
    apply prefix_nil_inv in Hq as ->. done.
  - destruct (t !! x) as [[d|t1]|] eqn:Hx.
    + split; [|done]. intros _. exists [x]. split.
      * apply prefix_cons, prefix_nil.
      * exists d. simpl. by rewrite Hx.
    + destruct (mkdir_p t1 p) as [t1'|] eqn:Hp; simpl.
      * split; [done|]. intros ([|y q] & Hq & d & Hd); [done|].
        apply prefix_cons_iff in Hq as [-> Hq]. simpl in Hd. rewrite Hx in Hd.
        assert (mkdir_p t1 p = None) as Hn; [|congruence].
        apply IH. exists q. split; [done|]. by exists d.
      * split; [|done]. intros _. apply IH in Hp as (q & Hq & d & Hd).
        exists (x :: q). split; [by apply prefix_cons|].
        exists d. simpl. by rewrite Hx.
    + destruct (mkdir_p ∅ p) as [t1'|] eqn:Hp; simpl.
      * split; [done|]. intros ([|y q] & Hq & d & Hd); [done|].
        apply prefix_cons_iff in Hq as [-> Hq]. simpl in Hd. by rewrite Hx in Hd.
      * apply IH in Hp as (q & Hq & d & Hd). rewrite stat_empty in Hd.
        by case_decide.
Qed.

Lemma stat_write_file t p d t' q :
  write_file t p d = Some t' →
  stat t' q = if decide (q = p) then Some (EFile d) else stat t q.
Proof.
  revert t t' q. induction p as [|x p IH]; intros t t' q Hw; [done|].
  simpl in Hw. destruct q as [|y q]; [done|]. simpl.
  destruct (decide (y = x)) as [->|Hyx].
  - destruct p as [|z p].
    + assert (t' = <[x := File d]> t) as ->.
      { destruct (t !! x) as [[?|?]|]; congruence. }
      rewrite lookup_insert_eq. destruct q as [|z q].
      * by rewrite decide_True.
      * rewrite decide_False by done.
        destruct (t !! x) as [[?|?]|]; done.
    + destruct (t !! x) as [[?|t1]|] eqn:Hx; [done| |done].
      destruct (write_file t1 (z :: p) d) as [t1'|] eqn:Hp; [|done].
      injection Hw as <-. rewrite lookup_insert_eq.
      rewrite (IH _ _ q Hp).
      destruct (decide (q = z :: p)) as [->|Hq].
      * by rewrite decide_True.
      * rewrite decide_False; [done|]. congruence.
  - rewrite decide_False by congruence.
    assert (t' !! y = t !! y) as ->; [|done].
    destruct p as [|z p].
    + destruct (t !! x) as [[?|?]|]; try done; injection Hw as <-;
        by rewrite lookup_insert_ne.
    + destruct (t !! x) as [[?|t1]|]; [done| |done].
      destruct (write_file t1 (z :: p) d); [|done]. injection Hw as <-.
      by rewrite lookup_insert_ne.
Qed.

(** [write_file] succeeds exactly when the parent is a directory and the
    path itself is not one. *)
Lemma write_file_Some t p d :
  is_Some (write_file t p d) ↔ p ≠ [] ∧ is_dir t (parent p) ∧ ¬ is_dir t p.
Proof.
  unfold is_dir, parent. revert t. induction p as [|x p IH]; intros t.
  - simpl. split; [by intros [??]|]. by intros [? _].
  - destruct p as [|z p].
    + simpl. destruct (t !! x) as [[?|?]|]; split; try done; try naive_solver.
    + change (write_file t (x :: z :: p) d) with
        (match t !! x with
         | Some (Dir t') => t'' ← write_file t' (z :: p) d; Some (<[x := Dir t'']> t)
         | _ => None
         end).
      change (removelast (x :: z :: p)) with (x :: removelast (z :: p)).
      change (stat t (x :: removelast (z :: p))) with
        (match t !! x with
         | None => None
         | Some (File d) =>
             match removelast (z :: p) with [] => Some (EFile d) | _ :: _ => None end
         | Some (Dir t') => stat t' (removelast (z :: p))
         end).
      change (stat t (x :: z :: p)) with
        (match t !! x with
         | None => None
         | Some (File d) => None
         | Some (Dir t') => stat t' (z :: p)
         end).
      destruct (t !! x) as [[d0|t1]|].
      * split; [by intros [??]|]. intros (_ & H & _).
        by destruct (removelast (z :: p)).
      * specialize (IH t1). destruct (write_file t1 (z :: p) d); simpl.
        -- split; [|by eauto]. intros _. split; [done|]. apply IH. by eauto.
        -- split; [by intros [??]|]. intros (_ & H1 & H2).
           assert (is_Some (@None tree)) as [??]; [|done]. apply IH. done.
      * split; [by intros [??]|]. by intros (_ & ? & _).
Qed.

Lemma stat_append_file t p s q :
  stat (append_file t p s) q =
    if decide (q = p) then
      match stat t p with
      | Some (EFile d) => Some (EFile (d +:+ s))
      | o => o
      end
    else stat t q.
Proof.
  unfold append_file. destruct (stat t p) as [[d|]|] eqn:Hp.
  - assert (is_Some (write_file t p (d +:+ s))) as [t' Hw].
    { apply write_file_Some. assert (p ≠ []) by (by intros ->).
      split; [done|]. split; [by eapply stat_parent|].
      unfold is_dir. congruence. }
    rewrite Hw. simpl. by apply stat_write_file.
  - case_decide; by subst.
  - case_decide; by subst.
Qed.

End FSFacts.

(** ** Running the monad *)

Lemma run_bind {A B} (m : prog A) (f : A → prog B) σ :
  (m ≫= f) σ =
    match m σ with
    | (Ok a, σ') => f a σ'
    | (Raised e, σ') => (Raised e, σ')
    end.
Proof. reflexivity. Qed.

Lemma run_bind_Ok {A B} (m : prog A) (f : A → prog B) σ a σ' :
  m σ = (Ok a, σ') → (m ≫= f) σ = f a σ'.
Proof. intros H. by rewrite run_bind, H. Qed.

Lemma run_bind_Raised {A B} (m : prog A) (f : A → prog B) σ e σ' :
  m σ = (Raised e, σ') → (m ≫= f) σ = (Raised e, σ').
Proof. intros H. by rewrite run_bind, H. Qed.

Lemma run_mret {A} (a : A) σ : (mret a : prog A) σ = (Ok a, σ).
Proof. reflexivity. Qed.

Lemma run_emit e σ : emit e σ = (Ok tt, World (fs σ) (trace σ ++ [e])).
Proof. reflexivity. Qed.

Lemma run_print line σ : print line σ = (Ok tt, World (fs σ) (trace σ ++ [EPrint line])).
Proof. reflexivity. Qed.

Lemma run_set_successes v σ :
  set_successes v σ = (Ok v, World (fs σ) (trace σ ++ [ESet v])).
Proof. reflexivity. Qed.

Lemma run_bind_ext {A B} (m : prog A) (f g : A → prog B) σ :
  (∀ a σ', f a σ' = g a σ') → (m ≫= f) σ = (m ≫= g) σ.
Proof. intros H. rewrite !run_bind. by destruct (m σ) as [[a|e] σ1]. Qed.

Lemma run_bind_assoc {A B C} (m : prog A) (f : A → prog B) (g : B → prog C) σ :
  (m ≫= λ a, f a ≫= g) σ = ((m ≫= f) ≫= g) σ.
Proof. rewrite !run_bind. by destruct (m σ) as [[a|e] σ1]. Qed.

Lemma run_for_each_cons {A} (x : A) l (body : A → prog unit) σ :
  for_each (x :: l) body σ =
    match body x σ with
    | (Ok _, σ') => for_each l body σ'
    | (Raised e, σ') => (Raised e, σ')
    end.
Proof. reflexivity. Qed.

(** ** Footprints *)

Lemma fs_evolves_refl W D t : fs_evolves W D t t.
Proof. split; auto. Qed.

Lemma fs_evolves_trans W D t1 t2 t3 :
  fs_evolves W D t1 t2 → fs_evolves W D t2 t3 → fs_evolves W D t1 t3.
Proof.
  intros H12 H23. split.
  - intros q d H. apply (ev_file_back _ _ _ _ H23) in H as [H|H]; [|by right].
    by apply (ev_file_back _ _ _ _ H12) in H.
  - intros q H. apply (ev_dir_back _ _ _ _ H23) in H as [H|H]; [|by right].
    by apply (ev_dir_back _ _ _ _ H12) in H.
  - intros q H. by apply (ev_dir_keep _ _ _ _ H23), (ev_dir_keep _ _ _ _ H12).
  - intros q d H Hq.
    apply (ev_file_keep _ _ _ _ H23); [|done]. by apply (ev_file_keep _ _ _ _ H12).
  - intros q H. by apply (ev_file_stay _ _ _ _ H23), (ev_file_stay _ _ _ _ H12).
Qed.

Lemma fs_evolves_weaken W D W' D' t t' :
  W ⊆ W' → D ⊆ D' → fs_evolves W D t t' → fs_evolves W' D' t t'.
Proof.
  intros HW HD H. split.
  - intros q d Hq. apply (ev_file_back _ _ _ _ H) in Hq as [?|?]; auto.
  - intros q Hq. apply (ev_dir_back _ _ _ _ H) in Hq as [?|(p & ? & ?)]; [auto|].
    right. exists p. auto.
  - apply H.
  - intros q d Hq Hn. apply (ev_file_keep _ _ _ _ H); auto.
  - apply H.
Qed.

#[global] Instance within_preorder F : PreOrder (within F).
Proof.
  split.
  - intros σ. split; [|apply fs_evolves_refl].
    exists []. by rewrite app_nil_r.
  - intros σ1 σ2 σ3 [(τ1 & E1 & H1) F1] [(τ2 & E2 & H2) F2]. split.
    + exists (τ1 ++ τ2). rewrite E2, E1, app_assoc. split; [done|].
      by apply Forall_app.
    + by eapply fs_evolves_trans.
Qed.

Lemma allowed_weaken F F' e : fp_le F F' → allowed F e → allowed F' e.
Proof. intros (HU & HW & HD). destruct e; simpl; auto. Qed.

Lemma within_weaken F F' σ σ' : fp_le F F' → within F σ σ' → within F' σ σ'.
Proof.
  intros HF [(τ & E & H) Hfs]. split.
  - exists τ. split; [done|]. eapply Forall_impl; [done|].
    intros e. by apply allowed_weaken.
  - destruct HF as (HU & HW & HD). by eapply fs_evolves_weaken.
Qed.

Lemma stays_mret {A} F (a : A) : stays_within F (mret a).
Proof. intros σ. simpl. reflexivity. Qed.

Lemma stays_raise {A} F e : stays_within F (@raise A e).
Proof. intros σ. simpl. reflexivity. Qed.

Lemma stays_bind {A B} F (m : prog A) (f : A → prog B) :
  stays_within F m → (∀ a, stays_within F (f a)) → stays_within F (m ≫= f).
Proof.
  intros Hm Hf σ. rewrite run_bind. specialize (Hm σ).
  destruct (m σ) as [[a|e] σ1]; simpl in *; [|done].
  etrans; [done|]. apply Hf.
Qed.

Lemma stays_try_except {A} F (m : prog A) h :
  stays_within F m → (∀ e, stays_within F (h e)) → stays_within F (try_except m h).
Proof.
  intros Hm Hh σ. unfold try_except. specialize (Hm σ).
  destruct (m σ) as [[a|e] σ1]; simpl in *; [done|].
  etrans; [done|]. apply Hh.
Qed.

Lemma stays_for_each {A} F (l : list A) body :
  (∀ x, stays_within F (body x)) → stays_within F (for_each l body).
Proof.
  intros Hb. induction l as [|x l IH]; simpl.
  - apply stays_mret.
  - apply stays_bind; [apply Hb|done].
Qed.

Lemma stays_emit F e : allowed F e → stays_within F (emit e).
Proof.
  intros He σ. split; simpl; [|apply fs_evolves_refl].
  exists [e]. split; [done|]. by apply Forall_singleton.
Qed.

Lemma stays_print F line : stays_within F (print line).
Proof. by apply stays_emit. Qed.

Lemma stays_path_exists F p : stays_within F (path_exists p).
Proof. intros σ. simpl. reflexivity. Qed.

Lemma fs_evolves_mkdir_p W D t p t' :
  FS.mkdir_p t p = Some t' → p ∈ D → fs_evolves W D t t'.
Proof.
  intros Hm Hp. split; intros q.
  - intros d. rewrite (FSFacts.stat_mkdir_p _ _ _ q Hm).
    destruct (FS.stat t q); [by left|]. by case_decide.
  - rewrite (FSFacts.stat_mkdir_p _ _ _ q Hm).
    destruct (FS.stat t q); [by left|]. case_decide; [|done].
    intros _. right. by exists p.
  - rewrite (FSFacts.stat_mkdir_p _ _ _ q Hm). by intros ->.
  - intros d. rewrite (FSFacts.stat_mkdir_p _ _ _ q Hm). by intros ->.
  - intros [d Hd]. exists d. by rewrite (FSFacts.stat_mkdir_p _ _ _ q Hm), Hd.
Qed.

Lemma fs_evolves_write_file W D t p d t' :
  FS.write_file t p d = Some t' → p ∈ W → fs_evolves W D t t'.
Proof.
  intros Hw Hp.
  assert (¬ FS.is_dir t p) as Hnd.
  { assert (is_Some (FS.write_file t p d)) as H by eauto.
    apply FSFacts.write_file_Some in H. tauto. }
  split; intros q.
  - intros d'. rewrite (FSFacts.stat_write_file _ _ _ _ q Hw).
    case_decide; subst; auto.
  - rewrite (FSFacts.stat_write_file _ _ _ _ q Hw). case_decide; [done|auto].
  - rewrite (FSFacts.stat_write_file _ _ _ _ q Hw).
    case_decide; [|done]. subst. intros H. by destruct Hnd.
  - intros d'. rewrite (FSFacts.stat_write_file _ _ _ _ q Hw).
    case_decide; [|done]. by subst.
  - intros [d' Hd]. unfold FS.is_file. rewrite (FSFacts.stat_write_file _ _ _ _ q Hw).
    case_decide; eauto.
Qed.

Lemma fs_evolves_append_file W D t p s :
  p ∈ W → fs_evolves W D t (FS.append_file t p s).
Proof.
  intros Hp. split; intros q.
  - intros d. rewrite FSFacts.stat_append_file. case_decide; subst; auto.
  - rewrite FSFacts.stat_append_file. case_decide; [|auto]. subst.
    destruct (FS.stat t p) as [[?|]|]; [done|auto|done].
  - rewrite FSFacts.stat_append_file. case_decide; [|done]. subst. by intros ->.
  - intros d. rewrite FSFacts.stat_append_file. case_decide; [|done]. by subst.
  - intros [d Hd]. unfold FS.is_file. rewrite FSFacts.stat_append_file.
    case_decide; [|eauto]. subst. rewrite Hd. eauto.
Qed.

Lemma stays_path_mkdir F p : p ∈ fp_dirs F → stays_within F (path_mkdir p).
Proof.
  intros Hp σ. unfold path_mkdir.
  destruct (FS.mkdir_p (fs σ) p) as [t|] eqn:Hm; simpl; [|reflexivity].
  split; simpl.
  - exists []. by rewrite app_nil_r.
  - by eapply fs_evolves_mkdir_p.
Qed.

Lemma stays_open_w F p : p ∈ fp_files F → stays_within F (open_w p).
Proof.
  intros Hp σ. unfold open_w.
  destruct (FS.write_file (fs σ) p "") as [t|] eqn:Hw; simpl; [|reflexivity].
  split; simpl.
  - exists [EWrite p]. split; [done|]. by apply Forall_singleton.
  - by eapply fs_evolves_write_file.
Qed.

Lemma stays_fwrite F p s : p ∈ fp_files F → stays_within F (fwrite p s).
Proof.
  intros Hp σ. split; simpl.
  - exists []. by rewrite app_nil_r.
  - by apply fs_evolves_append_file.
Qed.

Lemma stays_ensure_directory F p : p ∈ fp_dirs F → stays_within F (ensure_directory p).
Proof.
  intros Hp. apply stays_bind; [apply stays_path_exists|].
  intros []; simpl; [apply stays_mret|by apply stays_path_mkdir].
Qed.

Section Footprints.
Variable net : list event → string → response.

Lemma stays_requests_get F url timeout :
  url ∈ fp_urls F → stays_within F (requests_get net url timeout).
Proof.
  intros Hu σ. unfold requests_get.
  assert (within F σ (World (fs σ) (trace σ ++ [EGet url true timeout]))).
  { split; simpl; [|apply fs_evolves_refl].
    exists [EGet url true timeout]. split; [done|]. by apply Forall_singleton. }
  by destruct (net (trace σ) url).
Qed.

Lemma stays_http_download F url out_path timeout :
  url ∈ fp_urls F → out_path ∈ fp_files F → parent out_path ∈ fp_dirs F →
  stays_within F (http_download net url out_path timeout).
Proof.
  intros Hu Hp Hd. apply stays_try_except.
  - apply stays_bind; [by apply stays_requests_get|]. intros resp.
    apply stays_bind.
    { unfold raise_for_status. case_decide; [apply stays_raise|apply stays_mret]. }
    intros _. apply stays_bind; [by apply stays_ensure_directory|]. intros _.
    apply stays_bind; [by apply stays_open_w|]. intros _.
    apply stays_bind; [|intros; apply stays_mret].
    apply stays_bind.
    + apply stays_for_each. intros chunk.
      case_decide; [apply stays_mret|by apply stays_fwrite].
    + intros _. destruct (resp.2); [apply stays_raise|apply stays_mret].
  - intros e. apply stays_bind; [apply stays_print|]. intros; apply stays_mret.
Qed.

End Footprints.

(** ** Opening a file below a directory that was just ensured *)

Lemma parent_child p x : parent (p // x) = p.
Proof. unfold parent, child. apply removelast_last. Qed.

Lemma child_parent (p : path) : p ≠ [] → ∃ x, p = parent p // x.
Proof. intros Hp. exists (List.last p ""). by apply app_removelast_last. Qed.

Lemma prefix_parent (q p : path) :
  p ≠ [] → q `prefix_of` p → q ≠ p → q `prefix_of` parent p.
Proof.
  intros Hp [k Hk] Hne. destruct (child_parent p Hp) as [x Hx].
  destruct k as [|y k _] using rev_ind.
  - rewrite app_nil_r in Hk. congruence.
  - rewrite Hx in Hk. unfold child in Hk. rewrite app_assoc in Hk.
    apply app_inj_tail in Hk as [-> _]. by exists k.
Qed.

Lemma parent_prefix (p : path) : parent p `prefix_of` p.
Proof.
  destruct (decide (p = [])) as [->|Hp]; [done|].
  destruct (child_parent p Hp) as [x Hx]. rewrite Hx at 2. by exists [x].
Qed.

Lemma parent_ne (p : path) : p ≠ [] → parent p ≠ p.
Proof.
  intros Hp Heq. destruct (child_parent p Hp) as [x Hx].
  rewrite Heq in Hx. unfold child in Hx.
  apply (f_equal length) in Hx. rewrite length_app in Hx. simpl in Hx. lia.
Qed.

Lemma ensure_then_open p σ :
  (can_open (fs σ) p ∧
   ∃ σ1, (ensure_directory (parent p);; open_w p) σ = (Ok tt, σ1) ∧
         trace σ1 = trace σ ++ [EWrite p] ∧
         FS.stat (fs σ1) p = Some (FS.EFile "")) ∨
  (¬ can_open (fs σ) p ∧
   ∃ p', (ensure_directory (parent p);; open_w p) σ = (Raised (OSError p'), σ)).
Proof.
  unfold ensure_directory. rewrite !run_bind. unfold path_exists.
  destruct (FS.stat (fs σ) (parent p)) as [e|] eqn:Hpar.
  - (* the parent exists: nothing is created *)
    rewrite bool_decide_true by eauto. simpl. unfold open_w.
    destruct (FS.write_file (fs σ) p "") as [t|] eqn:Hw.
    + left. assert (is_Some (FS.write_file (fs σ) p "")) as Hs by eauto.
      apply FSFacts.write_file_Some in Hs as (Hp & Hd & Hnd). split.
      * split; [done|]. split; [done|]. intros q Hq Hne [d Hf].
        apply prefix_parent in Hq; [|done..].
        destruct (decide (q = parent p)) as [->|Hne']; [unfold FS.is_dir in Hd; congruence|].
        rewrite (FSFacts.stat_prefix _ _ _ _ Hq Hd Hne') in Hf. done.
      * eexists. split; [done|]. split; [done|]. simpl.
        rewrite (FSFacts.stat_write_file _ _ _ _ p Hw). by rewrite decide_True.
    + right. split; [|by eexists].
      intros (Hp & Hnd & Hanc).
      assert (is_Some (FS.write_file (fs σ) p "")) as [??]; [|congruence].
      apply FSFacts.write_file_Some. split; [done|]. split; [|done].
      destruct e as [d|]; [|done]. exfalso.
      apply (Hanc (parent p)); [apply parent_prefix|by apply parent_ne|by exists d].
  - (* the parent is missing: it is created with its ancestors *)
    rewrite bool_decide_false by (by intros [??]). simpl. unfold path_mkdir.
    assert (p ≠ []) as Hp by (by intros ->).
    assert (FS.stat (fs σ) p = None) as Hnone.
    { destruct (FS.stat (fs σ) p) eqn:Hs; [|done].
      apply FSFacts.stat_parent in Hs; [congruence|done]. }
    destruct (FS.mkdir_p (fs σ) (parent p)) as [t1|] eqn:Hm.
    + left. simpl. unfold open_w. simpl.
      assert (is_Some (FS.write_file t1 p "")) as [t2 Hw].
      { apply FSFacts.write_file_Some. split; [done|]. unfold FS.is_dir.
        rewrite !(FSFacts.stat_mkdir_p _ _ _ _ Hm), Hpar, Hnone.
        rewrite decide_True by done. split; [done|].
        rewrite decide_False; [done|].
        destruct (child_parent p Hp) as [x Hx]. rewrite Hx at 1.
        apply prefix_snoc_not. }
      rewrite Hw. split.
      * split; [done|]. split; [unfold FS.is_dir; congruence|].
        intros q Hq Hne Hf.
        assert (FS.mkdir_p (fs σ) (parent p) = None) as Hn; [|congruence].
        apply FSFacts.mkdir_p_None. exists q. split; [|done]. by apply prefix_parent.
      * eexists. split; [done|]. split; [done|]. simpl.
        rewrite (FSFacts.stat_write_file _ _ _ _ p Hw). by rewrite decide_True.
    + right. split; [|by eexists].
      apply FSFacts.mkdir_p_None in Hm as (q & Hq & Hf).
      intros (_ & _ & Hanc). apply (Hanc q); [| |done].
      * etrans; [done|apply parent_prefix].
      * intros ->. destruct Hf as [d Hf]. congruence.
Qed.

(** ** The fetch helper *)

Lemma append_cons (x : ascii) (a b : string) : String x a +:+ b = String x (a +:+ b).
Proof. reflexivity. Qed.

Lemma append_assoc (a b c : string) : (a +:+ b) +:+ c = a +:+ (b +:+ c).
Proof. induction a as [|x a IH]; [done|]. by rewrite !append_cons, IH. Qed.

Lemma append_empty_r (a : string) : a +:+ "" = a.
Proof. induction a as [|x a IH]; [done|]. by rewrite append_cons, IH. Qed.

Lemma write_chunks p chunks σ d :
  FS.stat (fs σ) p = Some (FS.EFile d) →
  ∃ σ', for_each chunks (λ chunk, if decide (chunk = "") then mret tt else fwrite p chunk) σ
          = (Ok tt, σ') ∧
        trace σ' = trace σ ∧
        FS.stat (fs σ') p = Some (FS.EFile (d +:+ body_of chunks)).
Proof.
  revert σ d. induction chunks as [|c chunks IH]; intros σ d Hd; simpl.
  - exists σ. by rewrite append_empty_r.
  - rewrite run_bind. case_decide as Hc.
    + subst c. simpl. by apply IH.
    + simpl.
      destruct (IH (World (FS.append_file (fs σ) p c) (trace σ)) (d +:+ c)) as (σ' & Hr & Ht & Hs).
      { simpl. rewrite FSFacts.stat_append_file, decide_True by done. by rewrite Hd. }
      exists σ'. by rewrite Hr, Hs, append_assoc.
Qed.

Section Helper.
Variable net : list event → string → response.

Lemma http_download_fetch url p timeout σ :
  ∃ b σ', http_download net url p timeout σ = (Ok b, σ') ∧ fetch net url p timeout σ b σ'.
Proof.
  unfold http_download, try_except. rewrite run_bind. unfold requests_get.
  destruct (net (trace σ) url) as [detail|status_code chunks broken] eqn:Hnet.
  { (* no reply *)
    eexists false, _. split; [reflexivity|].
    apply fetch_refused with (e := RequestException detail); simpl.
    - by rewrite Hnet.
    - done.
    - by rewrite <- app_assoc. }
  rewrite run_bind. unfold raise_for_status. simpl.
  destruct (decide (400 ≤ status_code < 600)%Z) as [Hst|Hst].
  { (* an error status *)
    eexists false, _. split; [reflexivity|].
    apply fetch_refused with (e := HTTPError status_code); simpl.
    - rewrite Hnet. simpl. by rewrite decide_True.
    - done.
    - by rewrite <- app_assoc. }
  simpl. rewrite run_bind_assoc, run_bind.
  set (σ1 := World (fs σ) (trace σ ++ [EGet url true timeout])).
  destruct (ensure_then_open p σ1) as [(Hcan & σ2 & -> & Ht2 & Hs2)|(Hcan & p' & ->)].
  2:{ (* the destination cannot be opened *)
    eexists false, _. split; [reflexivity|].
    apply fetch_refused with (e := OSError p'); simpl.
    - rewrite Hnet. simpl. rewrite decide_False by done. split; [done|by eexists].
    - done.
    - by rewrite <- app_assoc. }
  rewrite run_bind. unfold iter_content. rewrite run_bind. simpl.
  destruct (write_chunks p chunks σ2 "" Hs2) as (σ3 & -> & Ht3 & Hs3).
  simpl in Hs3. destruct broken as [detail|]; simpl.
  - (* the stream breaks after the chunks *)
    eexists false, _. split; [reflexivity|].
    eapply fetch_broken; simpl; [done..| |done].
    rewrite Ht3, Ht2. simpl. by rewrite <- !app_assoc.
  - eexists true, _. split; [reflexivity|].
    eapply fetch_complete; simpl; [done..| |done].
    rewrite Ht3, Ht2. simpl. by rewrite <- !app_assoc.
Qed.

End Helper.

(** ** What a footprint leaves alone *)

Lemma stays_run {A} F (m : prog A) σ r σ' :
  stays_within F m → m σ = (r, σ') → within F σ σ'.
Proof. intros Hm Hr. specialize (Hm σ). by rewrite Hr in Hm. Qed.

Lemma fs_evolves_unchanged W D t t' q :
  fs_evolves W D t t' → q ∉ W → (∀ p, p ∈ D → ¬ q `prefix_of` p) →
  FS.stat t' q = FS.stat t q.
Proof.
  intros H HW HD. destruct (FS.stat t q) as [[d|]|] eqn:Hq.
  - by apply (ev_file_keep _ _ _ _ H).
  - by apply (ev_dir_keep _ _ _ _ H).
  - destruct (FS.stat t' q) as [[d|]|] eqn:Hq'; [| |done].
    + apply (ev_file_back _ _ _ _ H) in Hq' as [?|?]; [congruence|done].
    + apply (ev_dir_back _ _ _ _ H) in Hq' as [?|(p & ? & ?)]; [congruence|].
      by destruct (HD p).
Qed.

Lemma fs_evolves_not_file W D t t' q :
  fs_evolves W D t t' → q ∉ W → ¬ FS.is_file t q → ¬ FS.is_file t' q.
Proof.
  intros H HW Hn [d Hd]. apply (ev_file_back _ _ _ _ H) in Hd as [?|?]; [|done].
  apply Hn. by exists d.
Qed.

Lemma fs_evolves_not_dir W D t t' q :
  fs_evolves W D t t' → (∀ p, p ∈ D → ¬ q `prefix_of` p) →
  ¬ FS.is_dir t q → ¬ FS.is_dir t' q.
Proof.
  intros H HD Hn Hd. apply (ev_dir_back _ _ _ _ H) in Hd as [?|(p & ? & ?)]; [done|].
  by destruct (HD p).
Qed.

Lemma can_open_in_dir t p :
  p ≠ [] → FS.is_dir t (parent p) → ¬ FS.is_dir t p → can_open t p.
Proof.
  intros Hp Hd Hnd. split; [done|]. split; [done|]. intros q Hq Hne [d Hf].
  apply prefix_parent in Hq; [|done..].
  destruct (decide (q = parent p)) as [->|Hne']; [unfold FS.is_dir in Hd; congruence|].
  rewrite (FSFacts.stat_prefix _ _ _ _ Hq Hd Hne') in Hf. done.
Qed.

(** ** Writing a text file *)

Lemma stays_save_metadata F p metadata :
  p ∈ fp_files F → parent p ∈ fp_dirs F → stays_within F (save_metadata p metadata).
Proof.
  intros Hp Hd. apply stays_bind; [by apply stays_ensure_directory|]. intros _.
  apply stays_bind; [by apply stays_open_w|]. intros _. by apply stays_fwrite.
Qed.

Lemma save_metadata_spec p metadata σ :
  (can_open (fs σ) p ∧
   ∃ σ', save_metadata p metadata σ = (Ok tt, σ') ∧
         trace σ' = trace σ ++ [EWrite p] ∧
         FS.stat (fs σ') p = Some (FS.EFile (Json.dumps metadata 2 true)) ∧
         fs_evolves [p] [parent p] (fs σ) (fs σ')) ∨
  (¬ can_open (fs σ) p ∧
   ∃ p', save_metadata p metadata σ = (Raised (OSError p'), σ)).
Proof.
  pose proof (stays_save_metadata (Footprint [] [p] [parent p]) p metadata) as Hw.
  specialize (Hw ltac:(simpl; set_solver) ltac:(simpl; set_solver) σ).
  revert Hw. unfold save_metadata. rewrite run_bind_assoc, run_bind.
  destruct (ensure_then_open p σ) as [(Hcan & σ1 & -> & Ht & Hs)|(Hcan & p' & ->)].
  - intros [_ Hev]. left. split; [done|]. eexists. split; [reflexivity|].
    simpl. split; [done|]. split; [|done].
    rewrite FSFacts.stat_append_file, decide_True by done. by rewrite Hs.
  - right. split; [done|]. by exists p'.
Qed.

(** [open(p, "w")] and one [f.write(text)], without [ensure_directory]. *)
Lemma write_text_spec p text σ :
  (p ≠ [] ∧ FS.is_dir (fs σ) (parent p) ∧ ¬ FS.is_dir (fs σ) p ∧
   ∃ σ', (open_w p;; fwrite p text) σ = (Ok tt, σ') ∧
         trace σ' = trace σ ++ [EWrite p] ∧
         FS.stat (fs σ') p = Some (FS.EFile text) ∧
         ∀ q, q ≠ p → FS.stat (fs σ') q = FS.stat (fs σ) q) ∨
  (¬ (p ≠ [] ∧ FS.is_dir (fs σ) (parent p) ∧ ¬ FS.is_dir (fs σ) p) ∧
   (open_w p;; fwrite p text) σ = (Raised (OSError p), σ)).
Proof.
  rewrite run_bind. unfold open_w.
  destruct (FS.write_file (fs σ) p "") as [t|] eqn:Hw.
  - left. assert (is_Some (FS.write_file (fs σ) p "")) as Hs by eauto.
    apply FSFacts.write_file_Some in Hs as (Hp & Hd & Hnd).
    do 3 (split; [done|]). eexists. split; [reflexivity|]. simpl.
    split; [done|]. split.
    + rewrite FSFacts.stat_append_file, decide_True by done.
      rewrite (FSFacts.stat_write_file _ _ _ _ p Hw). by rewrite decide_True.
    + intros q Hq. rewrite FSFacts.stat_append_file, decide_False by done.
      rewrite (FSFacts.stat_write_file _ _ _ _ q Hw). by rewrite decide_False.
  - right. split; [|done]. intros H. apply FSFacts.write_file_Some with (d := "") in H.
    destruct H as [? H]. congruence.
Qed.

(** ** The two image sources *)

Section Sidecar.
Variable net : list event → string → response.

Lemma download_worldview_sample_shape date :
  download_worldview_sample net date =
  fetch_with_sidecar net "worldview" (wms_url date)
    ("worldview_truecolor_" +:+ date +:+ ".png")
    ("worldview_truecolor_" +:+ date +:+ ".json")
    (worldview_metadata (wms_url date)).
Proof. reflexivity. Qed.

Lemma download_earth_observatory_sample_shape :
  download_earth_observatory_sample net =
  fetch_with_sidecar net "earth_observatory" earth_observatory_url
    "sample_earth_observatory.jpg" "sample_earth_observatory.json"
    (earth_observatory_metadata earth_observatory_url).
Proof. reflexivity. Qed.

Lemma stays_fetch_with_sidecar folder url data_name json_name metadata :
  stays_within (sidecar_footprint folder url data_name json_name)
    (fetch_with_sidecar net folder url data_name json_name metadata).
Proof.
  unfold fetch_with_sidecar.
  apply stays_bind; [apply stays_ensure_directory; simpl; set_solver|]. intros _.
  apply stays_bind.
  { apply stays_http_download; [simpl; set_solver..|].
    rewrite parent_child. simpl. set_solver. }
  intros [|]; [|apply stays_mret].
  apply stays_bind; [|intros; apply stays_mret].
  apply stays_save_metadata; [simpl; set_solver|].
  rewrite parent_child. simpl. set_solver.
Qed.

End Sidecar.

Lemma child_inj p a b : p // a = p // b → a = b.
Proof. unfold child. intros H. by apply app_inj_tail in H as [_ ?]. Qed.

Lemma child_not_prefix p a : ¬ (p // a) `prefix_of` p.
Proof. apply prefix_snoc_not. Qed.

Lemma child_ne_nil p a : p // a ≠ [].
Proof. unfold child. by destruct p. Qed.

Lemma prefix_of_data_folder (q : path) folder :
  q `prefix_of` DATA_DIR // folder → q = [] ∨ q = DATA_DIR ∨ q = DATA_DIR // folder.
Proof.
  unfold DATA_DIR, ROOT, child. simpl. intros [k Hk].
  destruct q as [|a [|b [|c q]]]; simplify_eq/=; auto.
Qed.

Lemma ensure_directory_spec p σ :
  (ensure_directory p σ = (Ok tt, σ) ∧ is_Some (FS.stat (fs σ) p)) ∨
  (FS.stat (fs σ) p = None ∧
   ∃ t, FS.mkdir_p (fs σ) p = Some t ∧
        ensure_directory p σ = (Ok tt, World t (trace σ)) ∧ FS.is_dir t p) ∨
  (FS.stat (fs σ) p = None ∧
   ensure_directory p σ = (Raised (OSError p), σ) ∧
   ∃ q, q `prefix_of` p ∧ FS.is_file (fs σ) q).
Proof.
  unfold ensure_directory. rewrite run_bind. unfold path_exists.
  destruct (FS.stat (fs σ) p) as [e|] eqn:Hp.
  - left. rewrite bool_decide_true by eauto. simpl. eauto.
  - right. rewrite bool_decide_false by (by intros [??]). simpl. unfold path_mkdir.
    destruct (FS.mkdir_p (fs σ) p) as [t|] eqn:Hm.
    + left. split; [done|]. exists t. split; [done|]. split; [done|].
      unfold FS.is_dir. rewrite (FSFacts.stat_mkdir_p _ _ _ _ Hm), Hp.
      by rewrite decide_True.
    + right. split; [done|]. split; [done|]. by apply FSFacts.mkdir_p_None.
Qed.

(** After [ensure_directory] on a folder of [DATA_DIR] the run goes on,
    unless [DATA_DIR] itself is a regular file. *)
Lemma ensure_data_folder folder σ :
  (ensure_directory (DATA_DIR // folder) σ = (Raised (OSError (DATA_DIR // folder)), σ) ∧
   FS.is_file (fs σ) DATA_DIR) ∨
  (¬ FS.is_file (fs σ) DATA_DIR ∧
   ∃ σ1, ensure_directory (DATA_DIR // folder) σ = (Ok tt, σ1) ∧
         trace σ1 = trace σ ∧
         is_Some (FS.stat (fs σ1) (DATA_DIR // folder)) ∧
         (¬ FS.is_file (fs σ) (DATA_DIR // folder) → FS.is_dir (fs σ1) (DATA_DIR // folder))).
Proof.
  destruct (ensure_directory_spec (DATA_DIR // folder) σ)
    as [[Hr Hs]|[(Hn & t & Hm & Hr & Hd)|(Hn & Hr & q & Hq & Hf)]].
  - right. split.
    + intros [d Hd]. destruct Hs as [e He].
      assert (FS.stat (fs σ) DATA_DIR = Some FS.EDir); [|congruence].
      eapply FSFacts.stat_snoc. apply He.
    + exists σ. do 3 (split; [done|]). intros Hnf.
      destruct Hs as [[d|] He]; [|done]. destruct Hnf. by exists d.
  - right. split.
    + intros Hf. assert (FS.mkdir_p (fs σ) (DATA_DIR // folder) = None); [|congruence].
      apply FSFacts.mkdir_p_None. exists DATA_DIR. split; [by exists [folder]|done].
    + eexists. split; [done|]. split; [done|]. split; [|done].
      unfold FS.is_dir in Hd. cbn [fs]. rewrite Hd. eauto.
  - left. split; [done|].
    apply prefix_of_data_folder in Hq as [-> | [-> | ->]]; [|done|].
    + by destruct Hf.
    + destruct Hf as [d Hf]. congruence.
Qed.

Section SidecarRuns.
Variable net : list event → string → response.

Lemma fetch_with_sidecar_run folder url data_name json_name metadata σ :
  data_name ≠ json_name →
  let out_dir := DATA_DIR // folder in
  let out_path := out_dir // data_name in
  let json := out_dir // json_name in
  let run := fetch_with_sidecar net folder url data_name json_name metadata σ in
  (run = (Raised (OSError out_dir), σ) ∧ FS.is_file (fs σ) DATA_DIR) ∨
  (¬ FS.is_file (fs σ) DATA_DIR ∧
   ∃ σ1 b σ2,
     ensure_directory out_dir σ = (Ok tt, σ1) ∧ trace σ1 = trace σ ∧
     FS.stat (fs σ1) json = FS.stat (fs σ) json ∧
     FS.stat (fs σ1) out_path = FS.stat (fs σ) out_path ∧
     fetch net url out_path timeout_seconds_default σ1 b σ2 ∧
     FS.stat (fs σ2) json = FS.stat (fs σ) json ∧
     ((b = false ∧ run = (Ok None, σ2)) ∨
      (b = true ∧ ¬ FS.is_dir (fs σ) json ∧
       ∃ σ3, run = (Ok (Some out_path), σ3) ∧
             trace σ3 = trace σ2 ++ [EWrite json] ∧
             FS.stat (fs σ3) json = Some (FS.EFile (Json.dumps metadata 2 true)) ∧
             FS.stat (fs σ3) out_path = FS.stat (fs σ2) out_path) ∨
      (b = true ∧ FS.is_dir (fs σ) json ∧
       ∃ p', run = (Raised (OSError p'), σ2)))).
Proof.
  intros Hne out_dir out_path json run.
  assert (json ≠ out_path) as Hjp.
  { intros H. apply child_inj in H. congruence. }
  assert (∀ p, p ∈ [out_dir] → ¬ json `prefix_of` p) as Hjd.
  { intros p ->%list_elem_of_singleton. apply child_not_prefix. }
  assert (∀ p, p ∈ [out_dir] → ¬ out_path `prefix_of` p) as Hpd.
  { intros p ->%list_elem_of_singleton. apply child_not_prefix. }
  subst run. unfold fetch_with_sidecar. fold out_dir out_path json. rewrite run_bind.
  destruct (ensure_data_folder folder σ) as [[Hr Hf]|(Hnf & σ1 & Hr & Ht1 & Hs1 & _)];
    fold out_dir in Hr; rewrite Hr; [by left|].
  right. split; [done|].
  assert (within (Footprint [] [] [out_dir]) σ σ1) as [_ Hev1].
  { eapply stays_run; [|exact Hr]. apply stays_ensure_directory. simpl. set_solver. }
  simpl in Hev1.
  destruct (http_download_fetch net url out_path timeout_seconds_default σ1)
    as (b & σ2 & Hd & Hfetch).
  assert (within (Footprint [url] [out_path] [out_dir]) σ1 σ2) as [_ Hev2].
  { eapply stays_run; [|exact Hd].
    apply stays_http_download; [simpl; set_solver..|].
    unfold out_path. rewrite parent_child. simpl. set_solver. }
  simpl in Hev2.
  assert (FS.stat (fs σ1) json = FS.stat (fs σ) json) as Hj1.
  { eapply fs_evolves_unchanged; [done| |done]. set_solver. }
  assert (FS.stat (fs σ2) json = FS.stat (fs σ) json) as Hj2.
  { rewrite <- Hj1. eapply fs_evolves_unchanged; [done| |done]. set_solver. }
  exists σ1, b, σ2. do 2 (split; [done|]). split; [done|]. split.
  { eapply fs_evolves_unchanged; [done| |done]. set_solver. }
  split; [done|]. split; [done|].
  rewrite run_bind, Hd. destruct b; [|by left]. right.
  rewrite run_bind.
  assert (FS.is_dir (fs σ2) out_dir) as Hdir.
  { inversion Hfetch as [? ? ? ? ? ? ? Hs| |]; subst.
    eapply FSFacts.stat_snoc. apply Hs. }
  destruct (save_metadata_spec json metadata σ2)
    as [(Hcan & σ3 & -> & Ht3 & Hs3 & Hev3)|(Hcan & p' & ->)].
  - left. split; [done|]. split.
    { destruct Hcan as (_ & Hnd & _). unfold FS.is_dir in *. congruence. }
    exists σ3. do 3 (split; [done|]).
    unfold json in Hev3. rewrite parent_child in Hev3. fold json in Hev3.
    eapply fs_evolves_unchanged; [done| |done]. set_solver.
  - right. split; [done|]. split; [|by exists p'].
    unfold FS.is_dir. rewrite <- Hj2.
    destruct (decide (FS.stat (fs σ2) json = Some FS.EDir)) as [|Hnd]; [done|].
    destruct Hcan. apply can_open_in_dir; [apply child_ne_nil| |done].
    unfold json. by rewrite parent_child.
Qed.

End SidecarRuns.

(** ** Reading a trace *)

Lemma allowed_written F τ : Forall (allowed F) τ → Forall (λ p, p ∈ fp_files F) (written τ).
Proof.
  induction 1 as [|e τ He _ IH]; [constructor|].
  destruct e; simpl in *; try done. by constructor.
Qed.

Lemma allowed_requested F τ : Forall (allowed F) τ → Forall (λ u, u ∈ fp_urls F) (requested τ).
Proof.
  induction 1 as [|e τ He _ IH]; [constructor|].
  destruct e; simpl in *; try done. by constructor.
Qed.

Lemma allowed_no_driver_events F τ :
  Forall (allowed F) τ → calls τ = [] ∧ returns τ = [] ∧ counter_values τ = [].
Proof.
  induction 1 as [|e τ He _ IH]; [done|]. by destruct e.
Qed.

(** ** The CSV source *)

Section Wri.
Variable net : list event → string → response.

Lemma fetch_emitted url p timeout σ b σ' :
  fetch net url p timeout σ b σ' →
  ∃ τ, trace σ' = trace σ ++ τ ∧ requested τ = [url] ∧
       Forall (λ q, q = p) (written τ) ∧
       (b = false ↔ ∃ e, last τ = Some (EPrint (diagnostic url e))).
Proof.
  intros [st chunks σ2 _ _ _ Ht _|st chunks detail σ2 _ _ _ Ht _|e σ2 _ _ Ht];
    eexists; (split; [exact Ht|]); simpl; (split; [done|]).
  - split; [by repeat constructor|]. split; [done|]. by intros [? ?].
  - split; [by repeat constructor|]. split; [by eexists|done].
  - split; [constructor|]. split; [by eexists|done].
Qed.

Lemma attempts_emitted urls σ bs σ1 :
  attempts net urls σ bs σ1 →
  ∃ τ, trace σ1 = trace σ ++ τ ∧ requested τ = urls ∧
       Forall (λ q, q = wri_csv) (written τ).
Proof.
  induction 1 as [σ|url urls σ b σ1 bs σ2 Hd _ (τ2 & Ht2 & Hr2 & Hw2)].
  - exists []. by rewrite app_nil_r.
  - destruct (http_download_fetch net url wri_csv timeout_seconds_default σ)
      as (b' & σ1' & Hd' & Hf).
    rewrite Hd in Hd'. injection Hd' as <- <-.
    apply fetch_emitted in Hf as (τ1 & Ht1 & Hr1 & Hw1 & _).
    exists (τ1 ++ τ2). rewrite Ht2, Ht1, app_assoc. split; [done|].
    unfold requested, written in *. rewrite !omap_app, Hr1, Hr2.
    split; [done|]. by apply Forall_app.
Qed.

Lemma attempts_evolves urls σ bs σ1 :
  attempts net urls σ bs σ1 → fs_evolves [wri_csv] [wri_dir] (fs σ) (fs σ1).
Proof.
  induction 1 as [σ|url urls σ b σ1 bs σ2 Hd _ IH]; [apply fs_evolves_refl|].
  eapply fs_evolves_trans; [|exact IH].
  assert (within (Footprint [url] [wri_csv] [wri_dir]) σ σ1) as [_ H]; [|done].
  eapply stays_run; [|exact Hd].
  apply stays_http_download; simpl; set_solver.
Qed.

Lemma attempts_length urls σ bs σ1 : attempts net urls σ bs σ1 → length bs = length urls.
Proof. induction 1; simpl; congruence. Qed.

(** The loop stops at the first candidate the helper fetched, and runs
    to the end of the list when there is none. *)
Lemma try_candidates_run urls σ :
  ∃ k bs σ1,
    attempts net (take k urls) σ bs σ1 ∧
    ((k = length urls ∧ bs = replicate k false ∧
      try_candidates net wri_dir urls σ = (Ok None, σ1)) ∨
     (∃ j url, k = S j ∧ urls !! j = Some url ∧ bs = replicate j false ++ [true] ∧
        try_candidates net wri_dir urls σ =
          (save_metadata wri_json (wri_metadata url);; mret (Some wri_csv)) σ1)).
Proof.
  revert σ. induction urls as [|url urls IH]; intros σ.
  - exists 0, [], σ. split; [constructor|]. by left.
  - destruct (http_download_fetch net url wri_csv timeout_seconds_default σ)
      as (b & σ1 & Hd & _).
    destruct b.
    + exists 1, [true], σ1. split.
      * simpl. rewrite take_0. econstructor; [done|constructor].
      * right. exists 0, url. do 3 (split; [done|]).
        simpl. fold wri_csv. by rewrite run_bind, Hd.
    + destruct (IH σ1) as (k & bs & σ2 & Hat & Hcase).
      exists (S k), (false :: bs), σ2. split; [by econstructor|].
      assert (try_candidates net wri_dir (url :: urls) σ = try_candidates net wri_dir urls σ1) as ->.
      { simpl. fold wri_csv. by rewrite run_bind, Hd. }
      destruct Hcase as [(-> & -> & Hr)|(j & url' & -> & Hl & -> & Hr)].
      * by left.
      * right. by exists (S j), url'.
Qed.

Lemma stays_try_candidates urls :
  stays_within (wri_footprint urls) (try_candidates net wri_dir urls).
Proof.
  assert (∀ us, us ⊆ urls →
    stays_within (wri_footprint urls) (try_candidates net wri_dir us)) as H;
    [|by apply H].
  induction us as [|url us IH]; intros Hsub; simpl; [apply stays_mret|].
  apply stays_bind.
  { apply stays_http_download; simpl; set_solver. }
  intros [|]; [|apply IH; set_solver].
  apply stays_bind; [|intros; apply stays_mret].
  apply stays_save_metadata; simpl; set_solver.
Qed.

Lemma stays_download_wri_sample_from urls :
  stays_within (wri_footprint urls) (download_wri_sample_from net urls).
Proof.
  unfold download_wri_sample_from.
  apply stays_bind; [apply stays_ensure_directory; simpl; set_solver|]. intros _.
  apply stays_bind; [apply stays_try_candidates|].
  intros [p|]; [apply stays_mret|].
  apply stays_bind; [apply stays_open_w; simpl; set_solver|]. intros _.
  apply stays_bind; [apply stays_fwrite; simpl; set_solver|]. intros _.
  apply stays_mret.
Qed.

End Wri.

Section WriRuns.
Variable net : list event → string → response.

Lemma attempts_last_true urls σ bs σ1 :
  attempts net urls σ bs σ1 → last bs = Some true → FS.is_file (fs σ1) wri_csv.
Proof.
  induction 1 as [σ|url urls σ b σ1 bs σ2 Hd Hat IH]; [done|].
  destruct bs as [|b' bs].
  - simpl. intros [= ->]. inversion Hat; subst.
    destruct (http_download_fetch net url wri_csv timeout_seconds_default σ)
      as (b' & σ1' & Hd' & Hf).
    rewrite Hd in Hd'. injection Hd' as <- <-.
    inversion Hf as [? ? ? ? ? ? ? Hs| |]; subst. by eexists.
  - intros Hl. by apply IH.
Qed.

Lemma download_wri_sample_from_run urls σ :
  wri_ready (fs σ) →
  ∃ σ0 k bs σ1 r σ' τ,
    ensure_directory wri_dir σ = (Ok tt, σ0) ∧ trace σ0 = trace σ ∧
    attempts net (take k urls) σ0 bs σ1 ∧
    download_wri_sample_from net urls σ = (Ok r, σ') ∧
    trace σ' = trace σ ++ τ ∧ requested τ = take k urls ∧
    ((∃ j url, k = S j ∧ urls !! j = Some url ∧ bs = replicate j false ++ [true] ∧
        r = Some wri_csv ∧ (wri_readme ∉ written τ) ∧
        FS.stat (fs σ') wri_readme = FS.stat (fs σ) wri_readme ∧
        FS.stat (fs σ') wri_json =
          Some (FS.EFile (Json.dumps (wri_metadata url) 2 true)) ∧
        FS.is_file (fs σ') wri_csv) ∨
     (k = length urls ∧ bs = replicate k false ∧ r = None ∧
        last (written τ) = Some wri_readme ∧
        FS.stat (fs σ') wri_readme = Some (FS.EFile wri_instructions) ∧
        FS.stat (fs σ') wri_json = FS.stat (fs σ) wri_json)).
Proof.
  intros (Hdata & Hdir & Hjson & Hreadme).
  assert (∀ p, p ∈ [wri_dir] → ¬ wri_json `prefix_of` p) as Hjd.
  { intros p ->%list_elem_of_singleton. apply child_not_prefix. }
  assert (∀ p, p ∈ [wri_dir] → ¬ wri_readme `prefix_of` p) as Hrd.
  { intros p ->%list_elem_of_singleton. apply child_not_prefix. }
  destruct (ensure_data_folder "wri" σ) as [[_ ?]|(_ & σ0 & Hr0 & Ht0 & _ & Hd0)]; [done|].
  fold wri_dir in Hr0, Hd0. specialize (Hd0 Hdir).
  assert (within (Footprint [] [] [wri_dir]) σ σ0) as [_ Hev0].
  { eapply stays_run; [|exact Hr0]. apply stays_ensure_directory. simpl. set_solver. }
  simpl in Hev0.
  destruct (try_candidates_run net urls σ0) as (k & bs & σ1 & Hat & Hcase).
  pose proof (attempts_evolves _ _ _ _ _ Hat) as Hev1.
  destruct (attempts_emitted _ _ _ _ _ Hat) as (τ1 & Ht1 & Hreq1 & Hw1).
  assert (FS.is_dir (fs σ1) wri_dir) as Hd1 by (by apply (ev_dir_keep _ _ _ _ Hev1)).
  assert (FS.stat (fs σ1) wri_json = FS.stat (fs σ) wri_json) as Hj1.
  { etrans; [eapply fs_evolves_unchanged; [exact Hev1| |done]; set_solver|].
    eapply fs_evolves_unchanged; [done| |done]. set_solver. }
  assert (FS.stat (fs σ1) wri_readme = FS.stat (fs σ) wri_readme) as Hr1.
  { etrans; [eapply fs_evolves_unchanged; [exact Hev1| |done]; set_solver|].
    eapply fs_evolves_unchanged; [done| |done]. set_solver. }
  exists σ0, k, bs, σ1.
  unfold download_wri_sample_from. fold wri_dir wri_readme.
  rewrite run_bind, Hr0, run_bind.
  destruct Hcase as [(-> & -> & ->)|(j & url & -> & Hl & -> & ->)].
  - (* every candidate failed *)
    destruct (write_text_spec wri_readme wri_instructions σ1)
      as [(_ & _ & _ & σ' & Hrun & Ht & Hs & Hframe)|[Hno _]].
    2:{ destruct Hno. split; [apply child_ne_nil|].
        unfold wri_readme at 1. rewrite parent_child. split; [done|].
        unfold FS.is_dir in *. congruence. }
    exists None, σ', (τ1 ++ [EWrite wri_readme]).
    do 3 (split; [done|]). split.
    { rewrite (run_bind_assoc (open_w wri_readme)
                 (λ _, fwrite wri_readme wri_instructions) (λ _, mret None)).
      by rewrite run_bind, Hrun. }
    split; [by rewrite Ht, Ht1, Ht0, app_assoc|].
    split.
    { unfold requested in *. rewrite omap_app, Hreq1. simpl. by rewrite app_nil_r. }
    right. do 3 (split; [done|]). split.
    { unfold written. rewrite omap_app. simpl. by rewrite last_snoc. }
    split; [done|]. rewrite <- Hj1. apply Hframe. intros H. by apply child_inj in H.
  - (* a candidate was fetched *)
    rewrite run_bind.
    destruct (save_metadata_spec wri_json (wri_metadata url) σ1)
      as [(_ & σ' & -> & Ht & Hs & Hev)|[Hno _]].
    2:{ destruct Hno. apply can_open_in_dir; [apply child_ne_nil| |].
        - unfold wri_json. by rewrite parent_child.
        - unfold FS.is_dir in *. congruence. }
    unfold wri_json in Hev at 2. rewrite parent_child in Hev.
    exists (Some wri_csv), σ', (τ1 ++ [EWrite wri_json]).
    do 3 (split; [done|]). split; [done|].
    split; [by rewrite Ht, Ht1, Ht0, app_assoc|].
    split.
    { unfold requested in *. rewrite omap_app, Hreq1. simpl. by rewrite app_nil_r. }
    left. exists j, url. do 4 (split; [done|]). split.
    { unfold written in *. rewrite omap_app. simpl.
      rewrite elem_of_app, list_elem_of_singleton. intros [Hin|Heq].
      - rewrite Forall_forall in Hw1. apply Hw1 in Hin. by apply child_inj in Hin.
      - by apply child_inj in Heq. }
    split.
    { rewrite <- Hr1. eapply fs_evolves_unchanged; [done| |done].
      rewrite list_elem_of_singleton. intros H. by apply child_inj in H. }
    split; [done|].
    apply (ev_file_stay _ _ _ _ Hev). eapply attempts_last_true; [done|].
    by rewrite last_snoc.
Qed.

End WriRuns.

(** ** The placeholder writer *)

Lemma stays_write_placeholder folder text :
  stays_within (placeholder_footprint folder) (write_placeholder (folder, text)).
Proof.
  unfold write_placeholder.
  apply stays_bind; [apply stays_ensure_directory; simpl; set_solver|]. intros _.
  apply stays_bind; [apply stays_path_exists|].
  intros []; simpl; [apply stays_mret|].
  apply stays_bind; [apply stays_open_w; simpl; set_solver|]. intros _.
  apply stays_fwrite. simpl. set_solver.
Qed.

(** One turn of the loop: the instructions file is there and nothing
    happens, or it is missing and is written, or it is missing and cannot
    be written, which leaves everything as it was. *)
Lemma write_placeholder_run folder text σ :
  let readme := placeholder_readme folder in
  let run := write_placeholder (folder, text) σ in
  (is_Some (FS.stat (fs σ) readme) ∧ run = (Ok tt, σ)) ∨
  (FS.stat (fs σ) readme = None ∧
   ¬ FS.is_file (fs σ) DATA_DIR ∧ ¬ FS.is_file (fs σ) (DATA_DIR // folder) ∧
   ∃ σ', run = (Ok tt, σ') ∧ trace σ' = trace σ ++ [EWrite readme] ∧
         FS.stat (fs σ') readme = Some (FS.EFile text)) ∨
  (FS.stat (fs σ) readme = None ∧
   (FS.is_file (fs σ) DATA_DIR ∨ FS.is_file (fs σ) (DATA_DIR // folder)) ∧
   ∃ p, run = (Raised (OSError p), σ)).
Proof.
  intros readme run. subst run. unfold write_placeholder.
  fold (placeholder_readme folder). fold readme.
  assert (parent readme = DATA_DIR // folder) as Hpar by apply parent_child.
  assert (readme ≠ []) as Hne by apply child_ne_nil.
  rewrite run_bind.
  destruct (ensure_directory_spec (DATA_DIR // folder) σ)
    as [[-> Hs]|[(Hn & t & Hm & -> & Hd)|(Hn & -> & q & Hq & Hf)]].
  - (* the folder exists *)
    rewrite run_bind. unfold path_exists.
    destruct (FS.stat (fs σ) readme) as [e|] eqn:Hr.
    { left. rewrite bool_decide_true by eauto. simpl. eauto. }
    right. rewrite bool_decide_false by (by intros [??]). simpl.
    assert (¬ FS.is_file (fs σ) DATA_DIR) as Hdata.
    { intros [d Hd]. destruct Hs as [e He]. apply FSFacts.stat_snoc in He. congruence. }
    destruct (write_text_spec readme text σ)
      as [(_ & Hd & _ & σ' & -> & Ht & Hs' & _)|[Hno ->]].
    + left. split; [done|]. split; [done|]. split.
      { rewrite Hpar in Hd. intros [d ?]. unfold FS.is_dir in Hd. congruence. }
      by exists σ'.
    + right. split; [done|]. split; [|by eexists].
      right. destruct Hs as [[d|] He]; [by exists d|].
      destruct Hno. rewrite Hpar. split; [done|]. split; [done|].
      unfold FS.is_dir. congruence.
  - (* the folder is created *)
    right. left.
    assert (FS.stat (fs σ) readme = None) as Hr.
    { destruct (FS.stat (fs σ) readme) eqn:Hs; [|done].
      apply FSFacts.stat_snoc in Hs. congruence. }
    split; [done|]. split.
    { intros Hf. assert (FS.mkdir_p (fs σ) (DATA_DIR // folder) = None); [|congruence].
      apply FSFacts.mkdir_p_None. exists DATA_DIR. split; [by exists [folder]|done]. }
    split; [intros [d ?]; congruence|].
    rewrite run_bind. unfold path_exists. cbn [fs].
    assert (FS.stat t readme = None) as Hr'.
    { rewrite (FSFacts.stat_mkdir_p _ _ _ _ Hm), Hr. rewrite decide_False; [done|].
      apply child_not_prefix. }
    rewrite Hr'. rewrite bool_decide_false by (by intros [??]). simpl.
    destruct (write_text_spec readme text (World t (trace σ)))
      as [(_ & _ & _ & σ' & -> & Ht & Hs' & _)|[Hno _]].
    + by exists σ'.
    + destruct Hno. rewrite Hpar. cbn [fs]. split; [done|]. split; [done|].
      unfold FS.is_dir. congruence.
  - (* the folder cannot be created *)
    right. right.
    assert (FS.stat (fs σ) readme = None) as Hr.
    { destruct (FS.stat (fs σ) readme) eqn:Hs; [|done].
      apply FSFacts.stat_snoc in Hs. congruence. }
    split; [done|]. split; [|by eexists].
    apply prefix_of_data_folder in Hq as [-> | [-> | ->]]; [by destruct Hf|by left|by right].
Qed.

Lemma write_placeholder_raised item σ e σ' :
  write_placeholder item σ = (Raised e, σ') → σ' = σ.
Proof.
  destruct item as [folder text]. intros Hr.
  destruct (write_placeholder_run folder text σ)
    as [[_ H]|[(_ & _ & _ & σ2 & H & _)|(_ & _ & p & H)]]; congruence.
Qed.

Lemma write_placeholder_done item σ σ' :
  write_placeholder item σ = (Ok tt, σ') →
  is_Some (FS.stat (fs σ') (placeholder_readme item.1)).
Proof.
  destruct item as [folder text]. intros Hr.
  destruct (write_placeholder_run folder text σ)
    as [[Hs H]|[(_ & _ & _ & σ2 & H & _ & Hs)|(_ & _ & p & H)]].
  - rewrite Hr in H. by injection H as <-.
  - rewrite Hr in H. injection H as <-. cbn [fst]. eauto.
  - congruence.
Qed.

Lemma write_placeholder_present item σ :
  is_Some (FS.stat (fs σ) (placeholder_readme item.1)) →
  write_placeholder item σ = (Ok tt, σ).
Proof.
  destruct item as [folder text]. cbn [fst]. intros [e He].
  destruct (write_placeholder_run folder text σ)
    as [[_ H]|[(Hn & _)|(Hn & _)]]; [done|congruence..].
Qed.

Lemma within_exists F σ σ' q :
  within F σ σ' → is_Some (FS.stat (fs σ) q) → is_Some (FS.stat (fs σ') q).
Proof.
  intros [_ H] [[d|] Hq].
  - destruct (ev_file_stay _ _ _ _ H q) as [d' Hd']; [by exists d|]. eauto.
  - rewrite (ev_dir_keep _ _ _ _ H q Hq). eauto.
Qed.

Lemma placeholder_readme_inj f g : placeholder_readme f = placeholder_readme g → f = g.
Proof.
  unfold placeholder_readme, child. intros H.
  apply app_inj_tail in H as [H _]. by apply app_inj_tail in H as [_ ?].
Qed.

Lemma placeholder_readme_not_prefix f g :
  ¬ placeholder_readme f `prefix_of` DATA_DIR // g.
Proof. intros H%prefix_length. simpl in H. lia. Qed.

Lemma placeholder_readme_not_folder f g : DATA_DIR // g ≠ placeholder_readme f.
Proof. intros H%(f_equal length). simpl in H. lia. Qed.

Lemma placeholder_readme_not_data f : DATA_DIR ≠ placeholder_readme f.
Proof. intros H%(f_equal length). simpl in H. lia. Qed.

(** The state after a turn of the loop that wrote nothing is the state
    before it. *)
Lemma write_placeholder_evolves folder text σ r σ' :
  write_placeholder (folder, text) σ = (r, σ') →
  fs_evolves [placeholder_readme folder] [DATA_DIR // folder] (fs σ) (fs σ').
Proof.
  intros Hr. pose proof (stays_write_placeholder folder text σ) as [_ H].
  by rewrite Hr in H.
Qed.

Lemma placeholders_exists items σ r σ1 q :
  for_each items write_placeholder σ = (r, σ1) →
  is_Some (FS.stat (fs σ) q) → is_Some (FS.stat (fs σ1) q).
Proof.
  revert σ. induction items as [|[g t] items IH]; intros σ.
  - by intros [= _ <-].
  - rewrite run_for_each_cons.
    destruct (write_placeholder (g, t) σ) as [[[]|e] σa] eqn:Hg.
    + intros Hrest Hs. eapply IH; [exact Hrest|].
      eapply within_exists; [|exact Hs].
      eapply stays_run; [apply stays_write_placeholder|exact Hg].
    + intros [= _ <-] Hs. apply write_placeholder_raised in Hg. by subst.
Qed.

(** Running the loop again from where it stopped does the same and
    changes nothing. *)
Lemma placeholders_again items σ r σ1 :
  for_each items write_placeholder σ = (r, σ1) →
  for_each items write_placeholder σ1 = (r, σ1).
Proof.
  revert σ. induction items as [|[folder text] items IH]; intros σ.
  - by intros [= <- <-].
  - rewrite !run_for_each_cons.
    destruct (write_placeholder (folder, text) σ) as [[[]|e] σa] eqn:Hstep.
    + intros Hrest.
      assert (is_Some (FS.stat (fs σ1) (placeholder_readme folder))) as Hs.
      { apply write_placeholder_done in Hstep. by eapply placeholders_exists. }
      rewrite (write_placeholder_present (folder, text) σ1 Hs). by eapply IH.
    + intros [= <- <-]. pose proof (write_placeholder_raised _ _ _ _ Hstep) as ->.
      by rewrite Hstep.
Qed.

(** An instructions file that is there is never touched. *)
Lemma placeholders_keep items folder σ r σ1 :
  is_Some (FS.stat (fs σ) (placeholder_readme folder)) →
  for_each items write_placeholder σ = (r, σ1) →
  FS.stat (fs σ1) (placeholder_readme folder) = FS.stat (fs σ) (placeholder_readme folder).
Proof.
  revert σ. induction items as [|[g text] items IH]; intros σ Hs.
  - by intros [= _ <-].
  - rewrite run_for_each_cons.
    destruct (write_placeholder_run g text σ)
      as [[_ Hr]|[(Hn & _ & _ & σ' & Hr & _)|(_ & _ & p & Hr)]]; rewrite Hr.
    + by apply IH.
    + intros Hrest.
      assert (FS.stat (fs σ') (placeholder_readme folder)
              = FS.stat (fs σ) (placeholder_readme folder)) as Heq.
      { eapply fs_evolves_unchanged; [by eapply write_placeholder_evolves| |].
        - rewrite list_elem_of_singleton. intros H%placeholder_readme_inj. subst.
          destruct Hs. congruence.
        - intros p ->%list_elem_of_singleton. apply placeholder_readme_not_prefix. }
      rewrite <- Heq. apply IH; [|done]. by rewrite Heq.
    + by intros [= _ <-].
Qed.

(** The loop requests nothing and writes only instructions files that
    were missing when it started. *)
Lemma placeholders_emitted items σ r σ1 :
  for_each items write_placeholder σ = (r, σ1) →
  ∃ τ, trace σ1 = trace σ ++ τ ∧ requested τ = [] ∧ printed τ = [] ∧
       Forall (λ p, FS.stat (fs σ) p = None ∧
                    ∃ folder, folder ∈ items.*1 ∧ p = placeholder_readme folder)
              (written τ).
Proof.
  revert σ. induction items as [|[g text] items IH]; intros σ.
  - intros [= _ <-]. exists []. by rewrite app_nil_r.
  - rewrite run_for_each_cons.
    destruct (write_placeholder_run g text σ)
      as [[_ Hr]|[(Hn & _ & _ & σ' & Hr & Ht & _)|(_ & _ & p & Hr)]]; rewrite Hr.
    + intros (τ & Ht & Hq & Hp & Hw)%IH. exists τ. do 3 (split; [done|]).
      eapply Forall_impl; [done|]. intros p (? & f & ? & ?). split; [done|].
      exists f. split; [by right|done].
    + intros Hrest. destruct (IH _ Hrest) as (τ & Ht' & Hq & Hp & Hw).
      exists (EWrite (placeholder_readme g) :: τ).
      rewrite Ht', Ht, <- app_assoc. split; [done|]. do 2 (split; [done|]).
      simpl. constructor.
      * split; [done|]. exists g. split; [by left|done].
      * eapply Forall_impl; [done|]. intros p (Hnone & f & ? & ->). split.
        -- destruct (FS.stat (fs σ) (placeholder_readme f)) eqn:Hs; [|done].
           assert (is_Some (FS.stat (fs σ') (placeholder_readme f))) as [??]; [|congruence].
           eapply within_exists; [|by eauto].
           eapply stays_run; [apply stays_write_placeholder|done].
        -- exists f. split; [by right|done].
    + intros [= _ <-]. exists []. by rewrite app_nil_r.
Qed.

(** When the loop completes, every instructions file is there, and one
    that was missing holds the text of its provider. *)
Lemma placeholders_complete items σ σ1 :
  NoDup items.*1 →
  for_each items write_placeholder σ = (Ok tt, σ1) →
  ∀ folder text, (folder, text) ∈ items →
    match FS.stat (fs σ) (placeholder_readme folder) with
    | Some e => FS.stat (fs σ1) (placeholder_readme folder) = Some e
    | None => FS.stat (fs σ1) (placeholder_readme folder) = Some (FS.EFile text)
    end.
Proof.
  revert σ. induction items as [|[g t] items IH]; intros σ Hnd.
  - intros _ folder text H. by apply elem_of_nil in H.
  - rewrite fmap_cons in Hnd. apply NoDup_cons in Hnd as [Hg Hnd].
    rewrite run_for_each_cons.
    destruct (write_placeholder (g, t) σ) as [[[]|e] σa] eqn:Hstep; [|done].
    intros Hrest folder text Hin.
    destruct (FS.stat (fs σ) (placeholder_readme folder)) as [e|] eqn:Hs.
    { rewrite <- Hs. eapply (placeholders_keep ((g, t) :: items)); [by rewrite Hs|].
      by rewrite run_for_each_cons, Hstep. }
    apply elem_of_cons in Hin as [[= -> ->]|Hin].
    + destruct (write_placeholder_run g t σ)
        as [[[??] _]|[(_ & _ & _ & σ' & Hr & _ & Hw)|(_ & _ & p & Hr)]]; [congruence| |congruence].
      rewrite Hstep in Hr. injection Hr as <-.
      rewrite <- Hw. eapply placeholders_keep; [by rewrite Hw|done].
    + assert (folder ≠ g) as Hne.
      { intros ->. apply Hg. apply list_elem_of_fmap. by exists (g, text). }
      specialize (IH σa Hnd Hrest folder text Hin).
      assert (FS.stat (fs σa) (placeholder_readme folder) = None) as Hs'.
      { rewrite <- Hs. eapply fs_evolves_unchanged; [by eapply write_placeholder_evolves| |].
        - rewrite list_elem_of_singleton. by intros H%placeholder_readme_inj.
        - intros p ->%list_elem_of_singleton. apply placeholder_readme_not_prefix. }
      by rewrite Hs' in IH.
Qed.

(** The loop completes when neither [DATA_DIR] nor a provider folder is a
    regular file. *)
Lemma placeholders_total items σ :
  ¬ FS.is_file (fs σ) DATA_DIR →
  Forall (λ folder, ¬ FS.is_file (fs σ) (DATA_DIR // folder)) items.*1 →
  ∃ σ1, for_each items write_placeholder σ = (Ok tt, σ1).
Proof.
  revert σ. induction items as [|[g t] items IH]; intros σ Hdata Hf.
  - by eexists.
  - rewrite fmap_cons in Hf. apply Forall_cons in Hf as [Hg Hf].
    rewrite run_for_each_cons.
    destruct (write_placeholder (g, t) σ) as [[[]|e] σa] eqn:Hstep.
    + pose proof (write_placeholder_evolves _ _ _ _ _ Hstep) as Hev.
      apply IH.
      * eapply fs_evolves_not_file; [done| |done].
        rewrite list_elem_of_singleton. apply placeholder_readme_not_data.
      * eapply Forall_impl; [done|]. intros f Hnf. simpl in Hnf.
        eapply fs_evolves_not_file; [done| |done].
        rewrite list_elem_of_singleton. apply placeholder_readme_not_folder.
    + destruct (write_placeholder_run g t σ)
        as [[_ Hr]|[(_ & _ & _ & σ' & Hr & _)|(_ & [?|?] & _)]];
        [congruence|congruence|done|by destruct Hg].
Qed.

(** ** The driver, block by block *)

Section Driver.
Variable net : list event → string → response.

Lemma stage_bind {B} f body ok_line skip_line successes (k : Z → prog B) σ :
  (stage f body ok_line skip_line successes ≫= k) σ =
  (r ← call f body;
   (if truthy r then
      successes ← set_successes (successes + 1);
      print ok_line;; mret successes
    else
      print skip_line;; mret successes) ≫= k) σ.
Proof. unfold stage. symmetry. apply run_bind_assoc. Qed.

Lemma main_stages σ :
  main net σ =
  (print "Downloading sample datasets...";;
   successes ← set_successes 0;
   successes ← stage "download_worldview_sample" (download_worldview_sample net date_default)
     "- Worldview sample downloaded" "- Worldview sample skipped (download failed)" successes;
   successes ← stage "download_earth_observatory_sample" (download_earth_observatory_sample net)
     "- Earth Observatory sample downloaded"
     "- Earth Observatory sample skipped (download failed)" successes;
   successes ← stage "download_wri_sample" (download_wri_sample net)
     "- WRI sample downloaded"
     "- WRI sample skipped (no direct small CSV found; added instructions)" successes;
   call "write_placeholders_for_sedac_worldpop_ghsl_copernicus_eotoolkit"
     (write_placeholders_for_sedac_worldpop_ghsl_copernicus_eotoolkit;; mret None);;
   print "- Placeholders written for SEDAC, WorldPop, GHSL, Copernicus, and EO Toolkit";;
   print (completed_line successes);;
   mret 0%Z) σ.
Proof.
  unfold main.
  apply run_bind_ext; intros _ σ1. apply run_bind_ext; intros s0 σ2.
  rewrite stage_bind.
  apply run_bind_ext; intros r1 σ3. apply run_bind_ext; intros s1 σ4.
  rewrite stage_bind.
  apply run_bind_ext; intros r2 σ5. apply run_bind_ext; intros s2 σ6.
  rewrite stage_bind.
  apply run_bind_ext; intros r3 σ7. reflexivity.
Qed.

Lemma stage_run f body ok_line skip_line successes σ :
  stage f body ok_line skip_line successes σ =
  stage_end f ok_line skip_line successes (body (after_call f σ)).1 (body (after_call f σ)).2.
Proof.
  unfold stage, call. rewrite !run_bind. simpl. fold (after_call f σ).
  rewrite run_bind.
  destruct (body (after_call f σ)) as [[[p|]|e] σb]; simpl; [| |done].
  - rewrite run_bind, run_set_successes, run_bind, run_print, run_mret. simpl.
    by rewrite <- !app_assoc.
  - rewrite run_bind, run_print, run_mret. simpl. by rewrite <- !app_assoc.
Qed.

End Driver.

Lemma stays_weaken {A} F F' (m : prog A) :
  fp_le F F' → stays_within F m → stays_within F' m.
Proof. intros HF Hm σ. eapply within_weaken; [done|apply Hm]. Qed.

Lemma stays_for_each_in {A} F (l : list A) body :
  (∀ x, x ∈ l → stays_within F (body x)) → stays_within F (for_each l body).
Proof.
  induction l as [|x l IH]; intros Hb; simpl; [apply stays_mret|].
  apply stays_bind; [apply Hb; by left|]. intros _. apply IH.
  intros y Hy. apply Hb. by right.
Qed.

Lemma stays_for_each_placeholders items :
  stays_within (placeholders_footprint items) (for_each items write_placeholder).
Proof.
  apply stays_for_each_in. intros [f text] Hin.
  eapply stays_weaken; [|apply stays_write_placeholder].
  assert (f ∈ items.*1) as Hf by (apply list_elem_of_fmap; by exists (f, text)).
  split; [done|]. split; simpl.
  - intros p ->%list_elem_of_singleton. by apply list_elem_of_fmap_2.
  - intros p ->%list_elem_of_singleton.
    by apply (list_elem_of_fmap_2 (λ f, DATA_DIR // f)).
Qed.

Section DriverRuns.
Variable net : list event → string → response.

Lemma stage_then {B} F f body ok_line skip_line successes (k : Z → prog B) σ :
  stays_within F body →
  ∃ τ o σb,
    body (after_call f σ) = (o, σb) ∧
    Forall (allowed F) τ ∧
    fs_evolves (fp_files F) (fp_dirs F) (fs σ) (fs σb) ∧
    (stage f body ok_line skip_line successes ≫= k) σ =
      match o with
      | Raised e =>
          (Raised e, World (fs σb)
                       (trace σ ++ stage_trace f ok_line skip_line successes τ o))
      | Ok _ =>
          k (stage_count successes o)
            (World (fs σb) (trace σ ++ stage_trace f ok_line skip_line successes τ o))
      end.
Proof.
  intros Hstay. rewrite run_bind, stage_run.
  destruct (Hstay (after_call f σ)) as [(τ & Ht & Hτ) Hev].
  destruct (body (after_call f σ)) as [o σb] eqn:Hb. simpl in *.
  exists τ, o, σb. do 3 (split; [done|]).
  destruct o as [[p|]|e]; simpl.
  - do 2 f_equal. unfold stage_trace. rewrite Ht, <- !app_assoc. done.
  - do 2 f_equal. unfold stage_trace. rewrite Ht, <- !app_assoc. done.
  - destruct σb as [t tr]. simpl in *. unfold stage_trace.
    rewrite Ht, <- app_assoc. simpl. by rewrite app_nil_r.
Qed.

Lemma calls_stage_trace F f ok_line skip_line s τ o :
  Forall (allowed F) τ → calls (stage_trace f ok_line skip_line s τ o) = [f].
Proof.
  intros (Hc & _ & _)%allowed_no_driver_events.
  unfold stage_trace, calls in *. simpl. rewrite omap_app, Hc.
  by destruct o as [[p|]|e].
Qed.

Lemma returns_stage_trace F f ok_line skip_line s τ o :
  Forall (allowed F) τ →
  returns (stage_trace f ok_line skip_line s τ o) =
    match o with Ok r => [(f, r)] | Raised _ => [] end.
Proof.
  intros (_ & Hr & _)%allowed_no_driver_events.
  unfold stage_trace, returns in *. simpl. rewrite omap_app, Hr.
  by destruct o as [[p|]|e].
Qed.

Lemma counter_values_stage_trace F f ok_line skip_line s τ o :
  Forall (allowed F) τ →
  counter_values (stage_trace f ok_line skip_line s τ o) =
    match o with Ok (Some _) => [(s + 1)%Z] | _ => [] end.
Proof.
  intros (_ & _ & Hv)%allowed_no_driver_events.
  unfold stage_trace, counter_values in *. simpl. rewrite omap_app, Hv.
  by destruct o as [[p|]|e].
Qed.

End DriverRuns.

Tactic Notation "run_stage" constr(F) constr(Hstay) "in" hyp(H)
    "as" simple_intropattern(pat) :=
  lazymatch type of H with
  | context [mbind ?k (stage ?f ?b ?ok ?skip ?s) ?σ0] =>
      destruct (stage_then F f b ok skip s k σ0 Hstay) as pat
  end.

Section MainRuns.
Variable net : list event → string → response.

Lemma stays_download_worldview_sample :
  stays_within worldview_footprint (download_worldview_sample net date_default).
Proof. rewrite download_worldview_sample_shape. apply stays_fetch_with_sidecar. Qed.

Lemma stays_download_earth_observatory_sample :
  stays_within earth_observatory_footprint (download_earth_observatory_sample net).
Proof. rewrite download_earth_observatory_sample_shape. apply stays_fetch_with_sidecar. Qed.

Lemma stays_download_wri_sample :
  stays_within (wri_footprint candidates) (download_wri_sample net).
Proof. apply stays_download_wri_sample_from. Qed.

Lemma stays_placeholders_call :
  stays_within (placeholders_footprint placeholders) placeholders_call.
Proof.
  apply stays_bind; [apply stays_for_each_placeholders|]. intros; apply stays_mret.
Qed.

Lemma call_then {B} F f body (k : option path → prog B) σ :
  stays_within F body →
  ∃ τ o σb,
    body (after_call f σ) = (o, σb) ∧
    Forall (allowed F) τ ∧
    fs_evolves (fp_files F) (fp_dirs F) (fs σ) (fs σb) ∧
    (call f body ≫= k) σ =
      match o with
      | Raised e => (Raised e, World (fs σb) (trace σ ++ ECall f :: τ))
      | Ok r => k r (World (fs σb) (trace σ ++ ECall f :: τ ++ [EReturn f r]))
      end.
Proof.
  intros Hstay. unfold call. rewrite !run_bind, run_emit. fold (after_call f σ).
  rewrite run_bind.
  destruct (Hstay (after_call f σ)) as [(τ & Ht & Hτ) Hev].
  destruct (body (after_call f σ)) as [o σb] eqn:Hb. simpl in *.
  exists τ, o, σb. do 3 (split; [done|]).
  destruct o as [r|e].
  - rewrite run_bind, run_emit, run_mret. do 2 f_equal.
    rewrite Ht, <- !app_assoc. done.
  - destruct σb as [t tr]. simpl in *. by rewrite Ht, <- app_assoc.
Qed.

Ltac trace_eq :=
  unfold driver_trace, stage_trace; simpl; rewrite <- ?app_assoc; simpl;
  rewrite ?app_nil_r, <- ?app_assoc; simpl; reflexivity.

(** Every run of [main], whatever the network and the file system do. *)
Lemma main_run σ :
  ∃ τ1 o1 σ1 τ2 o2 σ2 τ3 o3 σ3 τ4 o4 σ4 σ',
    main net σ = (driver_result o1 o2 o3 o4, σ') ∧
    trace σ' = trace σ ++ driver_trace τ1 o1 τ2 o2 τ3 o3 τ4 o4 ∧
    Forall (allowed worldview_footprint) τ1 ∧
    Forall (allowed earth_observatory_footprint) τ2 ∧
    Forall (allowed (wri_footprint candidates)) τ3 ∧
    Forall (allowed (placeholders_footprint placeholders)) τ4 ∧
    (∃ σa, fs σa = fs σ ∧ download_worldview_sample net date_default σa = (o1, σ1)) ∧
    (is_ok o1 →
       (∃ σa, fs σa = fs σ1 ∧ download_earth_observatory_sample net σa = (o2, σ2)) ∧
       (is_ok o2 →
          (∃ σa, fs σa = fs σ2 ∧ download_wri_sample net σa = (o3, σ3)) ∧
          (is_ok o3 →
             (∃ σa, fs σa = fs σ3 ∧ placeholders_call σa = (o4, σ4)) ∧
             (is_ok o4 → fs σ' = fs σ4)))).
Proof.
  destruct (main net σ) as [res σ'] eqn:Hres.
  rewrite main_stages, run_bind, run_print, run_bind, run_set_successes in Hres.
  run_stage worldview_footprint stays_download_worldview_sample in Hres
    as (τ1 & o1 & σ1 & Hb1 & Hτ1 & _ & Hrun1).
  rewrite Hrun1 in Hres. clear Hrun1.
  exists τ1, o1, σ1.
  destruct o1 as [r1|e1].
  2:{ injection Hres as <- <-.
      exists [], (Raised e1), σ1, [], (Raised e1), σ1, [], (Raised e1), σ1.
      eexists. split; [done|]. split; [trace_eq|]. do 4 (split; [done|]).
      split; [eexists; split; [|exact Hb1]; reflexivity|]. intros []. }
  run_stage earth_observatory_footprint stays_download_earth_observatory_sample in Hres
    as (τ2 & o2 & σ2 & Hb2 & Hτ2 & _ & Hrun2).
  rewrite Hrun2 in Hres. clear Hrun2.
  exists τ2, o2, σ2.
  destruct o2 as [r2|e2].
  2:{ injection Hres as <- <-.
      exists [], (Raised e2), σ2, [], (Raised e2), σ2.
      eexists. split; [done|]. split; [trace_eq|]. do 4 (split; [done|]).
      split; [eexists; split; [|exact Hb1]; reflexivity|]. intros _. split; [eexists; split; [|exact Hb2]; reflexivity|]. intros []. }
  run_stage (wri_footprint candidates) stays_download_wri_sample in Hres
    as (τ3 & o3 & σ3 & Hb3 & Hτ3 & _ & Hrun3).
  rewrite Hrun3 in Hres. clear Hrun3.
  exists τ3, o3, σ3.
  destruct o3 as [r3|e3].
  2:{ injection Hres as <- <-.
      exists [], (Raised e3), σ3.
      eexists. split; [done|]. split; [trace_eq|]. do 4 (split; [done|]).
      split; [eexists; split; [|exact Hb1]; reflexivity|]. intros _. split; [eexists; split; [|exact Hb2]; reflexivity|]. intros _.
      split; [eexists; split; [|exact Hb3]; reflexivity|]. intros []. }
  lazymatch type of Hres with
  | context [mbind ?k (call ?f ?b) ?σ0] =>
      destruct (call_then (placeholders_footprint placeholders) f b k σ0
                  stays_placeholders_call)
        as (τ4 & o4 & σ4 & Hb4 & Hτ4 & _ & Hrun4)
  end.
  rewrite Hrun4 in Hres. clear Hrun4.
  exists τ4, o4, σ4.
  destruct o4 as [r4|e4].
  2:{ injection Hres as <- <-.
      eexists. split; [done|]. split; [trace_eq|]. do 4 (split; [done|]).
      split; [eexists; split; [|exact Hb1]; reflexivity|]. intros _. split; [eexists; split; [|exact Hb2]; reflexivity|]. intros _.
      split; [eexists; split; [|exact Hb3]; reflexivity|]. intros _. split; [eexists; split; [|exact Hb4]; reflexivity|]. intros []. }
  rewrite run_bind, run_print, run_bind, run_print, run_mret in Hres.
  injection Hres as <- <-.
  eexists. split; [done|]. split; [trace_eq|]. do 4 (split; [done|]).
  split; [eexists; split; [|exact Hb1]; reflexivity|]. intros _. split; [eexists; split; [|exact Hb2]; reflexivity|]. intros _.
  split; [eexists; split; [|exact Hb3]; reflexivity|]. intros _. split; [eexists; split; [|exact Hb4]; reflexivity|]. done.
Qed.

End MainRuns.

(** ** Reading the trace of the driver *)

Lemma counter_values_app τ τ' : counter_values (τ ++ τ') = counter_values τ ++ counter_values τ'.
Proof. apply omap_app. Qed.

Lemma returns_app τ τ' : returns (τ ++ τ') = returns τ ++ returns τ'.
Proof. apply omap_app. Qed.

Lemma calls_app τ τ' : calls (τ ++ τ') = calls τ ++ calls τ'.
Proof. apply omap_app. Qed.

Lemma printed_app τ τ' : printed (τ ++ τ') = printed τ ++ printed τ'.
Proof. apply omap_app. Qed.

Lemma printed_cons e τ :
  printed (e :: τ) = match e with EPrint line => line :: printed τ | _ => printed τ end.
Proof. by destruct e. Qed.

Lemma requested_app τ τ' : requested (τ ++ τ') = requested τ ++ requested τ'.
Proof. apply omap_app. Qed.

Lemma written_app τ τ' : written (τ ++ τ') = written τ ++ written τ'.
Proof. apply omap_app. Qed.

Lemma last_app_Some_r {A} (l k : list A) x : last k = Some x → last (l ++ k) = Some x.
Proof. intros H. by rewrite last_app, H. Qed.

Lemma last_cons_Some_r {A} (l : list A) y x : last l = Some x → last (y :: l) = Some x.
Proof. intros H. by rewrite last_cons, H. Qed.

Ltac read_driver_trace H1 H2 H3 H4 :=
  apply allowed_no_driver_events in H1 as (?Hc & ?Hr & ?Hv);
  apply allowed_no_driver_events in H2 as (?Hc & ?Hr & ?Hv);
  apply allowed_no_driver_events in H3 as (?Hc & ?Hr & ?Hv);
  apply allowed_no_driver_events in H4 as (?Hc & ?Hr & ?Hv);
  unfold paths_returned, driver_trace, stage_trace;
  repeat (simpl;
          rewrite ?counter_values_app, ?returns_app, ?calls_app);
  repeat match goal with H : _ = [] |- _ => rewrite !H end;
  simpl.

(** ** What can leave a callee of the driver *)


Lemma os_only_mret {A} (a : A) : os_only (mret a : prog A).
Proof. by intros σ e σ'. Qed.

Lemma os_only_bind {A B} (m : prog A) (f : A → prog B) :
  os_only m → (∀ a, os_only (f a)) → os_only (m ≫= f).
Proof.
  intros Hm Hf σ e σ'. rewrite run_bind.
  destruct (m σ) as [[a|e1] σ1] eqn:Hr.
  - apply Hf.
  - intros [= -> ->]. by eapply Hm.
Qed.

Lemma os_only_for_each {A} (l : list A) body :
  (∀ x, os_only (body x)) → os_only (for_each l body).
Proof.
  intros Hb. induction l as [|x l IH]; [apply os_only_mret|].
  apply (os_only_bind (body x) (λ _, for_each l body)); [apply Hb|done].
Qed.

Lemma os_only_emit e : os_only (emit e).
Proof. by intros σ e' σ'. Qed.

Lemma os_only_path_mkdir p : os_only (path_mkdir p).
Proof.
  intros σ e σ'. unfold path_mkdir. destruct (FS.mkdir_p (fs σ) p); [done|].
  intros [= <- _]. by eexists.
Qed.

Lemma os_only_open_w p : os_only (open_w p).
Proof.
  intros σ e σ'. unfold open_w. destruct (FS.write_file (fs σ) p ""); [done|].
  intros [= <- _]. by eexists.
Qed.

Lemma os_only_fwrite p s : os_only (fwrite p s).
Proof. by intros σ e σ'. Qed.

Lemma os_only_ensure_directory p : os_only (ensure_directory p).
Proof.
  apply os_only_bind; [by intros σ e σ'|].
  intros []; simpl; [apply os_only_mret|apply os_only_path_mkdir].
Qed.


Lemma os_only_write_placeholder item : os_only (write_placeholder item).
Proof.
  destruct item as [folder text].
  apply os_only_bind; [apply os_only_ensure_directory|]. intros _.
  apply os_only_bind; [by intros σ e σ'|].
  intros []; simpl; [apply os_only_mret|].
  apply os_only_bind; [apply os_only_open_w|]. intros _. apply os_only_fwrite.
Qed.

Section Escapes.
Variable net : list event → string → response.







End Escapes.

(** ** Runs that nothing obstructs *)

Lemma unobstructed_evolves F t t' :
  shallow F → fs_evolves (fp_files F) (fp_dirs F) t t' →
  unobstructed t → unobstructed t'.
Proof.
  intros [HW HD] Hev (Hdata & Hwri & Hfolders & Hj1 & Hj2 & Hj3 & Hreadme).
  assert (∀ q, length q ≠ 3 → ¬ FS.is_file t q → ¬ FS.is_file t' q) as Hfile.
  { intros q Hq. apply (fs_evolves_not_file _ _ _ _ _ Hev).
    intros Hin. rewrite Forall_forall in HW. by apply HW in Hin. }
  assert (∀ q, length q = 3 → ¬ FS.is_dir t q → ¬ FS.is_dir t' q) as Hdir.
  { intros q Hq. apply (fs_evolves_not_dir _ _ _ _ _ Hev).
    intros p Hin Hpre%prefix_length. rewrite Forall_forall in HD.
    apply HD in Hin. lia. }
  split; [by apply Hfile|]. split; [by apply Hfile|]. split.
  { eapply Forall_impl; [done|]. intros f. by apply Hfile. }
  repeat split; by apply Hdir.
Qed.

Lemma shallow_sidecar folder url data_name json_name :
  shallow (sidecar_footprint folder url data_name json_name).
Proof. split; by repeat constructor. Qed.

Lemma shallow_wri urls : shallow (wri_footprint urls).
Proof. split; by repeat constructor. Qed.

Lemma shallow_placeholders items : shallow (placeholders_footprint items).
Proof.
  split; simpl; apply Forall_fmap, Forall_true; by intros f.
Qed.

Section Unobstructed.
Variable net : list event → string → response.

Lemma fetch_with_sidecar_total folder url data_name json_name metadata σ :
  data_name ≠ json_name →
  ¬ FS.is_file (fs σ) DATA_DIR →
  ¬ FS.is_dir (fs σ) (DATA_DIR // folder // json_name) →
  ∃ r σ', fetch_with_sidecar net folder url data_name json_name metadata σ = (Ok r, σ').
Proof.
  intros Hne Hdata Hjson.
  destruct (fetch_with_sidecar_run net folder url data_name json_name metadata σ Hne)
    as [[_ ?]|(_ & σ1 & b & σ2 & _ & _ & _ & _ & _ & _ & Hcase)]; [done|].
  destruct Hcase as [[_ ->]|[(_ & _ & σ3 & -> & _)|(_ & ? & _)]]; by eauto.
Qed.

Lemma worldview_names_differ :
  "worldview_truecolor_" +:+ date_default +:+ ".png"
  ≠ "worldview_truecolor_" +:+ date_default +:+ ".json".
Proof. by vm_compute. Qed.

(** Under [unobstructed] the run of [main] goes through its four calls
    and returns 0. *)
Lemma main_unobstructed σ :
  unobstructed (fs σ) →
  ∃ τ1 r1 τ2 r2 τ3 r3 τ4 σ',
    main net σ = (Ok 0%Z, σ') ∧
    trace σ' = trace σ ++ driver_trace τ1 (Ok r1) τ2 (Ok r2) τ3 (Ok r3) τ4 (Ok None) ∧
    Forall (allowed worldview_footprint) τ1 ∧
    Forall (allowed earth_observatory_footprint) τ2 ∧
    Forall (allowed (wri_footprint candidates)) τ3 ∧
    Forall (allowed (placeholders_footprint placeholders)) τ4.
Proof.
  intros HU.
  destruct (main_run net σ)
    as (τ1 & o1 & σ1 & τ2 & o2 & σ2 & τ3 & o3 & σ3 & τ4 & o4 & σ4 & σ' &
        Hrun & Ht & H1 & H2 & H3 & H4 & (σa & Hfa & Hb1) & Hrest).
  (* the worldview source *)
  rewrite <- Hfa in HU.
  assert (unobstructed (fs σ1)) as HU1.
  { eapply unobstructed_evolves; [apply (shallow_sidecar "worldview")| |exact HU].
    pose proof (stays_download_worldview_sample net σa) as [_ Hev].
    by rewrite Hb1 in Hev. }
  assert (is_ok o1) as Hok1.
  { destruct HU as (Hdata & _ & _ & Hj & _).
    rewrite download_worldview_sample_shape in Hb1.
    destruct (fetch_with_sidecar_total "worldview" (wms_url date_default) _ _
                (worldview_metadata (wms_url date_default))
                σa worldview_names_differ Hdata Hj) as (r & σ'' & Hr).
    rewrite Hr in Hb1. by injection Hb1 as <- _. }
  destruct (Hrest Hok1) as [(σb & Hfb & Hb2) Hrest2]. clear Hrest.
  (* the Earth Observatory source *)
  rewrite <- Hfb in HU1.
  assert (unobstructed (fs σ2)) as HU2.
  { eapply unobstructed_evolves; [apply (shallow_sidecar "earth_observatory")| |exact HU1].
    pose proof (stays_download_earth_observatory_sample net σb) as [_ Hev].
    by rewrite Hb2 in Hev. }
  assert (is_ok o2) as Hok2.
  { destruct HU1 as (Hdata & _ & _ & _ & Hj & _).
    rewrite download_earth_observatory_sample_shape in Hb2.
    destruct (fetch_with_sidecar_total "earth_observatory" earth_observatory_url
                "sample_earth_observatory.jpg" "sample_earth_observatory.json"
                (earth_observatory_metadata earth_observatory_url)
                σb ltac:(done) Hdata Hj) as (r & σ'' & Hr).
    rewrite Hr in Hb2. by injection Hb2 as <- _. }
  destruct (Hrest2 Hok2) as [(σc & Hfc & Hb3) Hrest3]. clear Hrest2.
  (* the CSV source *)
  rewrite <- Hfc in HU2.
  assert (unobstructed (fs σ3)) as HU3.
  { eapply unobstructed_evolves; [apply (shallow_wri candidates)| |exact HU2].
    pose proof (stays_download_wri_sample net σc) as [_ Hev].
    by rewrite Hb3 in Hev. }
  assert (is_ok o3) as Hok3.
  { destruct HU2 as (Hdata & Hwri & _ & _ & _ & Hj & Hreadme).
    destruct (download_wri_sample_from_run net candidates σc)
      as (? & ? & ? & ? & r & σ'' & ? & _ & _ & _ & Hr & _); [done|].
    unfold download_wri_sample in Hb3. rewrite Hr in Hb3. by injection Hb3 as <- _. }
  destruct (Hrest3 Hok3) as [(σd & Hfd & Hb4) _]. clear Hrest3.
  (* the placeholders *)
  rewrite <- Hfd in HU3.
  assert (o4 = Ok None) as ->.
  { destruct HU3 as (Hdata & _ & Hfolders & _).
    destruct (placeholders_total placeholders σd Hdata Hfolders) as (σ'' & Hr).
    unfold placeholders_call, write_placeholders_for_sedac_worldpop_ghsl_copernicus_eotoolkit in Hb4.
    rewrite run_bind, Hr, run_mret in Hb4. by injection Hb4 as <- _. }
  destruct o1 as [r1|]; [|done]. destruct o2 as [r2|]; [|done].
  destruct o3 as [r3|]; [|done].
  exists τ1, r1, τ2, r2, τ3, r3, τ4, σ'. done.
Qed.

End Unobstructed.

Lemma unobstructed_empty : unobstructed (fs empty_world).
Proof. apply (bool_decide_unpack _). by vm_compute. Qed.

(** Every combination of outcomes of the three primary sources is the
    outcome of a run, which exits with status 0. *)
Lemma every_combination_runs (b1 b2 b3 : bool) :
  let pick (b : bool) (p : path) := if b then Some p else None in
  exit_status (net_for b1 b2 b3) empty_world = 0%Z ∧
  returns (trace (main (net_for b1 b2 b3) empty_world).2) =
    [(name_worldview, pick b1 worldview_png);
     (name_earth_observatory, pick b2 earth_observatory_jpg);
     (name_wri, pick b3 wri_csv);
     (name_placeholders, None)].
Proof. destruct b1, b2, b3; by vm_compute. Qed.

(** ** The trace of a run in which every callee returned *)



Lemma printed_stage_trace f ok_line skip_line s τ r :
  printed (stage_trace f ok_line skip_line s τ (Ok r)) =
    printed τ ++ [if truthy r then ok_line else skip_line].
Proof.
  unfold stage_trace. rewrite printed_cons. cbv beta iota.
  rewrite printed_app. by destruct r.
Qed.

Lemma driver_trace_returned τ1 r1 τ2 r2 τ3 r3 τ4 r4 :
  driver_trace τ1 (Ok r1) τ2 (Ok r2) τ3 (Ok r3) τ4 (Ok r4) =
  [EPrint header_line; ESet 0] ++
  stage_trace name_worldview "- Worldview sample downloaded"
    "- Worldview sample skipped (download failed)" 0 τ1 (Ok r1) ++
  stage_trace name_earth_observatory "- Earth Observatory sample downloaded"
    "- Earth Observatory sample skipped (download failed)"
    (stage_count 0 (Ok r1)) τ2 (Ok r2) ++
  stage_trace name_wri "- WRI sample downloaded"
    "- WRI sample skipped (no direct small CSV found; added instructions)"
    (stage_count (stage_count 0 (Ok r1)) (Ok r2)) τ3 (Ok r3) ++
  [ECall name_placeholders] ++ τ4 ++
  [EReturn name_placeholders r4; EPrint placeholders_line;
   EPrint (completed_line
             (stage_count (stage_count (stage_count 0 (Ok r1)) (Ok r2)) (Ok r3)))].
Proof. reflexivity. Qed.

Lemma stage_count_paths r1 r2 r3 :
  stage_count (stage_count (stage_count 0 (Ok r1)) (Ok r2)) (Ok r3)
  = count_paths [r1; r2; r3].
Proof. by destruct r1, r2, r3. Qed.

Lemma driver_trace_returned_read τ1 r1 τ2 r2 τ3 r3 τ4 r4 :
  Forall (allowed worldview_footprint) τ1 →
  Forall (allowed earth_observatory_footprint) τ2 →
  Forall (allowed (wri_footprint candidates)) τ3 →
  Forall (allowed (placeholders_footprint placeholders)) τ4 →
  let τ := driver_trace τ1 (Ok r1) τ2 (Ok r2) τ3 (Ok r3) τ4 (Ok r4) in
  calls τ = steps ∧
  returns τ = [(name_worldview, r1); (name_earth_observatory, r2);
               (name_wri, r3); (name_placeholders, r4)] ∧
  printed τ =
    header_line :: printed τ1 ++ status_line name_worldview r1
    :: printed τ2 ++ status_line name_earth_observatory r2
    :: printed τ3 ++ status_line name_wri r3
    :: printed τ4 ++ [placeholders_line; completed_line (count_paths [r1; r2; r3])].
Proof.
  intros H1 H2 H3 H4 τ. subst τ. rewrite driver_trace_returned, stage_count_paths.
  pose proof (allowed_no_driver_events _ _ H4) as (Hc4 & Hr4 & _).
  split; [|split].
  - rewrite !calls_app, (calls_stage_trace _ _ _ _ _ _ _ H1),
      (calls_stage_trace _ _ _ _ _ _ _ H2), (calls_stage_trace _ _ _ _ _ _ _ H3), Hc4.
    reflexivity.
  - rewrite !returns_app, (returns_stage_trace _ _ _ _ _ _ _ H1),
      (returns_stage_trace _ _ _ _ _ _ _ H2), (returns_stage_trace _ _ _ _ _ _ _ H3), Hr4.
    reflexivity.
  - rewrite !printed_app, !printed_stage_trace. 
    change (printed [EPrint header_line; ESet 0]) with [header_line].
    change (printed [ECall name_placeholders]) with (@nil string).
    change (printed [EReturn name_placeholders r4; EPrint placeholders_line;
       EPrint (completed_line (count_paths [r1; r2; r3]))])
      with [placeholders_line; completed_line (count_paths [r1; r2; r3])].
    rewrite <- !app_assoc. reflexivity.
Qed.

(** ** The candidates of the CSV source, in every run *)

Lemma emitted_without_requests F σ σ' :
  fp_urls F = [] → within F σ σ' →
  ∃ τ, trace σ' = trace σ ++ τ ∧ requested τ = [] ∧
       Forall (λ p, p ∈ fp_files F) (written τ).
Proof.
  intros HF [(τ & Ht & Hτ) _]. exists τ. split; [done|]. split.
  - apply allowed_requested in Hτ. rewrite HF in Hτ.
    destruct (requested τ) as [|u us]; [done|].
    apply Forall_cons in Hτ as [Hu _]. by apply elem_of_nil in Hu.
  - by apply allowed_written.
Qed.

Lemma replicate_false_lookup (j i : nat) : replicate j false !! i = Some true → False.
Proof. intros H. by apply lookup_replicate in H as [? _]. Qed.

Section Candidates.
Variable net : list event → string → response.

(** Every run of the CSV source, whatever the network and the file
    system do: the helper is called on the candidates in their order, up
    to one it fetches; a fetched candidate is the last one tried; the
    instructions are written only when all were tried and none was
    fetched. *)
Lemma download_wri_sample_from_every_run urls σ :
  ∃ τ k bs σ0 σ1,
    trace (download_wri_sample_from net urls σ).2 = trace σ ++ τ ∧
    fs σ0 = fs (ensure_directory wri_dir σ).2 ∧
    attempts net (take k urls) σ0 bs σ1 ∧
    requested τ = take k urls ∧
    (∀ i, bs !! i = Some true → S i = k) ∧
    (wri_readme ∈ written τ → k = length urls ∧ Forall (eq false) bs).
Proof.
  unfold download_wri_sample_from. fold wri_dir wri_readme.
  rewrite run_bind.
  pose proof (stays_ensure_directory (Footprint [] [] [wri_dir]) wri_dir
                ltac:(simpl; set_solver) σ) as He.
  destruct (ensure_directory wri_dir σ) as [[[]|e] σ0] eqn:Hens.
  2:{ (* the folder cannot be made: nothing is tried *)
      simpl in He. destruct (emitted_without_requests (Footprint [] [] [wri_dir]) _ _ eq_refl He)
        as (τ & Ht & Hq & Hw).
      exists τ, 0, [], σ0, σ0. split; [done|]. split; [done|].
      split; [rewrite take_0; constructor|]. split; [by rewrite take_0|].
      split; [done|]. intros Hin. rewrite Forall_forall in Hw.
      apply Hw in Hin. by apply elem_of_nil in Hin. }
  simpl in He.
  destruct (emitted_without_requests (Footprint [] [] [wri_dir]) _ _ eq_refl He)
    as (τ0 & Ht0 & Hq0 & Hw0).
  assert (written τ0 = []) as Hw0'.
  { destruct (written τ0) as [|p ps]; [done|].
    apply Forall_cons in Hw0 as [Hp _]. by apply elem_of_nil in Hp. }
  rewrite run_bind.
  destruct (try_candidates_run net urls σ0) as (k & bs & σ1 & Hat & Hcase).
  destruct (attempts_emitted net _ _ _ _ Hat) as (τ1 & Ht1 & Hq1 & Hw1).
  destruct Hcase as [(Hk & Hbs & Htry)|(j & url & Hk & Hl & Hbs & Htry)];
    rewrite Htry.
  - (* every candidate failed *)
    pose proof (stays_bind (Footprint [] [wri_readme] [])
                  (open_w wri_readme)
                  (λ _, fwrite wri_readme wri_instructions ≫= λ _, mret (None : option path))
                  ltac:(apply stays_open_w; simpl; set_solver)
                  ltac:(intros ?; apply stays_bind;
                          [apply stays_fwrite; simpl; set_solver|intros; apply stays_mret])
                  σ1) as Htail.
    destruct (emitted_without_requests (Footprint [] [wri_readme] []) _ _ eq_refl Htail)
      as (τ2 & Ht2 & Hq2 & Hw2).
    exists (τ0 ++ τ1 ++ τ2), k, bs, σ0, σ1.
    split; [by rewrite Ht2, Ht1, Ht0, <- !app_assoc|]. split; [done|].
    split; [done|]. split.
    { by rewrite !requested_app, Hq0, Hq1, Hq2, app_nil_r. }
    split; [intros i Hi; rewrite Hbs in Hi; by apply replicate_false_lookup in Hi|].
    intros _. split; [done|]. rewrite Hbs.
    apply Forall_forall. by intros b ->%elem_of_replicate_inv.
  - (* a candidate was fetched *)
    pose proof (stays_bind (Footprint [] [wri_json] [wri_dir])
                  (save_metadata wri_json (wri_metadata url))
                  (λ _, mret (Some wri_csv))
                  ltac:(apply stays_save_metadata; simpl; set_solver)
                  ltac:(intros ?; apply stays_mret)
                  σ1) as Htail.
    destruct (emitted_without_requests (Footprint [] [wri_json] [wri_dir]) _ _ eq_refl Htail)
      as (τ2 & Ht2 & Hq2 & Hw2).
    exists (τ0 ++ τ1 ++ τ2), k, bs, σ0, σ1.
    split.
    { rewrite !app_assoc, <- Ht0, <- Ht1, <- Ht2. f_equal.
      rewrite !run_bind.
      by destruct (save_metadata wri_json (wri_metadata url) σ1) as [[[]|e] σ2]. }
    split; [done|]. split; [done|]. split.
    { by rewrite !requested_app, Hq0, Hq1, Hq2, app_nil_r. }
    split.
    { intros i Hi. rewrite Hbs in Hi. rewrite Hk.
      destruct (decide (i < j)) as [Hlt|Hge].
      - rewrite lookup_app_l in Hi by (by rewrite length_replicate).
        by apply replicate_false_lookup in Hi.
      - apply lookup_lt_Some in Hi. rewrite length_app, length_replicate in Hi.
        simpl in Hi. lia. }
    intros Hin. rewrite !written_app, Hw0' in Hin. simpl in Hin.
    apply elem_of_app in Hin as [Hin|Hin].
    + rewrite Forall_forall in Hw1. apply Hw1 in Hin. by apply child_inj in Hin.
    + rewrite Forall_forall in Hw2. apply Hw2 in Hin. simpl in Hin.
      apply list_elem_of_singleton in Hin. by apply child_inj in Hin.
Qed.

End Candidates.

Section Overwrite.
Variable net : list event → string → response.

Lemma try_candidates_all_fail urls σ bs σ1 :
  attempts net urls σ bs σ1 → Forall (eq false) bs →
  try_candidates net wri_dir urls σ = (Ok None, σ1).
Proof.
  induction 1 as [σ|url urls σ b σ1 bs σ2 Hd _ IH]; [done|].
  intros [<- Hbs]%Forall_cons. simpl. fold wri_csv.
  rewrite run_bind, Hd. by apply IH.
Qed.

End Overwrite.

(** ** Every way a run of the CSV source can go *)

Section WriCases.
Variable net : list event → string → response.

Lemma fetch_unwritten url p timeout σ b σ' τ :
  fetch net url p timeout σ b σ' → trace σ' = trace σ ++ τ → written τ = [] →
  fs σ' = fs σ.
Proof.
  intros [st chunks σ2 _ _ _ Ht _|st chunks detail σ2 _ _ _ Ht _|e σ2 _ Hfs Ht] Ht';
    rewrite Ht in Ht'; apply app_inv_head in Ht' as <-; done.
Qed.

Lemma attempts_unwritten urls σ bs σ1 τ :
  attempts net urls σ bs σ1 → trace σ1 = trace σ ++ τ → written τ = [] →
  fs σ1 = fs σ.
Proof.
  intros Hat. revert τ.
  induction Hat as [σ|url urls σ b σ1 bs σ2 Hd Hat IH]; intros τ Ht Hw; [done|].
  destruct (http_download_fetch net url wri_csv timeout_seconds_default σ)
    as (b' & σ1' & Hd' & Hf).
  rewrite Hd in Hd'. injection Hd' as <- <-.
  destruct (fetch_emitted net _ _ _ _ _ _ Hf) as (τ1 & Ht1 & _).
  destruct (attempts_emitted net _ _ _ _ Hat) as (τ2 & Ht2 & _).
  assert (τ = τ1 ++ τ2) as ->.
  { rewrite Ht2, Ht1, <- app_assoc in Ht. by apply app_inv_head in Ht. }
  rewrite written_app in Hw. apply app_eq_nil in Hw as [Hw1 Hw2].
  rewrite (IH _ Ht2 Hw2). by eapply fetch_unwritten.
Qed.

(** Every way a run of the CSV source can go. *)
Lemma download_wri_sample_from_cases urls σ :
  let run := download_wri_sample_from net urls σ in
  (run = (Raised (OSError wri_dir), σ) ∧ FS.is_file (fs σ) DATA_DIR) ∨
  (∃ σ0 k bs σ1 τ1,
     ensure_directory wri_dir σ = (Ok tt, σ0) ∧ trace σ0 = trace σ ∧
     attempts net (take k urls) σ0 bs σ1 ∧
     trace σ1 = trace σ ++ τ1 ∧ requested τ1 = take k urls ∧
     Forall (λ q, q = wri_csv) (written τ1) ∧
     (written τ1 = [] → FS.stat (fs σ1) wri_csv = FS.stat (fs σ) wri_csv) ∧
     FS.stat (fs σ1) wri_json = FS.stat (fs σ) wri_json ∧
     FS.stat (fs σ1) wri_readme = FS.stat (fs σ) wri_readme ∧
     (¬ FS.is_file (fs σ) wri_dir → FS.is_dir (fs σ1) wri_dir) ∧
     ((k = length urls ∧ bs = replicate k false ∧
       ((∃ σ', run = (Ok None, σ') ∧
               trace σ' = trace σ1 ++ [EWrite wri_readme] ∧
               FS.stat (fs σ') wri_readme = Some (FS.EFile wri_instructions) ∧
               FS.stat (fs σ') wri_json = FS.stat (fs σ) wri_json ∧
               FS.stat (fs σ') wri_csv = FS.stat (fs σ1) wri_csv) ∨
        (run = (Raised (OSError wri_readme), σ1) ∧
         ¬ (FS.is_dir (fs σ1) wri_dir ∧ ¬ FS.is_dir (fs σ1) wri_readme)))) ∨
      (∃ j url, k = S j ∧ urls !! j = Some url ∧ bs = replicate j false ++ [true] ∧
         FS.is_file (fs σ1) wri_csv ∧
         ((∃ σ', run = (Ok (Some wri_csv), σ') ∧
                 trace σ' = trace σ1 ++ [EWrite wri_json] ∧
                 FS.stat (fs σ') wri_json =
                   Some (FS.EFile (Json.dumps (wri_metadata url) 2 true)) ∧
                 FS.stat (fs σ') wri_readme = FS.stat (fs σ) wri_readme ∧
                 FS.stat (fs σ') wri_csv = FS.stat (fs σ1) wri_csv) ∨
          (FS.is_dir (fs σ) wri_json ∧ ∃ p', run = (Raised (OSError p'), σ1)))))).
Proof.
  intros run. subst run.
  assert (∀ p, p ∈ [wri_dir] → ¬ wri_json `prefix_of` p) as Hjd.
  { intros p ->%list_elem_of_singleton. apply child_not_prefix. }
  assert (∀ p, p ∈ [wri_dir] → ¬ wri_readme `prefix_of` p) as Hrd.
  { intros p ->%list_elem_of_singleton. apply child_not_prefix. }
  assert (∀ p, p ∈ [wri_dir] → ¬ wri_csv `prefix_of` p) as Hcd.
  { intros p ->%list_elem_of_singleton. apply child_not_prefix. }
  unfold download_wri_sample_from. fold wri_dir wri_readme. rewrite run_bind.
  destruct (ensure_data_folder "wri" σ) as [[Hr0 Hf]|(_ & σ0 & Hr0 & Ht0 & _ & Hd0)];
    fold wri_dir in Hr0; rewrite Hr0; [by left|].
  right. fold wri_dir in Hd0.
  assert (within (Footprint [] [] [wri_dir]) σ σ0) as [_ Hev0].
  { eapply stays_run; [|exact Hr0]. apply stays_ensure_directory. simpl. set_solver. }
  simpl in Hev0.
  destruct (try_candidates_run net urls σ0) as (k & bs & σ1 & Hat & Hcase).
  pose proof (attempts_evolves net _ _ _ _ Hat) as Hev1.
  destruct (attempts_emitted net _ _ _ _ Hat) as (τ1 & Ht1 & Hreq1 & Hw1).
  assert (FS.stat (fs σ1) wri_json = FS.stat (fs σ) wri_json) as Hj1.
  { etrans; [eapply fs_evolves_unchanged; [exact Hev1| |done]; set_solver|].
    eapply fs_evolves_unchanged; [done| |done]. set_solver. }
  assert (FS.stat (fs σ1) wri_readme = FS.stat (fs σ) wri_readme) as Hr1.
  { etrans; [eapply fs_evolves_unchanged; [exact Hev1| |done]; set_solver|].
    eapply fs_evolves_unchanged; [done| |done]. set_solver. }
  exists σ0, k, bs, σ1, τ1. do 3 (split; [done|]).
  split; [by rewrite Ht1, Ht0|]. do 2 (split; [done|]).
  split.
  { intros Hnil. rewrite (attempts_unwritten _ _ _ _ _ Hat Ht1 Hnil).
    eapply fs_evolves_unchanged; [done| |done]. set_solver. }
  do 2 (split; [done|]).
  split; [intros Hnf; by apply (ev_dir_keep _ _ _ _ Hev1), Hd0|].
  rewrite run_bind.
  destruct Hcase as [(Hk & Hbs & Htry)|(j & url & Hk & Hl & Hbs & Htry)]; rewrite Htry.
  - (* every candidate failed *)
    left. do 2 (split; [done|]).
    rewrite (run_bind_assoc (open_w wri_readme)
               (λ _, fwrite wri_readme wri_instructions) (λ _, mret None)), run_bind.
    destruct (write_text_spec wri_readme wri_instructions σ1)
      as [(_ & _ & _ & σ' & -> & Ht & Hs & Hframe)|[Hno ->]].
    + left. exists σ'. do 3 (split; [done|]). split.
      * rewrite <- Hj1. apply Hframe. intros H. by apply child_inj in H.
      * apply Hframe. intros H. by apply child_inj in H.
    + right. split; [done|]. intros [Hd Hnd]. apply Hno.
      split; [apply child_ne_nil|]. unfold wri_readme at 1. by rewrite parent_child.
  - (* a candidate was fetched *)
    right. exists j, url. do 3 (split; [done|]).
    assert (FS.is_file (fs σ1) wri_csv) as Hcsv.
    { eapply attempts_last_true; [done|]. by rewrite Hbs, last_snoc. }
    split; [done|]. rewrite run_bind.
    destruct (save_metadata_spec wri_json (wri_metadata url) σ1)
      as [(_ & σ' & -> & Ht & Hs & Hev)|(Hno & p' & ->)].
    + left. unfold wri_json in Hev at 2. rewrite parent_child in Hev.
      exists σ'. do 3 (split; [done|]). split.
      * rewrite <- Hr1. eapply fs_evolves_unchanged; [done| |done].
        rewrite list_elem_of_singleton. intros H. by apply child_inj in H.
      * eapply fs_evolves_unchanged; [done| |done].
        rewrite list_elem_of_singleton. intros H. by apply child_inj in H.
    + right. split; [|by exists p'].
      unfold FS.is_dir. rewrite <- Hj1.
      destruct (decide (FS.stat (fs σ1) wri_json = Some FS.EDir)) as [|Hnd]; [done|].
      destruct Hno. apply can_open_in_dir; [apply child_ne_nil| |done].
      unfold wri_json. rewrite parent_child.
      destruct Hcsv as [d Hd]. eapply FSFacts.stat_snoc. exact Hd.
Qed.

End WriCases.

(** ** What a fetch leaves on disk *)

Section FilesAfter.
Variable net : list event → string → response.

Lemma fetch_false_data url p timeout σ σ' :
  fetch net url p timeout σ false σ' →
  FS.stat (fs σ') p = FS.stat (fs σ) p ∨
  ∃ status_code chunks detail,
    net (trace σ) url = Response status_code chunks (Some detail) ∧
    FS.stat (fs σ') p = Some (FS.EFile (body_of chunks)).
Proof.
  inversion 1 as [|st chunks detail σ2 Hnet _ _ _ Hs|e σ2 _ Hfs _]; subst.
  - right. by exists st, chunks, detail.
  - left. by rewrite Hfs.
Qed.

Lemma fetch_true_data url p timeout σ σ' :
  fetch net url p timeout σ true σ' →
  ∃ status_code chunks,
    net (trace σ) url = Response status_code chunks None ∧
    FS.stat (fs σ') p = Some (FS.EFile (body_of chunks)).
Proof. inversion 1 as [st chunks σ2 Hnet _ _ _ Hs| |]; subst. by exists st, chunks. Qed.

Lemma attempts_singleton url σ b σ1 :
  attempts net [url] σ [b] σ1 →
  fetch net url wri_csv timeout_seconds_default σ b σ1.
Proof.
  inversion 1 as [|? ? ? ? σa ? ? Hd Hat']; subst. inversion Hat'; subst.
  destruct (http_download_fetch net url wri_csv timeout_seconds_default σ)
    as (b' & σ1' & Hd' & Hf).
  rewrite Hd in Hd'. by injection Hd' as <- <-.
Qed.

Lemma fetch_with_sidecar_files folder url data_name json_name metadata σ r σ' :
  data_name ≠ json_name →
  fetch_with_sidecar net folder url data_name json_name metadata σ = (Ok r, σ') →
  files_after net σ σ' url (DATA_DIR // folder // data_name) (DATA_DIR // folder // json_name)
    metadata r.
Proof.
  intros Hne Hrun.
  destruct (fetch_with_sidecar_run net folder url data_name json_name metadata σ Hne)
    as [[Hr _]|(_ & σ1 & b & σ2 & _ & Ht1 & _ & Hp1 & Hf & Hj2 & Hcase)];
    [congruence|].
  rewrite Hrun in Hcase.
  destruct Hcase as [[-> [= -> ->]]|[(-> & _ & σ3 & [= -> ->] & _ & Hs3 & Hp3)|(_ & _ & ? & ?)]];
    [| |done].
  - split; [done|]. rewrite <- Hp1, <- Ht1. by eapply fetch_false_data.
  - split; [done|]. split; [|done].
    rewrite Hp3, <- Ht1. by eapply fetch_true_data.
Qed.

Lemma download_wri_sample_files σ r σ' :
  download_wri_sample net σ = (Ok r, σ') →
  files_after net σ σ' wri_url wri_csv wri_json (wri_metadata wri_url) r ∧
  match r with
  | Some _ => FS.stat (fs σ') wri_readme = FS.stat (fs σ) wri_readme
  | None => FS.stat (fs σ') wri_readme = Some (FS.EFile wri_instructions)
  end.
Proof.
  intros Hrun. unfold download_wri_sample in Hrun.
  destruct (download_wri_sample_from_cases net candidates σ)
    as [[Hr _]|(σ0 & k & bs & σ1 & τ1 & Hens & Ht0 & Hat & _ & _ & _ & _ & Hj1 & Hr1
                & _ & Hcase)]; [congruence|].
  assert (within (Footprint [] [] [wri_dir]) σ σ0) as [_ Hev0].
  { eapply stays_run; [|exact Hens]. apply stays_ensure_directory. simpl. set_solver. }
  simpl in Hev0.
  assert (FS.stat (fs σ0) wri_csv = FS.stat (fs σ) wri_csv) as Hc0.
  { eapply fs_evolves_unchanged; [done|set_solver|].
    intros p ->%list_elem_of_singleton. apply child_not_prefix. }
  rewrite Hrun in Hcase.
  destruct Hcase as [(-> & -> & [(σ2 & [= -> ->] & _ & Hs & Hj & Hc)|[? _]])
                    |(j & url & -> & Hl & -> & _ & [(σ2 & [= -> ->] & _ & Hs & Hr & Hc)|(_ & ? & ?)])];
    [|done| |done].
  - (* the candidate failed *)
    split; [|done]. split; [done|].
    change (attempts net [wri_url] σ0 [false] σ1) in Hat.
    apply attempts_singleton in Hat.
    rewrite Hc, <- Hc0, <- Ht0. by eapply fetch_false_data.
  - (* the candidate was fetched *)
    destruct j as [|j]; [|done]. injection Hl as <-.
    split; [|done]. split; [done|]. split; [|done].
    change (attempts net [wri_url] σ0 [true] σ1) in Hat.
    apply attempts_singleton in Hat.
    rewrite Hc, <- Ht0. by eapply fetch_true_data.
Qed.

End FilesAfter.

(** ** The three sidecars read back *)

Lemma worldview_sidecar_reads_back :
  reads_back (Json.dumps (worldview_metadata (wms_url date_default)) 2 true)
    (worldview_metadata (wms_url date_default))
    "NASA GIBS / Worldview" (wms_url date_default)
    [0; 2; 4; 4; 4; 4; 2; 2; 2; 2; 2; 2; 4; 4; 2; 2; 2; 0].
Proof. split; [done|]. eexists. split; [reflexivity|]. repeat split; by vm_compute. Qed.

Lemma earth_observatory_sidecar_reads_back :
  reads_back (Json.dumps (earth_observatory_metadata earth_observatory_url) 2 true)
    (earth_observatory_metadata earth_observatory_url)
    "NASA Earth Observatory" earth_observatory_url
    [0; 2; 2; 2; 2; 0].
Proof. split; [done|]. eexists. split; [reflexivity|]. repeat split; by vm_compute. Qed.

Lemma wri_sidecar_reads_back :
  reads_back (Json.dumps (wri_metadata wri_url) 2 true) (wri_metadata wri_url)
    "World Resources Institute (WRI) Data Explorer" wri_url
    [0; 2; 2; 2; 0].
Proof. split; [done|]. eexists. split; [reflexivity|]. repeat split; by vm_compute. Qed.

(** ** Single calls of the helpers *)

(** What is above an existing path exists. *)
Lemma stat_prefix_exists t p q :
  q `prefix_of` p → is_Some (FS.stat t p) → is_Some (FS.stat t q).
Proof.
  intros Hpre [e He]. destruct (decide (q = p)) as [->|Hne]; [by eexists|].
  exists FS.EDir. by eapply FSFacts.stat_prefix.
Qed.

Lemma within_http_download net url out_path timeout σ :
  within (download_footprint url out_path) σ (http_download net url out_path timeout σ).2.
Proof.
  apply (stays_http_download net (download_footprint url out_path));
    simpl; by rewrite list_elem_of_singleton.
Qed.

(** A reply with a good status, to a destination that can be opened. *)
Lemma http_download_opened net url out_path timeout σ status_code chunks broken :
  net (trace σ) url = Response status_code chunks broken →
  ¬ (400 ≤ status_code < 600)%Z →
  can_open (fs σ) out_path →
  let run := http_download net url out_path timeout σ in
  run.1 = Ok (bool_decide (broken = None)) ∧
  FS.stat (fs run.2) out_path = Some (FS.EFile (body_of chunks)) ∧
  FS.is_dir (fs run.2) (parent out_path) ∧
  written (trace run.2) = written (trace σ) ++ [out_path].
Proof.
  intros Hnet Hst Hcan run. subst run.
  destruct (http_download_fetch net url out_path timeout σ) as (b & σ' & Hr & Hf).
  rewrite Hr. simpl.
  assert (FS.stat (fs σ') out_path = Some (FS.EFile (body_of chunks)) →
          FS.is_dir (fs σ') (parent out_path)) as Hparent.
  { intros Hs. eapply FSFacts.stat_parent; [by destruct Hcan|done]. }
  inversion Hf as [st ch σ2 Hnet' Hst' Hcan' Ht Hs|st ch detail σ2 Hnet' Hst' Hcan' Ht Hs
                  |e σ2 Href Hfs Ht]; subst.
  - assert (st = status_code ∧ ch = chunks ∧ broken = None) as (-> & -> & ->)
      by (rewrite Hnet in Hnet'; by injection Hnet').
    split; [done|]. split; [done|]. split; [by apply Hparent|].
    by rewrite Ht, written_app.
  - assert (st = status_code ∧ ch = chunks ∧ broken = Some detail) as (-> & -> & ->)
      by (rewrite Hnet in Hnet'; by injection Hnet').
    split; [done|]. split; [done|]. split; [by apply Hparent|].
    by rewrite Ht, written_app.
  - unfold refused in Href. rewrite Hnet in Href.
    rewrite decide_False in Href by done. by destruct Href.
Qed.

Lemma can_open_parent t p : can_open t p → ¬ FS.is_file t (parent p).
Proof.
  intros (Hne & _ & Hpre). apply Hpre; [apply parent_prefix|by apply parent_ne].
Qed.

(** The file system after [save_metadata], path by path. *)
Lemma save_metadata_exact p metadata σ :
  can_open (fs σ) p →
  ∃ σ', save_metadata p metadata σ = (Ok tt, σ') ∧
        trace σ' = trace σ ++ [EWrite p] ∧
        ∀ q, FS.stat (fs σ') q =
               if decide (q = p) then Some (FS.EFile (Json.dumps metadata 2 true))
               else match FS.stat (fs σ) q with
                    | Some e => Some e
                    | None => if decide (q `prefix_of` parent p) then Some FS.EDir else None
                    end.
Proof.
  intros Hcan. pose proof Hcan as (Hne & Hnd & Hpre).
  unfold save_metadata. rewrite run_bind.
  destruct (ensure_directory_spec (parent p) σ)
    as [[Hr Hs]|[(Hn & t & Hm & Hr & Hd)|(Hn & Hr & q & Hq & Hfile)]]; rewrite Hr.
  - assert (FS.is_dir (fs σ) (parent p)) as Hdir.
    { destruct Hs as [[d|] Hs]; [|done]. destruct (can_open_parent _ _ Hcan). by exists d. }
    destruct (write_text_spec p (Json.dumps metadata 2 true) σ)
      as [(_ & _ & _ & σ' & Hw & Ht & Hp & Hframe)|[Hno _]]; [|by destruct Hno].
    exists σ'. do 2 (split; [done|]). intros q.
    destruct (decide (q = p)) as [->|Hqp]; [done|].
    rewrite Hframe by done. destruct (FS.stat (fs σ) q) as [e|] eqn:Hsq; [done|].
    rewrite decide_False; [done|]. intros Hpq.
    assert (is_Some (FS.stat (fs σ) q)) as [? ?]; [|congruence].
    destruct (decide (q = parent p)) as [->|?]; [by eexists|].
    exists FS.EDir. by eapply FSFacts.stat_prefix.
  - set (σ1 := World t (trace σ)).
    assert (FS.stat (fs σ) p = None) as Hp0.
    { destruct (FS.stat (fs σ) p) as [e|] eqn:He; [|done].
      pose proof (FSFacts.stat_parent _ _ _ Hne He). congruence. }
    assert (¬ FS.is_dir (fs σ1) p) as Hnd1.
    { unfold FS.is_dir. simpl. rewrite (FSFacts.stat_mkdir_p _ _ _ p Hm), Hp0.
      rewrite decide_False; [done|]. intros Hpp%prefix_length.
      assert (length (parent p) < length p); [|lia].
      destruct (child_parent p Hne) as [x Hx]. rewrite Hx at 2.
      unfold child. rewrite length_app. simpl. lia. }
    destruct (write_text_spec p (Json.dumps metadata 2 true) σ1)
      as [(_ & _ & _ & σ' & Hw & Ht & Hp & Hframe)|[Hno _]]; [|by destruct Hno].
    exists σ'. do 2 (split; [done|]). intros q.
    destruct (decide (q = p)) as [->|Hqp]; [done|].
    rewrite Hframe by done. simpl. by apply FSFacts.stat_mkdir_p.
  - destruct (Hpre q); [|intros ->|done].
    + etrans; [done|apply parent_prefix].
    + apply prefix_length in Hq.
      destruct (child_parent p Hne) as [x Hx]. rewrite Hx in Hq at 1.
      unfold child in Hq. rewrite length_app in Hq. simpl in Hq. lia.
Qed.

Lemma save_metadata_keeps_open p metadata σ σ' :
  can_open (fs σ) p → save_metadata p metadata σ = (Ok tt, σ') → can_open (fs σ') p.
Proof.
  intros Hcan Hr.
  destruct (save_metadata_exact p metadata σ Hcan) as (σ1 & Hr1 & _ & Hs).
  rewrite Hr1 in Hr. injection Hr as ->.
  pose proof Hcan as (Hne & _ & _).
  apply can_open_in_dir; [done| |].
  - unfold FS.is_dir. rewrite Hs, decide_False by by apply parent_ne.
    destruct (FS.stat (fs σ) (parent p)) as [[d|]|] eqn:He; [|done|].
    + destruct (can_open_parent _ _ Hcan). by exists d.
    + by rewrite decide_True.
  - unfold FS.is_dir. by rewrite Hs, decide_True.
Qed.

(** ** File names made from a date *)

Lemma string_length_append (a b : string) :
  String.length (a +:+ b) = String.length a + String.length b.
Proof. induction a as [|c a IH]; [done|]. rewrite append_cons. simpl. by rewrite IH. Qed.

Lemma append_inj_suffix (a b s : string) : a +:+ s = b +:+ s → a = b.
Proof.
  revert b. induction a as [|c a IH]; intros [|c' b] H.
  - done.
  - apply (f_equal String.length) in H. rewrite !string_length_append in H. simpl in H. lia.
  - apply (f_equal String.length) in H. rewrite !string_length_append in H. simpl in H. lia.
  - rewrite !append_cons in H. injection H as -> H. f_equal. by apply IH.
Qed.

Lemma png_is_not_json (a b : string) : a +:+ ".png" ≠ b +:+ ".json".
Proof.
  revert b. induction a as [|c a IH]; intros b H.
  - apply (f_equal String.length) in H. rewrite !string_length_append in H. simpl in H. lia.
  - destruct b as [|c' b].
    + destruct a as [|c2 a]; [done|].
      apply (f_equal String.length) in H. rewrite !append_cons in H. simpl in H.
      rewrite string_length_append in H. simpl in H. lia.
    + rewrite !append_cons in H. injection H as -> H. by apply (IH b).
Qed.

Lemma append_inj_prefix (s a b : string) : s +:+ a = s +:+ b → a = b.
Proof.
  induction s as [|c s IH]; [done|]. rewrite !append_cons. intros H. injection H as H. auto.
Qed.

Lemma worldview_names_of_a_date date :
  "worldview_truecolor_" +:+ date +:+ ".png" ≠ "worldview_truecolor_" +:+ date +:+ ".json".
Proof. intros H%append_inj_prefix. by apply png_is_not_json in H. Qed.

Lemma worldview_png_of_inj date1 date2 :
  worldview_png_of date1 = worldview_png_of date2 → date1 = date2.
Proof. by intros H%child_inj%append_inj_prefix%append_inj_suffix. Qed.

Lemma worldview_json_of_inj date1 date2 :
  worldview_json_of date1 = worldview_json_of date2 → date1 = date2.
Proof. by intros H%child_inj%append_inj_prefix%append_inj_suffix. Qed.

Lemma worldview_png_is_not_json date1 date2 :
  worldview_png_of date1 ≠ worldview_json_of date2.
Proof. intros H%child_inj%append_inj_prefix. by apply png_is_not_json in H. Qed.

(** ** The candidate that was fetched *)

Section FetchedCandidate.
Variable net : list event → string → response.

Lemma attempts_fetched urls σ j σ1 :
  attempts net urls σ (replicate j false ++ [true]) σ1 →
  ∃ url τ status_code chunks,
    urls !! j = Some url ∧ length urls = S j ∧
    requested τ = take j urls ∧
    net (trace σ ++ τ) url = Response status_code chunks None ∧
    FS.stat (fs σ1) wri_csv = Some (FS.EFile (body_of chunks)).
Proof.
  revert urls σ. induction j as [|j IH]; intros urls σ Hat; simpl in Hat.
  - inversion Hat as [|url rest σa b σb bs σc Hrun Hrest]; subst.
    inversion Hrest; subst.
    destruct (http_download_fetch net url wri_csv timeout_seconds_default σ)
      as (b & σ' & Hr & Hf).
    rewrite Hrun in Hr. injection Hr as <- <-.
    apply fetch_true_data in Hf as (st & chunks & Hnet & Hs).
    exists url, [], st, chunks. rewrite app_nil_r. done.
  - inversion Hat as [|url rest σa b σb bs σc Hrun Hrest]; subst.
    destruct (IH _ _ Hrest) as (u & τ & st & chunks & Hu & Hlen & Hq & Hnet & Hs).
    destruct (http_download_fetch net url wri_csv timeout_seconds_default σ)
      as (b & σ' & Hr & Hf).
    rewrite Hrun in Hr. injection Hr as <- <-.
    destruct (fetch_emitted net _ _ _ _ _ _ Hf) as (τ0 & Ht0 & Hq0 & _).
    exists u, (τ0 ++ τ), st, chunks. simpl. rewrite Hlen.
    do 2 (split; [done|]).
    split; [by rewrite requested_app, Hq0, Hq|].
    split; [|done]. by rewrite app_assoc, <- Ht0.
Qed.

End FetchedCandidate.

(** ** When the placeholder writer fails, and the order of its writes *)

Lemma placeholders_unblocked items σ σ1 :
  for_each items write_placeholder σ = (Ok tt, σ1) →
  items ≠ [] →
  ¬ FS.is_file (fs σ) DATA_DIR ∧
  Forall (λ folder, ¬ FS.is_file (fs σ) (DATA_DIR // folder)) items.*1.
Proof.
  revert σ. induction items as [|[f t] items IH]; intros σ Hrun Hne; [done|].
  rewrite run_for_each_cons in Hrun.
  destruct (write_placeholder (f, t) σ) as [[[]|e] σ'] eqn:Hw; [|discriminate].
  pose proof (write_placeholder_evolves _ _ _ _ _ Hw) as Hev.
  assert (¬ FS.is_file (fs σ) DATA_DIR ∧ ¬ FS.is_file (fs σ) (DATA_DIR // f)) as [Hd Hf].
  { destruct (write_placeholder_run f t σ)
      as [[[e He] _]|[(_ & ? & ? & _)|(_ & _ & p & Hr)]]; [|done|rewrite Hw in Hr; discriminate].
    assert (FS.is_dir (fs σ) (DATA_DIR // f)) as Hdir by (eapply FSFacts.stat_snoc; exact He).
    assert (FS.is_dir (fs σ) DATA_DIR) as Hdata by (eapply FSFacts.stat_snoc; exact Hdir).
    unfold FS.is_dir, FS.is_file in *. split; intros [d Hd]; congruence. }
  split; [done|]. simpl. constructor; [done|].
  destruct items as [|i items']; [constructor|].
  destruct (IH σ' Hrun) as [_ Hall]; [done|].
  eapply Forall_impl; [exact Hall|]. intros g Hg Hfile. apply Hg.
  by apply (ev_file_stay _ _ _ _ Hev).
Qed.

Lemma placeholders_written_in_order items σ r σ1 :
  for_each items write_placeholder σ = (r, σ1) →
  ∃ τ, trace σ1 = trace σ ++ τ ∧
       written τ `sublist_of` (placeholder_readme <$> items.*1).
Proof.
  revert σ. induction items as [|[f t] items IH]; intros σ Hrun.
  - injection Hrun as <- <-. exists []. by rewrite app_nil_r.
  - rewrite run_for_each_cons in Hrun.
    destruct (write_placeholder_run f t σ)
      as [[_ Hr]|[(_ & _ & _ & σ' & Hr & Ht & _)|(_ & _ & p & Hr)]];
      rewrite Hr in Hrun.
    + destruct (IH _ Hrun) as (τ & Hτ & Hsub). exists τ. split; [done|].
      simpl. by apply sublist_cons.
    + destruct (IH _ Hrun) as (τ & Hτ & Hsub). exists (EWrite (placeholder_readme f) :: τ).
      split; [by rewrite Hτ, Ht, <- app_assoc|]. simpl. by apply sublist_skip.
    + injection Hrun as <- <-. exists []. rewrite app_nil_r. split; [done|].
      apply sublist_nil_l.
Qed.

(** ** The driver, with the trace of each callee *)

Section Traced.
Variable net : list event → string → response.

Lemma stage_then_traced {B} F f body ok_line skip_line successes (k : Z → prog B) σ :
  stays_within F body →
  ∃ τ o σb,
    called body (fs σ) τ o σb ∧
    (stage f body ok_line skip_line successes ≫= k) σ =
      match o with
      | Raised e =>
          (Raised e, World (fs σb)
                       (trace σ ++ stage_trace f ok_line skip_line successes τ o))
      | Ok _ =>
          k (stage_count successes o)
            (World (fs σb) (trace σ ++ stage_trace f ok_line skip_line successes τ o))
      end.
Proof.
  intros Hstay. rewrite run_bind, stage_run.
  destruct (Hstay (after_call f σ)) as [(τ & Ht & Hτ) Hev].
  destruct (body (after_call f σ)) as [o σb] eqn:Hb. simpl in *.
  exists τ, o, σb. split; [by exists (after_call f σ)|].
  destruct o as [[p|]|e]; simpl.
  - do 2 f_equal. unfold stage_trace. rewrite Ht, <- !app_assoc. done.
  - do 2 f_equal. unfold stage_trace. rewrite Ht, <- !app_assoc. done.
  - destruct σb as [t tr]. simpl in *. unfold stage_trace.
    rewrite Ht, <- app_assoc. simpl. by rewrite app_nil_r.
Qed.

Lemma call_then_traced {B} F f body (k : option path → prog B) σ :
  stays_within F body →
  ∃ τ o σb,
    called body (fs σ) τ o σb ∧
    (call f body ≫= k) σ =
      match o with
      | Raised e => (Raised e, World (fs σb) (trace σ ++ ECall f :: τ))
      | Ok r => k r (World (fs σb) (trace σ ++ ECall f :: τ ++ [EReturn f r]))
      end.
Proof.
  intros Hstay. unfold call. rewrite !run_bind, run_emit. fold (after_call f σ).
  rewrite run_bind.
  destruct (Hstay (after_call f σ)) as [(τ & Ht & Hτ) Hev].
  destruct (body (after_call f σ)) as [o σb] eqn:Hb. simpl in *.
  exists τ, o, σb. split; [by exists (after_call f σ)|].
  destruct o as [r|e].
  - rewrite run_bind, run_emit, run_mret. do 2 f_equal.
    rewrite Ht, <- !app_assoc. done.
  - destruct σb as [t tr]. simpl in *. by rewrite Ht, <- app_assoc.
Qed.

End Traced.

Tactic Notation "run_stage_traced" constr(F) constr(Hstay) "in" hyp(H)
    "as" simple_intropattern(pat) :=
  lazymatch type of H with
  | context [mbind ?k (stage ?f ?b ?ok ?skip ?s) ?σ0] =>
      destruct (stage_then_traced F f b ok skip s k σ0 Hstay) as pat
  end.

Section TracedRun.
Variable net : list event → string → response.

Ltac trace_is :=
  unfold driver_trace, stage_trace; simpl; rewrite <- ?app_assoc; simpl;
  rewrite ?app_nil_r, <- ?app_assoc; simpl; reflexivity.

(** Every run of [main], with what each callee left in the trace and the
    file system the run ends on. *)
Lemma main_run_traced σ :
  ∃ τ1 o1 σ1 τ2 o2 σ2 τ3 o3 σ3 τ4 o4 σ4 σ',
    main net σ = (driver_result o1 o2 o3 o4, σ') ∧
    trace σ' = trace σ ++ driver_trace τ1 o1 τ2 o2 τ3 o3 τ4 o4 ∧
    called (download_worldview_sample net date_default) (fs σ) τ1 o1 σ1 ∧
    match o1 with
    | Raised _ => fs σ' = fs σ1
    | Ok _ =>
        called (download_earth_observatory_sample net) (fs σ1) τ2 o2 σ2 ∧
        match o2 with
        | Raised _ => fs σ' = fs σ2
        | Ok _ =>
            called (download_wri_sample net) (fs σ2) τ3 o3 σ3 ∧
            match o3 with
            | Raised _ => fs σ' = fs σ3
            | Ok _ => called placeholders_call (fs σ3) τ4 o4 σ4 ∧ fs σ' = fs σ4
            end
        end
    end.
Proof.
  destruct (main net σ) as [res σ'] eqn:Hres.
  rewrite main_stages, run_bind, run_print, run_bind, run_set_successes in Hres.
  run_stage_traced worldview_footprint (stays_download_worldview_sample net) in Hres
    as (τ1 & o1 & σ1 & Hc1 & Hrun1).
  rewrite Hrun1 in Hres. clear Hrun1. simpl in Hc1.
  exists τ1, o1, σ1.
  destruct o1 as [r1|e1].
  2:{ injection Hres as <- <-.
      exists [], (Raised e1), σ1, [], (Raised e1), σ1, [], (Raised e1), σ1.
      eexists. split; [done|]. split; [trace_is|]. done. }
  run_stage_traced earth_observatory_footprint (stays_download_earth_observatory_sample net) in Hres
    as (τ2 & o2 & σ2 & Hc2 & Hrun2).
  rewrite Hrun2 in Hres. clear Hrun2. simpl in Hc2.
  exists τ2, o2, σ2.
  destruct o2 as [r2|e2].
  2:{ injection Hres as <- <-.
      exists [], (Raised e2), σ2, [], (Raised e2), σ2.
      eexists. split; [done|]. split; [trace_is|]. done. }
  run_stage_traced (wri_footprint candidates) (stays_download_wri_sample net) in Hres
    as (τ3 & o3 & σ3 & Hc3 & Hrun3).
  rewrite Hrun3 in Hres. clear Hrun3. simpl in Hc3.
  exists τ3, o3, σ3.
  destruct o3 as [r3|e3].
  2:{ injection Hres as <- <-.
      exists [], (Raised e3), σ3.
      eexists. split; [done|]. split; [trace_is|]. done. }
  lazymatch type of Hres with
  | context [mbind ?k (call ?f ?b) ?σ0] =>
      destruct (call_then_traced (placeholders_footprint placeholders) f b k σ0
                  stays_placeholders_call)
        as (τ4 & o4 & σ4 & Hc4 & Hrun4)
  end.
  rewrite Hrun4 in Hres. clear Hrun4. simpl in Hc4.
  exists τ4, o4, σ4.
  destruct o4 as [r4|e4].
  2:{ injection Hres as <- <-.
      eexists. split; [done|]. split; [trace_is|]. done. }
  rewrite run_bind, run_print, run_bind, run_print, run_mret in Hres.
  injection Hres as <- <-.
  eexists. split; [done|]. split; [trace_is|]. done.
Qed.

End TracedRun.

(** ** What each callee leaves in the trace *)

Section SourceTraces.
Variable net : list event → string → response.

Lemma fetch_trace url p timeout σ b σ' :
  fetch net url p timeout σ b σ' →
  ∃ τ, trace σ' = trace σ ++ τ ∧ requested τ = [url] ∧
       (if b then printed τ = [] else ∃ e, printed τ = [diagnostic url e]) ∧
       (b = true → written τ = [p]).
Proof.
  intros Hf.
  inversion Hf as [st chunks σx Hnet Hst Hcan Ht Hs|st chunks detail σx Hnet Hst Hcan Ht Hs
                  |e σx Href Hfs Ht]; subst; eexists; (split; [exact Ht|]);
    (split; [done|]); simpl; (split; [eauto|done]).
Qed.

Lemma fetch_with_sidecar_trace folder url data_name json_name metadata σ o σ' :
  data_name ≠ json_name →
  fetch_with_sidecar net folder url data_name json_name metadata σ = (o, σ') →
  ∃ τ, trace σ' = trace σ ++ τ ∧ source_trace url o τ.
Proof.
  intros Hne Hrun.
  destruct (fetch_with_sidecar_run net folder url data_name json_name metadata σ Hne)
    as [[Hr _]|(_ & σ1 & b & σ2 & _ & Ht1 & _ & _ & Hf & _ & Hcase)].
  { rewrite Hrun in Hr. injection Hr as -> ->. exists []. rewrite app_nil_r.
    split; [done|]. split; by left. }
  destruct (fetch_trace _ _ _ _ _ _ Hf) as (τ & Ht & Hq & Hp & _). rewrite Ht1 in Ht.
  destruct Hcase as [[-> Hr]|[(-> & _ & σ3 & Hr & Ht3 & _)|(-> & _ & p' & Hr)]];
    rewrite Hrun in Hr; injection Hr as -> ->.
  - exists τ. done.
  - exists (τ ++ [EWrite (DATA_DIR // folder // json_name)]).
    split; [by rewrite Ht3, Ht, app_assoc|]. simpl.
    rewrite requested_app, printed_app, Hp. simpl. by rewrite app_nil_r.
  - exists τ. split; [done|]. split; [by right|by left].
Qed.

Lemma download_wri_sample_trace σ o σ' :
  download_wri_sample net σ = (o, σ') →
  ∃ τ, trace σ' = trace σ ++ τ ∧ source_trace wri_url o τ.
Proof.
  intros Hrun. unfold download_wri_sample in Hrun.
  destruct (download_wri_sample_from_cases net candidates σ)
    as [[Hr _]|(σ0 & k & bs & σ1 & τ1 & Hens & Ht0 & Hat & Ht1 & Hq1 & _ & _ & _ & _ & _ & Hcase)];
    simpl in *.
  { rewrite Hrun in Hr. injection Hr as -> ->. exists []. rewrite app_nil_r.
    split; [done|]. split; by left. }
  assert (∃ b, k = 1 ∧ bs = [b]) as (b & -> & ->).
  { destruct Hcase as [(-> & -> & _)|(j & url & -> & Hu & -> & _)]; [by exists false|].
    destruct j as [|j]; [by exists true|done]. }
  change (attempts net [wri_url] σ0 [b] σ1) in Hat.
  apply attempts_singleton in Hat.
  destruct (fetch_trace _ _ _ _ _ _ Hat) as (τ & Ht & Hq & Hp & _). rewrite Ht0 in Ht.
  rewrite Ht1 in Ht. apply app_inv_head in Ht as ->.
  destruct Hcase as [(_ & Hb & [(σ2 & Hr & Ht2 & _)|[Hr _]])
                    |(j & url & Hk & _ & Hb & _ & [(σ2 & Hr & Ht2 & _)|(_ & p' & Hr)])];
    rewrite Hrun in Hr; injection Hr as -> ->.
  - injection Hb as ->. exists (τ ++ [EWrite wri_readme]).
    split; [by rewrite Ht2, Ht1, app_assoc|]. simpl.
    rewrite requested_app, printed_app. simpl. rewrite !app_nil_r. done.
  - injection Hb as ->. exists τ. split; [done|]. split; by right.
  - assert (j = 0) as -> by lia. injection Hb as ->.
    exists (τ ++ [EWrite wri_json]).
    split; [by rewrite Ht2, Ht1, app_assoc|]. simpl.
    rewrite requested_app, printed_app, Hp. simpl. by rewrite app_nil_r.
  - assert (j = 0) as -> by lia. injection Hb as ->.
    exists τ. split; [done|]. split; [by right|by left].
Qed.

Lemma called_worldview t τ o σ1 :
  called (download_worldview_sample net date_default) t τ o σ1 →
  source_trace (wms_url date_default) o τ ∧
  Forall (allowed worldview_footprint) τ ∧
  fs_evolves (fp_files worldview_footprint) (fp_dirs worldview_footprint) t (fs σ1).
Proof.
  intros (σa & <- & Hrun & Ht).
  pose proof (stays_run _ _ _ _ _ (stays_download_worldview_sample net) Hrun)
    as [(τ' & Ht' & Hall) Hev].
  rewrite Ht in Ht'. apply app_inv_head in Ht' as <-.
  split; [|done].
  rewrite download_worldview_sample_shape in Hrun.
  destruct (fetch_with_sidecar_trace _ _ _ _ _ _ _ _ worldview_names_differ Hrun)
    as (τ' & Ht' & Hsrc).
  rewrite Ht in Ht'. by apply app_inv_head in Ht' as <-.
Qed.

Lemma called_earth_observatory t τ o σ1 :
  called (download_earth_observatory_sample net) t τ o σ1 →
  source_trace earth_observatory_url o τ ∧
  Forall (allowed earth_observatory_footprint) τ ∧
  fs_evolves (fp_files earth_observatory_footprint) (fp_dirs earth_observatory_footprint)
    t (fs σ1).
Proof.
  intros (σa & <- & Hrun & Ht).
  pose proof (stays_run _ _ _ _ _ (stays_download_earth_observatory_sample net) Hrun)
    as [(τ' & Ht' & Hall) Hev].
  rewrite Ht in Ht'. apply app_inv_head in Ht' as <-.
  split; [|done].
  rewrite download_earth_observatory_sample_shape in Hrun.
  assert ("sample_earth_observatory.jpg" ≠ "sample_earth_observatory.json") as Hne by done.
  destruct (fetch_with_sidecar_trace _ _ _ _ _ _ _ _ Hne Hrun) as (τ' & Ht' & Hsrc).
  rewrite Ht in Ht'. by apply app_inv_head in Ht' as <-.
Qed.

Lemma called_wri t τ o σ1 :
  called (download_wri_sample net) t τ o σ1 →
  source_trace wri_url o τ ∧
  Forall (allowed (wri_footprint candidates)) τ ∧
  fs_evolves (fp_files (wri_footprint candidates)) (fp_dirs (wri_footprint candidates))
    t (fs σ1).
Proof.
  intros (σa & <- & Hrun & Ht).
  pose proof (stays_run _ _ _ _ _ (stays_download_wri_sample net) Hrun)
    as [(τ' & Ht' & Hall) Hev].
  rewrite Ht in Ht'. apply app_inv_head in Ht' as <-.
  split; [|done].
  destruct (download_wri_sample_trace _ _ _ Hrun) as (τ' & Ht' & Hsrc).
  rewrite Ht in Ht'. by apply app_inv_head in Ht' as <-.
Qed.

End SourceTraces.

Lemma called_placeholders t τ o σ1 :
  called placeholders_call t τ o σ1 →
  requested τ = [] ∧ printed τ = [] ∧ (is_ok o → o = Ok None) ∧
  Forall (allowed (placeholders_footprint placeholders)) τ ∧
  fs_evolves (fp_files (placeholders_footprint placeholders))
    (fp_dirs (placeholders_footprint placeholders)) t (fs σ1).
Proof.
  intros (σa & <- & Hrun & Ht).
  pose proof (stays_run _ _ _ _ _ stays_placeholders_call Hrun) as [(τ' & Ht' & Hall) Hev].
  rewrite Ht in Ht'. apply app_inv_head in Ht' as <-.
  unfold placeholders_call, write_placeholders_for_sedac_worldpop_ghsl_copernicus_eotoolkit in Hrun.
  rewrite run_bind in Hrun.
  destruct (for_each placeholders write_placeholder σa) as [[[]|e] σx] eqn:Hfor.
  - rewrite run_mret in Hrun. injection Hrun as <- <-.
    destruct (placeholders_emitted _ _ _ _ Hfor) as (τ' & Ht' & Hq & Hp & _).
    rewrite Ht in Ht'. apply app_inv_head in Ht' as <-. done.
  - injection Hrun as <- <-.
    destruct (placeholders_emitted _ _ _ _ Hfor) as (τ' & Ht' & Hq & Hp & _).
    rewrite Ht in Ht'. apply app_inv_head in Ht' as <-. done.
Qed.

(** ** The driver as a whole *)

Lemma worldview_in_main :
  fp_files worldview_footprint ⊆ main_files ∧ fp_dirs worldview_footprint ⊆ main_dirs.
Proof. split; apply (bool_decide_unpack _); by vm_compute. Qed.

Lemma earth_observatory_in_main :
  fp_files earth_observatory_footprint ⊆ main_files ∧
  fp_dirs earth_observatory_footprint ⊆ main_dirs.
Proof. split; apply (bool_decide_unpack _); by vm_compute. Qed.

Lemma wri_in_main :
  fp_files (wri_footprint candidates) ⊆ main_files ∧
  fp_dirs (wri_footprint candidates) ⊆ main_dirs.
Proof. split; apply (bool_decide_unpack _); by vm_compute. Qed.

Lemma placeholders_in_main :
  fp_files (placeholders_footprint placeholders) ⊆ main_files ∧
  fp_dirs (placeholders_footprint placeholders) ⊆ main_dirs.
Proof. split; apply (bool_decide_unpack _); by vm_compute. Qed.

Lemma requested_driver_trace τ1 o1 τ2 o2 τ3 o3 τ4 o4 :
  requested (driver_trace τ1 o1 τ2 o2 τ3 o3 τ4 o4) =
  requested τ1 ++
  match o1 with
  | Raised _ => []
  | Ok _ =>
      requested τ2 ++
      match o2 with
      | Raised _ => []
      | Ok _ =>
          requested τ3 ++ match o3 with Raised _ => [] | Ok _ => requested τ4 end
      end
  end.
Proof.
  unfold driver_trace, stage_trace, requested.
  destruct o1 as [[?|]|?], o2 as [[?|]|?], o3 as [[?|]|?], o4 as [?|?];
    repeat (simpl; rewrite ?omap_app); rewrite ?app_nil_r, <- ?app_assoc; reflexivity.
Qed.

Lemma written_driver_trace τ1 o1 τ2 o2 τ3 o3 τ4 o4 :
  written (driver_trace τ1 o1 τ2 o2 τ3 o3 τ4 o4) =
  written τ1 ++
  match o1 with
  | Raised _ => []
  | Ok _ =>
      written τ2 ++
      match o2 with
      | Raised _ => []
      | Ok _ =>
          written τ3 ++ match o3 with Raised _ => [] | Ok _ => written τ4 end
      end
  end.
Proof.
  unfold driver_trace, stage_trace, written.
  destruct o1 as [[?|]|?], o2 as [[?|]|?], o3 as [[?|]|?], o4 as [?|?];
    repeat (simpl; rewrite ?omap_app); rewrite ?app_nil_r, <- ?app_assoc; reflexivity.
Qed.

Section MainAsAWhole.
Variable net : list event → string → response.

Lemma main_evolves σ : fs_evolves main_files main_dirs (fs σ) (fs (main net σ).2).
Proof.
  destruct (main_run_traced net σ)
    as (τ1 & o1 & σ1 & τ2 & o2 & σ2 & τ3 & o3 & σ3 & τ4 & o4 & σ4 & σ' &
        Hrun & _ & Hc1 & Hrest).
  rewrite Hrun. simpl.
  apply called_worldview in Hc1 as (_ & _ & Hev1).
  apply (fs_evolves_weaken _ _ main_files main_dirs) in Hev1; [|apply worldview_in_main..].
  destruct o1 as [r1|e1]; [|by rewrite Hrest].
  destruct Hrest as [Hc2 Hrest].
  apply called_earth_observatory in Hc2 as (_ & _ & Hev2).
  apply (fs_evolves_weaken _ _ main_files main_dirs) in Hev2;
    [|apply earth_observatory_in_main..].
  pose proof (fs_evolves_trans _ _ _ _ _ Hev1 Hev2) as Hev12.
  destruct o2 as [r2|e2]; [|by rewrite Hrest].
  destruct Hrest as [Hc3 Hrest].
  apply called_wri in Hc3 as (_ & _ & Hev3).
  apply (fs_evolves_weaken _ _ main_files main_dirs) in Hev3; [|apply wri_in_main..].
  pose proof (fs_evolves_trans _ _ _ _ _ Hev12 Hev3) as Hev13.
  destruct o3 as [r3|e3]; [|by rewrite Hrest].
  destruct Hrest as [Hc4 ->].
  apply called_placeholders in Hc4 as (_ & _ & _ & _ & Hev4).
  apply (fs_evolves_weaken _ _ main_files main_dirs) in Hev4; [|apply placeholders_in_main..].
  exact (fs_evolves_trans _ _ _ _ _ Hev13 Hev4).
Qed.

Lemma main_requests σ :
  ∃ τ, trace (main net σ).2 = trace σ ++ τ ∧
       requested τ `prefix_of` [wms_url date_default; earth_observatory_url; wri_url] ∧
       Forall (λ p, p ∈ main_files) (written τ).
Proof.
  destruct (main_run_traced net σ)
    as (τ1 & o1 & σ1 & τ2 & o2 & σ2 & τ3 & o3 & σ3 & τ4 & o4 & σ4 & σ' &
        Hrun & Ht & Hc1 & Hrest).
  rewrite Hrun. simpl. eexists. split; [exact Ht|].
  rewrite requested_driver_trace, written_driver_trace.
  apply called_worldview in Hc1 as (Hs1 & Hw1%allowed_written & _).
  assert (Forall (λ p, p ∈ main_files) (written τ1)) as Hm1.
  { eapply Forall_impl; [exact Hw1|]. intros p. apply worldview_in_main. }
  destruct o1 as [r1|e1].
  2:{ rewrite !app_nil_r. split; [|done].
      destruct Hs1 as [[->| ->] _]; [apply prefix_nil|]. by exists [earth_observatory_url; wri_url]. }
  assert (requested τ1 = [wms_url date_default]) as -> by (by destruct r1, Hs1).
  destruct Hrest as [Hc2 Hrest].
  apply called_earth_observatory in Hc2 as (Hs2 & Hw2%allowed_written & _).
  assert (Forall (λ p, p ∈ main_files) (written τ2)) as Hm2.
  { eapply Forall_impl; [exact Hw2|]. intros p. apply earth_observatory_in_main. }
  destruct o2 as [r2|e2].
  2:{ rewrite !app_nil_r. split; [|by apply Forall_app_2].
      destruct Hs2 as [[->| ->] _]; [by exists [earth_observatory_url; wri_url]|].
      by exists [wri_url]. }
  assert (requested τ2 = [earth_observatory_url]) as -> by (by destruct r2, Hs2).
  destruct Hrest as [Hc3 Hrest].
  apply called_wri in Hc3 as (Hs3 & Hw3%allowed_written & _).
  assert (Forall (λ p, p ∈ main_files) (written τ3)) as Hm3.
  { eapply Forall_impl; [exact Hw3|]. intros p. apply wri_in_main. }
  destruct o3 as [r3|e3].
  2:{ rewrite !app_nil_r. split; [|by repeat apply Forall_app_2].
      destruct Hs3 as [[->| ->] _]; [by exists [wri_url]|]. by exists []. }
  assert (requested τ3 = [wri_url]) as -> by (by destruct r3, Hs3).
  destruct Hrest as [Hc4 _].
  apply called_placeholders in Hc4 as (-> & _ & _ & Hw4%allowed_written & _).
  assert (Forall (λ p, p ∈ main_files) (written τ4)) as Hm4.
  { eapply Forall_impl; [exact Hw4|]. intros p. apply placeholders_in_main. }
  split; [by exists []|]. by repeat apply Forall_app_2.
Qed.

End MainAsAWhole.

(** ** Running the script again *)

Lemma shallow_main : shallow main_footprint.
Proof. split; apply (bool_decide_unpack _); by vm_compute. Qed.

Lemma main_keeps_unobstructed net σ :
  unobstructed (fs σ) → unobstructed (fs (main net σ).2).
Proof.
  intros HU. eapply (unobstructed_evolves main_footprint); [apply shallow_main| |exact HU].
  apply main_evolves.
Qed.

Lemma rerun_keeps_unobstructed nets σ :
  unobstructed (fs σ) → unobstructed (fs (rerun nets σ)).
Proof.
  revert σ. induction nets as [|net nets IH]; intros σ HU; [done|].
  simpl. by apply IH, main_keeps_unobstructed.
Qed.

(** ** A complete run *)

Lemma files_after_on_disk net σ σ' url data json metadata r :
  files_after net σ σ' url data json metadata r →
  source_on_disk (fs σ) (fs σ') data json metadata r.
Proof.
  destruct r as [p|]; simpl.
  - intros (-> & (st & chunks & _ & Hs) & Hj). split; [done|]. split; [by eexists|done].
  - by intros [Hj _].
Qed.

(** A step leaves alone every file that is not in its footprint. *)
Lemma untouched_by_step F t t' q :
  shallow F → length q = 3 → q ∉ fp_files F →
  fs_evolves (fp_files F) (fp_dirs F) t t' →
  FS.stat t' q = FS.stat t q.
Proof.
  intros [_ HD] Hq Hnot Hev. eapply fs_evolves_unchanged; [done..|].
  intros p Hin Hpre%prefix_length. rewrite Forall_forall in HD. apply HD in Hin. lia.
Qed.

Lemma source_on_disk_framed t t1 t2 t' data json metadata r :
  FS.stat t1 json = FS.stat t json →
  source_on_disk t1 t2 data json metadata r →
  FS.stat t' data = FS.stat t2 data →
  FS.stat t' json = FS.stat t2 json →
  source_on_disk t t' data json metadata r.
Proof.
  intros H0 Hs Hd Hj. destruct r as [p|]; simpl in *.
  - destruct Hs as (-> & Hfile & Hs). split; [done|]. unfold FS.is_file. by rewrite Hd, Hj.
  - by rewrite Hj, Hs.
Qed.

Lemma source_trace_lines url r τ :
  source_trace url (Ok r) τ → failure_lines url r (printed τ).
Proof. destruct r; simpl; by intros [_ ?]. Qed.

Section CompleteRun.
Variable net : list event → string → response.

Lemma main_complete_run σ :
  unobstructed (fs σ) →
  ∃ τ1 r1 σ1 τ2 r2 σ2 τ3 r3 σ3 τ4 σ4 σ',
    main net σ = (Ok 0%Z, σ') ∧
    trace σ' = trace σ ++ driver_trace τ1 (Ok r1) τ2 (Ok r2) τ3 (Ok r3) τ4 (Ok None) ∧
    called (download_worldview_sample net date_default) (fs σ) τ1 (Ok r1) σ1 ∧
    called (download_earth_observatory_sample net) (fs σ1) τ2 (Ok r2) σ2 ∧
    called (download_wri_sample net) (fs σ2) τ3 (Ok r3) σ3 ∧
    called placeholders_call (fs σ3) τ4 (Ok None) σ4 ∧
    fs σ' = fs σ4.
Proof.
  intros HU.
  destruct (main_unobstructed net σ HU) as (? & ? & ? & ? & ? & ? & ? & σ'' & Hok & _).
  destruct (main_run_traced net σ)
    as (τ1 & o1 & σ1 & τ2 & o2 & σ2 & τ3 & o3 & σ3 & τ4 & o4 & σ4 & σ' &
        Hrun & Ht & Hc1 & Hrest).
  rewrite Hrun in Hok.
  destruct o1 as [r1|e1]; [|discriminate]. destruct Hrest as [Hc2 Hrest].
  destruct o2 as [r2|e2]; [|discriminate]. destruct Hrest as [Hc3 Hrest].
  destruct o3 as [r3|e3]; [|discriminate]. destruct Hrest as [Hc4 Hfs].
  destruct o4 as [r4|e4]; [|discriminate].
  pose proof (called_placeholders _ _ _ _ Hc4) as (_ & _ & Hnone & _).
  assert (r4 = None) as -> by (by injection (Hnone I)).
  exists τ1, r1, σ1, τ2, r2, σ2, τ3, r3, σ3, τ4, σ4, σ'. done.
Qed.

End CompleteRun.

(** ** The lines of every run *)

Lemma printed_driver_trace τ1 o1 τ2 o2 τ3 o3 τ4 o4 :
  printed (driver_trace τ1 o1 τ2 o2 τ3 o3 τ4 o4) =
  header_line :: printed τ1 ++
  match o1 with
  | Raised _ => []
  | Ok r1 =>
      status_line name_worldview r1 :: printed τ2 ++
      match o2 with
      | Raised _ => []
      | Ok r2 =>
          status_line name_earth_observatory r2 :: printed τ3 ++
          match o3 with
          | Raised _ => []
          | Ok r3 =>
              status_line name_wri r3 :: printed τ4 ++
              match o4 with
              | Raised _ => []
              | Ok _ => [placeholders_line; completed_line (count_paths [r1; r2; r3])]
              end
          end
      end
  end.
Proof.
  unfold driver_trace, stage_trace, printed.
  destruct o1 as [[?|]|?], o2 as [[?|]|?], o3 as [[?|]|?], o4 as [?|?];
    repeat (simpl; rewrite ?omap_app); rewrite ?app_nil_r, <- ?app_assoc; reflexivity.
Qed.

Lemma progress_status_line f r : progress_line (status_line f r).
Proof.
  unfold progress_line, status_line.
  destruct (decide (f = name_worldview)), (decide (f = name_earth_observatory)), (truthy r);
    discriminate.
Qed.

Lemma progress_diagnostic url e : progress_line (diagnostic url e).
Proof. discriminate. Qed.

Lemma count_line_is_no_progress_line n : ¬ progress_line (completed_line n).
Proof. intros H. by apply H. Qed.

Lemma source_trace_progress url o τ :
  source_trace url o τ → Forall progress_line (printed τ).
Proof.
  destruct o as [[p|]|e]; simpl.
  - intros [_ ->]. constructor.
  - intros [_ [e ->]]. repeat constructor. apply progress_diagnostic.
  - intros [_ [->|[e' ->]]]; repeat constructor. apply progress_diagnostic.
Qed.

Lemma progress_header_line : progress_line header_line.
Proof. discriminate. Qed.

Lemma progress_placeholders_line : progress_line placeholders_line.
Proof. discriminate. Qed.

(** ** The writes of a source that writes its sidecar *)

Section SidecarLast.
Variable net : list event → string → response.

Lemma fetch_with_sidecar_writes folder url data_name json_name metadata σ o σ' τ :
  data_name ≠ json_name →
  fetch_with_sidecar net folder url data_name json_name metadata σ = (o, σ') →
  trace σ' = trace σ ++ τ →
  DATA_DIR // folder // json_name ∈ written τ →
  o = Ok (Some (DATA_DIR // folder // data_name)) ∧
  written τ = [DATA_DIR // folder // data_name; DATA_DIR // folder // json_name] ∧
  FS.is_file (fs σ') (DATA_DIR // folder // data_name).
Proof.
  intros Hne Hrun Ht Hin.
  assert (DATA_DIR // folder // json_name ≠ DATA_DIR // folder // data_name) as Hpaths
    by (intros H%child_inj; done).
  destruct (fetch_with_sidecar_run net folder url data_name json_name metadata σ Hne)
    as [[Hr _]|(_ & σ1 & b & σ2 & _ & Ht1 & _ & _ & Hf & _ & Hcase)].
  { rewrite Hrun in Hr. injection Hr as -> ->.
    rewrite <- (app_nil_r (trace σ)) in Ht at 1. apply app_inv_head in Ht as <-.
    by apply elem_of_nil in Hin. }
  destruct (fetch_emitted net _ _ _ _ _ _ Hf) as (τ0 & Ht0 & _ & Hw & _).
  destruct (fetch_trace net _ _ _ _ _ _ Hf) as (τ0' & Ht0' & _ & _ & Hwt).
  rewrite Ht0 in Ht0'. apply app_inv_head in Ht0' as <-. rewrite Ht1 in Ht0.
  destruct Hcase as [[-> Hr]|[(-> & _ & σ3 & Hr & Ht3 & _ & Hdata)|(-> & _ & p' & Hr)]];
    rewrite Hrun in Hr; injection Hr as -> ->.
  - rewrite Ht0 in Ht. apply app_inv_head in Ht as <-.
    rewrite Forall_forall in Hw. by apply Hw in Hin.
  - rewrite Ht3, Ht0, <- app_assoc in Ht. apply app_inv_head in Ht as <-.
    split; [done|]. rewrite written_app, (Hwt eq_refl). split; [done|].
    apply fetch_true_data in Hf as (st & chunks & _ & Hs).
    exists (body_of chunks). by rewrite Hdata.
  - rewrite Ht0 in Ht. apply app_inv_head in Ht as <-.
    rewrite Forall_forall in Hw. by apply Hw in Hin.
Qed.

Lemma attempts_fetched_last urls σ j σ1 :
  attempts net urls σ (replicate j false ++ [true]) σ1 →
  ∃ url τ status_code chunks,
    urls !! j = Some url ∧
    requested τ = take j urls ∧
    Forall (λ q, q = wri_csv) (written τ) ∧
    net (trace σ ++ τ) url = Response status_code chunks None ∧
    ¬ (400 ≤ status_code < 600)%Z ∧
    trace σ1 = trace σ ++ τ ++ [EGet url true timeout_seconds_default; EWrite wri_csv] ∧
    FS.stat (fs σ1) wri_csv = Some (FS.EFile (body_of chunks)).
Proof.
  revert urls σ. induction j as [|j IH]; intros urls σ Hat; simpl in Hat.
  - inversion Hat as [|url rest σa b σb bs σc Hrun Hrest]; subst.
    inversion Hrest; subst.
    destruct (http_download_fetch net url wri_csv timeout_seconds_default σ)
      as (b & σ' & Hr & Hf).
    rewrite Hrun in Hr. injection Hr as <- <-.
    inversion Hf as [st chunks σ2 Hnet Hst Hcan Ht Hs| |]; subst.
    exists url, [], st, chunks. rewrite app_nil_r. done.
  - inversion Hat as [|url rest σa b σb bs σc Hrun Hrest]; subst.
    destruct (IH _ _ Hrest) as (u & τ & st & chunks & Hu & Hq & Hw & Hnet & Hst & Ht & Hs).
    destruct (http_download_fetch net url wri_csv timeout_seconds_default σ)
      as (b & σ' & Hr & Hf).
    rewrite Hrun in Hr. injection Hr as <- <-.
    destruct (fetch_emitted net _ _ _ _ _ _ Hf) as (τ0 & Ht0 & Hq0 & Hw0 & _).
    exists u, (τ0 ++ τ), st, chunks. simpl.
    split; [done|].
    split; [by rewrite requested_app, Hq0, Hq|].
    split; [rewrite written_app; by apply Forall_app_2|].
    split; [by rewrite app_assoc, <- Ht0|].
    split; [done|].
    split; [|done]. by rewrite Ht, Ht0, <- !app_assoc.
Qed.

Lemma download_wri_sample_from_writes urls σ o σ' τ :
  download_wri_sample_from net urls σ = (o, σ') →
  trace σ' = trace σ ++ τ →
  wri_json ∈ written τ →
  o = Ok (Some wri_csv) ∧
  (∃ w, written τ = w ++ [wri_csv; wri_json] ∧ Forall (λ q, q = wri_csv) w) ∧
  (∃ j url τj status_code chunks,
     urls !! j = Some url ∧
     requested τj = take j urls ∧
     net (trace σ ++ τj) url = Response status_code chunks None ∧
     τ = τj ++ [EGet url true timeout_seconds_default; EWrite wri_csv; EWrite wri_json] ∧
     FS.stat (fs σ') wri_csv = Some (FS.EFile (body_of chunks))) ∧
  FS.is_file (fs σ') wri_csv.
Proof.
  intros Hrun Ht Hin.
  destruct (download_wri_sample_from_cases net urls σ)
    as [[Hr _]|(σ0 & k & bs & σ1 & τ1 & Hens & Ht0 & Hat & Ht1 & Hq1 & Hw1 & _ & _ & _ & _ & Hcase)].
  { rewrite Hrun in Hr. injection Hr as -> ->.
    rewrite <- (app_nil_r (trace σ)) in Ht at 1. apply app_inv_head in Ht as <-.
    by apply elem_of_nil in Hin. }
  assert (wri_json ∉ written τ1) as Hnot1.
  { intros H. rewrite Forall_forall in Hw1. by apply Hw1 in H. }
  destruct Hcase as [(_ & _ & [(σ2 & Hr & Ht2 & _)|[Hr _]])
                    |(j & url & -> & Hurl & -> & Hfile & [(σ2 & Hr & Ht2 & _ & _ & Hcsv)|(_ & p' & Hr)])];
    rewrite Hrun in Hr; injection Hr as -> ->.
  - rewrite Ht2, Ht1, <- app_assoc in Ht. apply app_inv_head in Ht as <-.
    rewrite written_app in Hin. apply elem_of_app in Hin as [?|Hin]; [done|].
    by apply list_elem_of_singleton in Hin.
  - rewrite Ht1 in Ht. by apply app_inv_head in Ht as <-.
  - destruct (attempts_fetched_last _ _ _ _ Hat)
      as (u & τj & st & chunks & Hu & Hqj & Hwj & Hnet & _ & Htj & Hs).
    rewrite Ht0 in Hnet, Htj.
    assert (u = url) as ->.
    { apply lookup_take_Some in Hu as [Hu _]. rewrite Hurl in Hu. by injection Hu. }
    assert (τ = τj ++ [EGet url true timeout_seconds_default; EWrite wri_csv; EWrite wri_json])
      as ->.
    { rewrite Ht2, Htj, <- !app_assoc in Ht. by apply app_inv_head in Ht as <-. }
    split; [done|].
    split; [exists (written τj); by rewrite written_app|].
    split.
    { exists j, url, τj, st, chunks. split; [done|].
      split; [by rewrite Hqj, take_take, Nat.min_l by lia|].
      split; [done|]. split; [done|]. by rewrite Hcsv. }
    destruct Hfile as [d Hd]. exists d. by rewrite Hcsv.
  - rewrite Ht1 in Ht. by apply app_inv_head in Ht as <-.
Qed.

End SidecarLast.

(** ** The files of a source, reply by reply *)

Lemma can_open_after_ensure d name σ σ1 :
  ensure_directory d σ = (Ok tt, σ1) →
  can_open (fs σ1) (d // name) ↔ can_open (fs σ) (d // name).
Proof.
  intros Hens.
  destruct (ensure_directory_spec d σ)
    as [[Hr _]|[(Hn & t & Hm & Hr & Hd)|(_ & Hr & _)]]; rewrite Hr in Hens;
    [by injection Hens as <-| |discriminate].
  injection Hens as <-. simpl.
  assert (∀ q, FS.is_file t q ↔ FS.is_file (fs σ) q) as Hfile.
  { intros q. unfold FS.is_file. rewrite (FSFacts.stat_mkdir_p _ _ _ q Hm).
    destruct (FS.stat (fs σ) q) as [e|]; [done|].
    split; [|by intros [? ?]]. intros [x Hx]. by destruct (decide (q `prefix_of` d)). }
  assert (FS.stat t (d // name) = FS.stat (fs σ) (d // name)) as Hp.
  { rewrite (FSFacts.stat_mkdir_p _ _ _ (d // name) Hm).
    destruct (FS.stat (fs σ) (d // name)) as [e|] eqn:He; [done|].
    rewrite decide_False; [done|]. apply child_not_prefix. }
  unfold can_open, FS.is_dir. rewrite Hp.
  split; intros (? & ? & Hq); (split; [done|]); (split; [done|]);
    intros q ? ?; rewrite ?Hfile; [rewrite <- Hfile|]; by apply Hq.
Qed.

Section DiskAfterFetch.
Variable net : list event → string → response.

(** What a call of the helper leaves at its destination, case by case. *)
Lemma fetch_disk url p timeout σ b σ' :
  fetch net url p timeout σ b σ' →
  (given_up_early net σ url p → b = false ∧ fs σ' = fs σ) ∧
  (∀ chunks detail, streamed net σ url p chunks (Some detail) →
     b = false ∧ FS.stat (fs σ') p = Some (FS.EFile (body_of chunks))) ∧
  (∀ chunks, streamed net σ url p chunks None →
     b = true ∧ FS.stat (fs σ') p = Some (FS.EFile (body_of chunks))) ∧
  (given_up_early net σ url p ∨ ∃ chunks broken, streamed net σ url p chunks broken).
Proof.
  unfold given_up_early, streamed.
  inversion 1 as [st chunks σ2 Hnet Hst Hcan Ht Hs|st chunks detail σ2 Hnet Hst Hcan Ht Hs
                 |e σ2 Href Hfs Ht]; subst.
  - rewrite Hnet. split; [by intros [?|?]|].
    split; [intros ? ? (? & [= _ _ ?] & _); done|].
    split; [intros ? (? & [= _ <-] & _); done|].
    right. by exists chunks, None, st.
  - rewrite Hnet. split; [by intros [?|?]|].
    split; [intros ? ? (? & [= _ <- _] & _); done|].
    split; [intros ? (? & [= _ _ ?] & _); done|].
    right. by exists chunks, (Some detail), st.
  - unfold refused in Href.
    destruct (net (trace σ) url) as [detail|st chunks broken] eqn:Hnet.
    + split; [done|]. split; [intros ? ? (? & ? & _); done|].
      split; [intros ? (? & ? & _); done|]. by left.
    + destruct (decide (400 ≤ st < 600)%Z) as [Herr|Hok].
      * split; [done|]. split; [intros ? ? (? & [= <- _ _] & ? & _); done|].
        split; [intros ? (? & [= <- _ _] & ? & _); done|]. left. by left.
      * destruct Href as [Hno _]. split; [done|].
        split; [intros ? ? (? & _ & _ & ?); done|].
        split; [intros ? (? & _ & _ & ?); done|]. left. by right.
Qed.

Lemma disk_after_fetch_from σ σ1 b σ2 σ' url d name json metadata r timeout :
  ensure_directory d σ = (Ok tt, σ1) → trace σ1 = trace σ →
  FS.stat (fs σ1) (d // name) = FS.stat (fs σ) (d // name) →
  fetch net url (d // name) timeout σ1 b σ2 →
  FS.stat (fs σ2) json = FS.stat (fs σ) json →
  FS.stat (fs σ') (d // name) = FS.stat (fs σ2) (d // name) →
  (b = false → r = None ∧ FS.stat (fs σ') json = FS.stat (fs σ) json) →
  (b = true → r = Some (d // name) ∧
              FS.stat (fs σ') json = Some (FS.EFile (Json.dumps metadata 2 true))) →
  disk_after_fetch net σ σ' url (d // name) json metadata r.
Proof.
  intros Hens Ht1 Hp1 Hf Hj2 Hp' Hfalse Htrue.
  pose proof (can_open_after_ensure d name σ σ1 Hens) as Hcan.
  destruct (fetch_disk _ _ _ _ _ _ Hf) as (Hearly & Hbroken & Hfull & Hany).
  assert (given_up_early net σ1 url (d // name) ↔ given_up_early net σ url (d // name)) as Hg.
  { unfold given_up_early. rewrite Ht1. destruct (net (trace σ) url); [done|]. by rewrite Hcan. }
  assert (∀ chunks broken, streamed net σ1 url (d // name) chunks broken
                           ↔ streamed net σ url (d // name) chunks broken) as Hs.
  { intros chunks broken. unfold streamed. rewrite Ht1.
    split; intros (st & ? & ? & ?); exists st; by rewrite ?Hcan in *. }
  split.
  { intros [-> Hfs]%Hg%Hearly. destruct (Hfalse eq_refl) as [-> Hj].
    split; [done|]. split; [|done]. by rewrite Hp', Hfs. }
  split.
  { intros chunks detail [-> Hd]%Hs%Hbroken. destruct (Hfalse eq_refl) as [-> Hj].
    split; [done|]. split; [|done]. by rewrite Hp'. }
  split.
  { intros chunks [-> Hd]%Hs%Hfull. destruct (Htrue eq_refl) as [-> Hj].
    split; [done|]. split; [|done]. by rewrite Hp'. }
  destruct Hany as [?%Hg|(chunks & broken & ?%Hs)]; [by left|right; eauto].
Qed.

Lemma fetch_with_sidecar_disk folder url data_name json_name metadata σ r σ' :
  data_name ≠ json_name →
  fetch_with_sidecar net folder url data_name json_name metadata σ = (Ok r, σ') →
  disk_after_fetch net σ σ' url (DATA_DIR // folder // data_name)
    (DATA_DIR // folder // json_name) metadata r.
Proof.
  intros Hne Hrun.
  destruct (fetch_with_sidecar_run net folder url data_name json_name metadata σ Hne)
    as [[Hr _]|(_ & σ1 & b & σ2 & Hens & Ht1 & _ & Hp1 & Hf & Hj2 & Hcase)];
    [congruence|].
  rewrite Hrun in Hcase.
  destruct Hcase as [[-> [= -> ->]]|[(-> & _ & σ3 & [= -> ->] & _ & Hs3 & Hp3)|(_ & _ & ? & ?)]];
    [| |done].
  - eapply disk_after_fetch_from; [exact Hens|exact Ht1|exact Hp1|exact Hf|exact Hj2|done|..];
      [done|discriminate].
  - eapply disk_after_fetch_from; [exact Hens|exact Ht1|exact Hp1|exact Hf|exact Hj2|done|..];
      [discriminate|done].
Qed.

Lemma download_wri_sample_disk σ r σ' :
  download_wri_sample net σ = (Ok r, σ') →
  disk_after_fetch net σ σ' wri_url wri_csv wri_json (wri_metadata wri_url) r.
Proof.
  intros Hrun. unfold download_wri_sample in Hrun.
  destruct (download_wri_sample_from_cases net candidates σ)
    as [[Hr _]|(σ0 & k & bs & σ1 & τ1 & Hens & Ht0 & Hat & _ & _ & _ & _ & Hj1 & Hr1
                & _ & Hcase)]; [congruence|].
  assert (within (Footprint [] [] [wri_dir]) σ σ0) as [_ Hev0].
  { eapply stays_run; [|exact Hens]. apply stays_ensure_directory. simpl. set_solver. }
  simpl in Hev0.
  assert (FS.stat (fs σ0) wri_csv = FS.stat (fs σ) wri_csv) as Hc0.
  { eapply fs_evolves_unchanged; [done|set_solver|].
    intros p ->%list_elem_of_singleton. apply child_not_prefix. }
  rewrite Hrun in Hcase.
  destruct Hcase as [(-> & -> & [(σ2 & [= -> ->] & _ & Hs & Hj & Hc)|[? _]])
                    |(j & url & -> & Hl & -> & _ & [(σ2 & [= -> ->] & _ & Hs & Hr & Hc)|(_ & ? & ?)])];
    [|done| |done].
  - change (attempts net [wri_url] σ0 [false] σ1) in Hat.
    apply attempts_singleton in Hat.
    eapply (disk_after_fetch_from σ σ0 false σ1 _ wri_url wri_dir "wri_sample.csv");
      [exact Hens|exact Ht0|exact Hc0|exact Hat|exact Hj1|exact Hc|done|discriminate].
  - destruct j as [|j]; [|done]. injection Hl as <-.
    change (attempts net [wri_url] σ0 [true] σ1) in Hat.
    apply attempts_singleton in Hat.
    eapply (disk_after_fetch_from σ σ0 true σ1 _ wri_url wri_dir "wri_sample.csv");
      [exact Hens|exact Ht0|exact Hc0|exact Hat|exact Hj1|exact Hc|discriminate|done].
Qed.

End DiskAfterFetch.

(** * The properties of the specification *)

(** C1 does not hold as stated: the sidecar and the instructions are
    written outside the [try] of the helper, and what these writes raise
    leaves the function.  Off line, with a directory in the place of the
    instructions: the one candidate is tried and fails, and the function
    raises without having written the instructions.  On line, with a
    directory in the place of the sidecar: the candidate is fetched, and
    the function raises instead of returning the path of the CSV file. *)
Lemma C1_obstructed_writes_raise :
  let failed := download_wri_sample net_down world_readme_is_dir in
  let fetched := download_wri_sample net_up world_wri_sidecar_is_dir in
  requested (trace failed.2) = candidates ∧
  printed (trace failed.2) = [diagnostic wri_url (RequestException "Network is unreachable")] ∧
  failed.1 = Raised (OSError wri_readme) ∧
  written (trace failed.2) = [] ∧
  ¬ FS.is_file (fs failed.2) wri_readme ∧
  requested (trace fetched.2) = candidates ∧
  FS.stat (fs fetched.2) wri_csv = Some (FS.EFile "sample bytes") ∧
  fetched.1 = Raised (OSError wri_json).
Proof.
  repeat split; try by vm_compute.
  apply (bool_decide_unpack _). by vm_compute.
Qed.

(** C1, amended.  [download_wri_sample] is [download_wri_sample_from] on
    its list of candidates.  For every list, in every run, the helper is called on
    the candidates in their order and on nothing else, a candidate that
    was fetched is the last one tried, and the instructions are written
    only when every candidate was tried and none was fetched.  When
    nothing stands in the way of the folder, the sidecar and the
    instructions, the run ends in one of two ways: a candidate was
    fetched, all those before it failed, the function returns the path
    of the CSV file and writes no instructions; or every candidate
    failed, the function returns [None] and the last thing it writes is
    the instructions file. *)
Theorem C1_candidates_in_order net urls σ :
  download_wri_sample net σ = download_wri_sample_from net candidates σ ∧
  ∃ τ, trace (download_wri_sample_from net urls σ).2 = trace σ ++ τ ∧
    (∃ k bs σ0 σ1,
       fs σ0 = fs (ensure_directory wri_dir σ).2 ∧
       attempts net (take k urls) σ0 bs σ1 ∧
       requested τ = take k urls ∧
       (∀ i, bs !! i = Some true → S i = k) ∧
       (wri_readme ∈ written τ → k = length urls ∧ Forall (eq false) bs)) ∧
    (wri_ready (fs σ) →
     ∃ σ0 k bs σ1 r σ',
       ensure_directory wri_dir σ = (Ok tt, σ0) ∧
       attempts net (take k urls) σ0 bs σ1 ∧
       download_wri_sample_from net urls σ = (Ok r, σ') ∧
       requested τ = take k urls ∧
       ((∃ j url, k = S j ∧ urls !! j = Some url ∧
           bs = replicate j false ++ [true] ∧
           r = Some wri_csv ∧ (wri_readme ∉ written τ) ∧
           FS.stat (fs σ') wri_readme = FS.stat (fs σ) wri_readme) ∨
        (k = length urls ∧ bs = replicate k false ∧
           r = None ∧ last (written τ) = Some wri_readme ∧
           FS.stat (fs σ') wri_readme = Some (FS.EFile wri_instructions)))).
Proof.
  split; [done|].
  destruct (download_wri_sample_from_every_run net urls σ)
    as (τ & k & bs & σ0 & σ1 & Ht & Hfs & Hat & Hq & Hlast & Hreadme).
  exists τ. split; [done|]. split; [by exists k, bs, σ0, σ1|].
  intros Hready.
  destruct (download_wri_sample_from_run net urls σ Hready)
    as (σ0' & k' & bs' & σ1' & r & σ' & τ' & Hens & _ & Hat' & Hrun & Ht' & Hq' & Hcase).
  rewrite Hrun in Ht. simpl in Ht. rewrite Ht' in Ht. apply app_inv_head in Ht as ->.
  exists σ0', k', bs', σ1', r, σ'. do 4 (split; [done|]).
  destruct Hcase as [(j & url & ? & ? & ? & ? & ? & ? & _)|(? & ? & ? & ? & ? & _)].
  - left. by exists j, url.
  - by right.
Qed.

Lemma C1_witness :
  ∃ r σ', download_wri_sample_from net_second_only
            ["https://example.org/first.csv"; "https://example.org/second.csv"]
            empty_world = (Ok r, σ').
Proof.
  destruct (C1_candidates_in_order net_second_only
              ["https://example.org/first.csv"; "https://example.org/second.csv"]
              empty_world) as (_ & τ & _ & _ & H).
  destruct H as (σ0 & k & bs & σ1 & r & σ' & _ & _ & Hrun & _).
  - unfold wri_ready. apply (bool_decide_unpack _). by vm_compute.
  - by exists r, σ'.
Defined.

(** With two candidates of which the first is not found: two requests in
    the order of the list, the path of the CSV file returned, the data
    file and its sidecar written, no instructions file. *)
Example first_fails_second_is_fetched :
  let run := download_wri_sample_from net_second_only
               ["https://example.org/first.csv"; "https://example.org/second.csv"]
               empty_world in
  run.1 = Ok (Some wri_csv) ∧
  requested (trace run.2)
    = ["https://example.org/first.csv"; "https://example.org/second.csv"] ∧
  written (trace run.2) = [wri_csv; wri_json] ∧
  FS.stat (fs run.2) wri_csv = Some (FS.EFile "city,value") ∧
  FS.stat (fs run.2) wri_readme = None.
Proof. repeat split; by vm_compute. Qed.

(** The run of the script as it is, off line: one request, no path, the
    instructions written. *)
Example every_candidate_fails :
  let run := download_wri_sample net_down empty_world in
  run.1 = Ok None ∧
  requested (trace run.2) = candidates ∧
  written (trace run.2) = [wri_readme] ∧
  FS.stat (fs run.2) wri_readme = Some (FS.EFile wri_instructions) ∧
  FS.stat (fs run.2) wri_csv = None ∧
  FS.stat (fs run.2) wri_json = None.
Proof. repeat split; by vm_compute. Qed.

(** C2 does not hold as stated: a fetch that fails while the body is
    streamed leaves the part of the data file that was received.  With
    replies that break after their first chunk, on an empty file system,
    the three sources return no path and each leaves a data file; the
    CSV source leaves it next to its instructions. *)
Lemma C2_failed_fetch_leaves_data_file :
  let w := download_worldview_sample net_broken date_default empty_world in
  let e := download_earth_observatory_sample net_broken empty_world in
  let c := download_wri_sample net_broken empty_world in
  w.1 = Ok None ∧ FS.stat (fs w.2) worldview_png = Some (FS.EFile "partial ") ∧
  e.1 = Ok None ∧ FS.stat (fs e.2) earth_observatory_jpg = Some (FS.EFile "partial ") ∧
  c.1 = Ok None ∧ FS.stat (fs c.2) wri_csv = Some (FS.EFile "partial ") ∧
  FS.stat (fs c.2) wri_readme = Some (FS.EFile wri_instructions).
Proof. repeat split; by vm_compute. Qed.

(** C2, amended.  For each of the three primary sources, what a call
    that returns leaves on disk is settled by the reply.  With no reply,
    an error status or a destination that cannot be opened, no path is
    returned and the data file and the sidecar are as they were.  With a
    reply that breaks while it is streamed, no path is returned, the
    data file holds the chunks received and the sidecar is as it was.
    With a complete reply, the path of the data file is returned, the
    data file holds the whole body and the sidecar holds the metadata.
    One of the three is always the case.  The CSV source writes its
    instructions file when it returns no path and leaves it alone when
    it returns one. *)
Theorem C2_files_after_a_fetch net σ :
  (∀ r σ', download_worldview_sample net date_default σ = (Ok r, σ') →
     disk_after_fetch net σ σ' (wms_url date_default) worldview_png worldview_json
       (worldview_metadata (wms_url date_default)) r) ∧
  (∀ r σ', download_earth_observatory_sample net σ = (Ok r, σ') →
     disk_after_fetch net σ σ' earth_observatory_url earth_observatory_jpg
       earth_observatory_json (earth_observatory_metadata earth_observatory_url) r) ∧
  (∀ r σ', download_wri_sample net σ = (Ok r, σ') →
     disk_after_fetch net σ σ' wri_url wri_csv wri_json (wri_metadata wri_url) r ∧
     match r with
     | Some _ => FS.stat (fs σ') wri_readme = FS.stat (fs σ) wri_readme
     | None => FS.stat (fs σ') wri_readme = Some (FS.EFile wri_instructions)
     end).
Proof.
  split; [|split].
  - intros r σ'. rewrite download_worldview_sample_shape.
    apply fetch_with_sidecar_disk, worldview_names_differ.
  - intros r σ'. rewrite download_earth_observatory_sample_shape.
    by apply fetch_with_sidecar_disk.
  - intros r σ' Hrun. split; [by apply download_wri_sample_disk|].
    by apply download_wri_sample_files in Hrun as [_ ?].
Qed.

Lemma C2_witness :
  let run := download_worldview_sample net_broken date_default empty_world in
  run.1 = Ok None ∧
  FS.stat (fs run.2) worldview_png = Some (FS.EFile "partial ") ∧
  FS.stat (fs run.2) worldview_json = None.
Proof.
  intros run.
  destruct (C2_files_after_a_fetch net_broken empty_world) as (H & _).
  destruct (H None run.2) as (_ & Hbroken & _); [by vm_compute|].
  destruct (Hbroken ["partial "] "Connection broken") as (_ & Hdata & Hjson).
  - exists 200%Z. split; [reflexivity|]. split; [lia|].
    split; [done|]. split; [by vm_compute|].
    intros q _ _ [d Hd]. simpl in Hd. rewrite FSFacts.stat_empty in Hd.
    by destruct (decide (q = [])).
  - split; [by vm_compute|]. split; [exact Hdata|]. by rewrite Hjson.
Defined.

(** C3. The writer handles five providers, whose texts are pairwise
    different and not empty.  It requests nothing.  In every run, from
    every file system: what is at the place of a provider's instructions
    before the run is there unchanged after it (no clobber); a file the
    run writes is the instructions file of a provider that had none; when
    the run completes, a provider that had no instructions has the text
    written for it.  Running the writer again from where a run stopped
    does what that run did and changes nothing, not a file and not the
    trace (idempotence). *)
Theorem C3_placeholders_no_clobber σ :
  let run := write_placeholders_for_sedac_worldpop_ghsl_copernicus_eotoolkit σ in
  placeholders.*1 = ["sedac"; "worldpop"; "ghsl"; "eu_copernicus"; "eotoolkit"] ∧
  NoDup placeholders.*2 ∧
  Forall (λ text, text ≠ "") placeholders.*2 ∧
  (∀ folder e,
     FS.stat (fs σ) (placeholder_readme folder) = Some e →
     FS.stat (fs run.2) (placeholder_readme folder) = Some e) ∧
  (∃ τ, trace run.2 = trace σ ++ τ ∧ requested τ = [] ∧
        Forall (λ p, FS.stat (fs σ) p = None ∧
                     ∃ folder, folder ∈ placeholders.*1 ∧ p = placeholder_readme folder)
               (written τ)) ∧
  (run.1 = Ok tt →
   ∀ folder text, (folder, text) ∈ placeholders →
     FS.stat (fs σ) (placeholder_readme folder) = None →
     FS.stat (fs run.2) (placeholder_readme folder) = Some (FS.EFile text)) ∧
  write_placeholders_for_sedac_worldpop_ghsl_copernicus_eotoolkit run.2 = run.
Proof.
  intros run. subst run.
  unfold write_placeholders_for_sedac_worldpop_ghsl_copernicus_eotoolkit.
  destruct (for_each placeholders write_placeholder σ) as [r σ1] eqn:Hrun. cbn [fst snd].
  split; [done|].
  split; [apply (bool_decide_unpack _); by vm_compute|].
  split; [by repeat constructor|].
  split.
  { intros folder e He. rewrite <- He. eapply placeholders_keep; [by rewrite He|done]. }
  split.
  { destruct (placeholders_emitted _ _ _ _ Hrun) as (τ & Ht & Hq & _ & Hw). by exists τ. }
  split.
  { intros -> folder text Hin Hnone.
    assert (NoDup placeholders.*1) as Hnd by (apply (bool_decide_unpack _); by vm_compute).
    pose proof (placeholders_complete _ _ _ Hnd Hrun folder text Hin) as H.
    by rewrite Hnone in H. }
  by eapply placeholders_again.
Qed.

Lemma C3_witness :
  FS.stat (fs (write_placeholders_for_sedac_worldpop_ghsl_copernicus_eotoolkit empty_world).2)
    (placeholder_readme "ghsl")
  = Some (FS.EFile
      ("GHSL (EU Copernicus) provides population and built-up layers. Visit https://ghsl.jrc.ec.europa.eu/."
       +:+ nl
       +:+ "Download a small tile (e.g., a small country or region) and place it here with metadata."
       +:+ nl)).
Proof.
  destruct (C3_placeholders_no_clobber empty_world) as (_ & _ & _ & _ & _ & H & _).
  apply H.
  - by vm_compute.
  - apply (bool_decide_unpack _). by vm_compute.
  - by vm_compute.
Defined.

(** A second run on a file system where one provider has notes of its
    own: they are kept, the four others get their text. *)
Example placeholders_keep_existing_notes :
  let σ := World (default ∅ (t ← FS.mkdir_p ∅ (DATA_DIR // "ghsl");
                              FS.write_file t (placeholder_readme "ghsl") "my notes")) [] in
  let run := write_placeholders_for_sedac_worldpop_ghsl_copernicus_eotoolkit σ in
  run.1 = Ok tt ∧
  FS.stat (fs run.2) (placeholder_readme "ghsl") = Some (FS.EFile "my notes") ∧
  written (trace run.2) = placeholder_readme <$> ["sedac"; "worldpop"; "eu_copernicus"; "eotoolkit"].
Proof. repeat split; by vm_compute. Qed.

(** C4. In every run of [main] the counter takes the values 0, 1, ... up
    to the number of primary sources that returned a path, one after the
    other and nothing else: it is never negative, never above 3, and at
    the end of the run (also of one that an exception cut short) it is
    that number.  A run that completes has called the three primary
    sources and the placeholder writer, and prints the count last. *)
Theorem C4_success_counter net σ :
  ∃ τ, trace (main net σ).2 = trace σ ++ τ ∧
    (paths_returned τ ≤ 3)%nat ∧
    counter_values τ = Z.of_nat <$> seq 0 (S (paths_returned τ)) ∧
    Forall (λ v, 0 ≤ v ≤ 3)%Z (counter_values τ) ∧
    last (counter_values τ) = Some (Z.of_nat (paths_returned τ)) ∧
    ∀ status, (main net σ).1 = Ok status →
      (returns τ).*1 = primary ++ [name_placeholders] ∧
      last (printed τ) = Some (completed_line (Z.of_nat (paths_returned τ))).
Proof.
  destruct (main_run net σ)
    as (τ1 & o1 & σ1 & τ2 & o2 & σ2 & τ3 & o3 & σ3 & τ4 & o4 & σ4 & σ' &
        Hrun & Ht & H1 & H2 & H3 & H4 & _).
  rewrite Hrun. simpl. exists (driver_trace τ1 o1 τ2 o2 τ3 o3 τ4 o4).
  split; [done|].
  destruct o1 as [[p1|]|e1];
    [destruct o2 as [[p2|]|e2];
       [destruct o3 as [[p3|]|e3]; [destruct o4 as [r4|e4]|destruct o4 as [r4|e4]|]
       |destruct o3 as [[p3|]|e3]; [destruct o4 as [r4|e4]|destruct o4 as [r4|e4]|]|]
    |destruct o2 as [[p2|]|e2];
       [destruct o3 as [[p3|]|e3]; [destruct o4 as [r4|e4]|destruct o4 as [r4|e4]|]
       |destruct o3 as [[p3|]|e3]; [destruct o4 as [r4|e4]|destruct o4 as [r4|e4]|]|]|];
    read_driver_trace H1 H2 H3 H4.
  all: split; [lia|]; split; [reflexivity|]; split; [repeat constructor; lia|].
  all: split; [reflexivity|]; intros status; try discriminate; intros _.
  all: split; [reflexivity|].
  all: repeat first [reflexivity
                    |rewrite printed_app; apply last_app_Some_r
                    |rewrite printed_cons; cbv beta iota
                    |apply last_cons_Some_r].
Qed.




(** C6. For every URL and destination, [http_download] makes one streamed
    GET (no retry), with a time-out whose default is 60 seconds; it
    never raises: its result is [True] exactly when the reply is complete,
    its status is not an error status and the destination can be opened,
    and [False] on every network, HTTP-status or I/O error, in which case
    the last thing it does is print the diagnostic.  On success the parent
    directory exists and the destination holds the whole body, whatever
    was there before. *)
Theorem C6_fetch_helper_contract net url out_path timeout σ :
  timeout_seconds_default = 60%Z ∧
  ∃ b σ',
    http_download net url out_path timeout σ = (Ok b, σ') ∧
    (∃ τ, trace σ' = trace σ ++ EGet url true timeout :: τ ∧ requested τ = []) ∧
    (b = true ↔
       ∃ status_code chunks,
         net (trace σ) url = Response status_code chunks None ∧
         ¬ (400 ≤ status_code < 600)%Z ∧ can_open (fs σ) out_path) ∧
    (b = false ↔ ∃ e, last (trace σ') = Some (EPrint (diagnostic url e))) ∧
    (b = true →
       ∃ status_code chunks,
         net (trace σ) url = Response status_code chunks None ∧
         FS.stat (fs σ') out_path = Some (FS.EFile (body_of chunks)) ∧
         FS.is_dir (fs σ') (parent out_path)).
Proof.
  split; [done|].
  destruct (http_download_fetch net url out_path timeout σ) as (b & σ' & Hrun & Hf).
  exists b, σ'. split; [done|].
  inversion Hf as [st chunks σ2 Hnet Hst Hcan Ht Hs|st chunks detail σ2 Hnet Hst Hcan Ht Hs
                  |e σ2 Href Hfs Ht]; subst.
  - split; [by eexists|]. split; [split; [by eauto|done]|].
    split.
    { split; [done|]. intros [e He]. by rewrite Ht, last_app_cons in He. }
    intros _. exists st, chunks. do 2 (split; [done|]).
    eapply FSFacts.stat_parent; [by destruct Hcan|done].
  - split; [by eexists|]. split.
    { split; [done|]. intros (st' & chunks' & Hnet' & _). congruence. }
    split; [|done]. split; [|done]. intros _. eexists.
    by rewrite Ht, last_app_cons.
  - split; [by eexists|]. split.
    { split; [done|]. intros (st' & chunks' & Hnet' & Hst' & Hcan').
      unfold refused in Href. rewrite Hnet' in Href.
      rewrite decide_False in Href by done. by destruct Href. }
    split; [|done]. split; [|done]. intros _. exists e.
    by rewrite Ht, last_app_cons.
Qed.

(** C7 does not hold as stated.  Off line, with a directory in the place
    of the CSV instructions: the three downloads fail, each with its
    diagnostic; the first two sources return; the third raises when it
    writes its instructions; the placeholder writer is never called and
    the process exits with status 1. *)
Lemma C7_exit_status_one :
  let run := main net_down world_readme_is_dir in
  requested (trace run.2) = [wms_url date_default; earth_observatory_url; wri_url] ∧
  length (filter (λ line, String.prefix "Failed to download " line) (printed (trace run.2))) = 3 ∧
  returns (trace run.2) = [(name_worldview, None); (name_earth_observatory, None)] ∧
  calls (trace run.2) = [name_worldview; name_earth_observatory; name_wri] ∧
  run.1 = Raised (OSError wri_readme) ∧
  exit_status net_down world_readme_is_dir = 1%Z.
Proof. repeat split; by vm_compute. Qed.

(** C7, amended.  Whatever the network does, hence for every combination
    of outcomes of the three downloads (each of which is the outcome of a
    run, as the last part says), a run that nothing obstructs performs the
    full sequence and exits with status 0: the four callees are called
    and return, in order; the status line of each primary source, the
    line of the placeholders and the line with the count are printed, in
    this order, the count last. *)
Theorem C7_exit_status_zero net σ :
  unobstructed (fs σ) →
  exit_status net σ = 0%Z ∧
  (∃ σ' τ r1 r2 r3,
     main net σ = (Ok 0%Z, σ') ∧ trace σ' = trace σ ++ τ ∧
     calls τ = steps ∧
     returns τ = [(name_worldview, r1); (name_earth_observatory, r2);
                  (name_wri, r3); (name_placeholders, None)] ∧
     [header_line; status_line name_worldview r1;
      status_line name_earth_observatory r2; status_line name_wri r3;
      placeholders_line; completed_line (count_paths [r1; r2; r3])]
       `sublist_of` printed τ ∧
     last (printed τ) = Some (completed_line (count_paths [r1; r2; r3]))) ∧
  (∀ b1 b2 b3 : bool,
     exit_status (net_for b1 b2 b3) empty_world = 0%Z ∧
     returns (trace (main (net_for b1 b2 b3) empty_world).2) =
       [(name_worldview, if b1 then Some worldview_png else None);
        (name_earth_observatory, if b2 then Some earth_observatory_jpg else None);
        (name_wri, if b3 then Some wri_csv else None);
        (name_placeholders, None)]).
Proof.
  intros HU.
  destruct (main_unobstructed net σ HU)
    as (τ1 & r1 & τ2 & r2 & τ3 & r3 & τ4 & σ' & Hrun & Ht & H1 & H2 & H3 & H4).
  split; [unfold exit_status; by rewrite Hrun|].
  split; [|intros b1 b2 b3; exact (every_combination_runs b1 b2 b3)].
  exists σ', (driver_trace τ1 (Ok r1) τ2 (Ok r2) τ3 (Ok r3) τ4 (Ok None)), r1, r2, r3.
  do 2 (split; [done|]).
  destruct (driver_trace_returned_read _ r1 _ r2 _ r3 _ None H1 H2 H3 H4)
    as (Hc & Hr & Hp).
  do 2 (split; [done|]). rewrite Hp. split.
  - apply sublist_skip, sublist_inserts_l.
    apply sublist_skip, sublist_inserts_l.
    apply sublist_skip, sublist_inserts_l.
    apply sublist_skip, sublist_inserts_l. done.
  - apply last_cons_Some_r, last_app_Some_r.
    apply last_cons_Some_r, last_app_Some_r.
    apply last_cons_Some_r, last_app_Some_r.
    apply last_cons_Some_r, last_app_Some_r. done.
Qed.

Lemma C7_witness :
  exit_status net_down empty_world = 0%Z.
Proof.
  refine (proj1 (C7_exit_status_zero net_down empty_world _)).
  apply (bool_decide_unpack _). by vm_compute.
Defined.




(** C9. Whenever one of the three sources returns a path, its sidecar is
    on disk and holds the text that [json.dump] with [sort_keys=True] and
    [indent=2] writes for the metadata of the source; that text reads
    back as the mapping written, with its keys in order and the non-empty
    strings of the source under [source] and [url]. *)
Theorem C9_sidecar_round_trip net σ :
  (∀ p σ', download_worldview_sample net date_default σ = (Ok (Some p), σ') →
     ∃ text, FS.stat (fs σ') worldview_json = Some (FS.EFile text) ∧
       reads_back text (worldview_metadata (wms_url date_default))
         "NASA GIBS / Worldview" (wms_url date_default)
         [0; 2; 4; 4; 4; 4; 2; 2; 2; 2; 2; 2; 4; 4; 2; 2; 2; 0]) ∧
  (∀ p σ', download_earth_observatory_sample net σ = (Ok (Some p), σ') →
     ∃ text, FS.stat (fs σ') earth_observatory_json = Some (FS.EFile text) ∧
       reads_back text (earth_observatory_metadata earth_observatory_url)
         "NASA Earth Observatory" earth_observatory_url
         [0; 2; 2; 2; 2; 0]) ∧
  (∀ p σ', download_wri_sample net σ = (Ok (Some p), σ') →
     ∃ text, FS.stat (fs σ') wri_json = Some (FS.EFile text) ∧
       reads_back text (wri_metadata wri_url)
         "World Resources Institute (WRI) Data Explorer" wri_url
         [0; 2; 2; 2; 0]).
Proof.
  split; [|split].
  - intros p σ' Hrun. rewrite download_worldview_sample_shape in Hrun.
    apply fetch_with_sidecar_files in Hrun as (_ & _ & Hs); [|apply worldview_names_differ].
    eexists. split; [exact Hs|]. apply worldview_sidecar_reads_back.
  - intros p σ' Hrun. rewrite download_earth_observatory_sample_shape in Hrun.
    apply fetch_with_sidecar_files in Hrun as (_ & _ & Hs); [|done].
    eexists. split; [exact Hs|]. apply earth_observatory_sidecar_reads_back.
  - intros p σ' Hrun.
    apply download_wri_sample_files in Hrun as [(_ & _ & Hs) _].
    eexists. split; [exact Hs|]. apply wri_sidecar_reads_back.
Qed.

Lemma C9_witness :
  ∃ text,
    FS.stat (fs (download_earth_observatory_sample net_up empty_world).2)
      earth_observatory_json = Some (FS.EFile text) ∧
    reads_back text (earth_observatory_metadata earth_observatory_url)
      "NASA Earth Observatory" earth_observatory_url [0; 2; 2; 2; 2; 0].
Proof.
  destruct (C9_sidecar_round_trip net_up empty_world) as (_ & H & _).
  apply (H earth_observatory_jpg). by vm_compute.
Defined.

(** C10. When every candidate fails, [download_wri_sample] opens
    [data/wri/README.txt] for writing without looking whether it is there:
    an instructions file left by an earlier run, whatever it holds, is
    replaced by the static text, and this write is the last of the run.
    The writer of the five placeholders, run on a file system where the
    instructions of a provider are there, leaves them as they are. *)
Theorem C10_instructions_overwritten net urls σ old bs σ1 :
  FS.stat (fs σ) wri_readme = Some (FS.EFile old) →
  attempts net urls σ bs σ1 →
  Forall (eq false) bs →
  (∃ σ' τ,
     download_wri_sample_from net urls σ = (Ok None, σ') ∧
     trace σ' = trace σ ++ τ ∧
     last (written τ) = Some wri_readme ∧
     FS.stat (fs σ') wri_readme = Some (FS.EFile wri_instructions)) ∧
  (∀ folder σp,
     FS.stat (fs σp) (placeholder_readme folder) = Some (FS.EFile old) →
     FS.stat (fs (write_placeholders_for_sedac_worldpop_ghsl_copernicus_eotoolkit σp).2)
       (placeholder_readme folder) = Some (FS.EFile old)).
Proof.
  intros Hold Hat Hbs. split.
  - assert (FS.is_dir (fs σ) wri_dir) as Hdir by (eapply FSFacts.stat_snoc; exact Hold).
    pose proof (attempts_evolves net _ _ _ _ Hat) as Hev.
    destruct (attempts_emitted net _ _ _ _ Hat) as (τ1 & Ht1 & _ & Hw1).
    assert (FS.stat (fs σ1) wri_readme = Some (FS.EFile old)) as Hold1.
    { apply (ev_file_keep _ _ _ _ Hev); [done|].
      rewrite list_elem_of_singleton. intros H. by apply child_inj in H. }
    unfold download_wri_sample_from. fold wri_dir wri_readme. rewrite run_bind.
    destruct (ensure_directory_spec wri_dir σ) as [[-> _]|[(Hn & _)|(Hn & _)]];
      [|unfold FS.is_dir in Hdir; congruence..].
    rewrite run_bind, (try_candidates_all_fail net _ _ _ _ Hat Hbs).
    destruct (write_text_spec wri_readme wri_instructions σ1)
      as [(_ & _ & _ & σ' & Hrun & Ht & Hs & _)|[Hno _]].
    + exists σ', (τ1 ++ [EWrite wri_readme]). split.
      { rewrite (run_bind_assoc (open_w wri_readme)
                   (λ _, fwrite wri_readme wri_instructions) (λ _, mret None)).
        by rewrite run_bind, Hrun. }
      split; [by rewrite Ht, Ht1, app_assoc|].
      split; [|done]. rewrite written_app. apply last_app_Some_r. done.
    + destruct Hno. split; [apply child_ne_nil|].
      unfold wri_readme at 1. rewrite parent_child. split.
      * by apply (ev_dir_keep _ _ _ _ Hev).
      * unfold FS.is_dir. congruence.
  - intros folder σp Hp.
    destruct (write_placeholders_for_sedac_worldpop_ghsl_copernicus_eotoolkit σp)
      as [r σ'] eqn:Hrun.
    simpl. rewrite <- Hp. eapply placeholders_keep; [by rewrite Hp|exact Hrun].
Qed.

Lemma C10_witness :
  ∃ σ', download_wri_sample net_down world_old_readme = (Ok None, σ') ∧
        FS.stat (fs σ') wri_readme = Some (FS.EFile wri_instructions).
Proof.
  destruct (C10_instructions_overwritten net_down candidates world_old_readme
              "old notes" [false]
              (http_download net_down (default "" (head candidates)) wri_csv
                 timeout_seconds_default world_old_readme).2)
    as [(σ' & τ & Hrun & _ & _ & Hs) _].
  - by vm_compute.
  - eapply attempts_cons; [by vm_compute|constructor].
  - repeat constructor.
  - by exists σ'.
Defined.

(** * Further properties of the script *)

(** X1. [ensure_directory] goes one of three ways.  A path that exists is
    left as it is and nothing is raised, also when it is a regular file
    (which stays a regular file).  A missing path below a regular file
    raises an [OSError] and nothing is created.  Any other missing path
    is created with its missing ancestors, and every path that existed
    is as it was.  The trace is never touched. *)
Theorem X1_ensure_directory_outcomes p σ :
  let run := ensure_directory p σ in
  (is_Some (FS.stat (fs σ) p) ∧ run = (Ok tt, σ)) ∨
  (FS.stat (fs σ) p = None ∧ (∃ q, q `prefix_of` p ∧ FS.is_file (fs σ) q) ∧
   run = (Raised (OSError p), σ)) ∨
  (FS.stat (fs σ) p = None ∧ (∀ q, q `prefix_of` p → ¬ FS.is_file (fs σ) q) ∧
   run.1 = Ok tt ∧ trace run.2 = trace σ ∧
   ∀ q, FS.stat (fs run.2) q =
          match FS.stat (fs σ) q with
          | Some e => Some e
          | None => if decide (q `prefix_of` p) then Some FS.EDir else None
          end).
Proof.
  intros run. subst run.
  destruct (ensure_directory_spec p σ)
    as [[Hr Hs]|[(Hn & t & Hm & Hr & Hd)|(Hn & Hr & Hq)]].
  - left. done.
  - right. right. split; [done|]. split.
    + intros q Hpre Hfile.
      assert (FS.mkdir_p (fs σ) p = None) as Hnone by (apply FSFacts.mkdir_p_None; eauto).
      congruence.
    + rewrite Hr. simpl. do 2 (split; [done|]). intros q.
      by apply FSFacts.stat_mkdir_p.
  - right. left. done.
Qed.

(** X2. Calling [ensure_directory] again on the state it left gives the
    same outcome and changes nothing; after a call that returned, the
    call on any ancestor of the path is a no-op too, which is the case of
    the helper's [ensure_directory(out_path.parent)] after an
    orchestrator has ensured a folder above it. *)
Theorem X2_ensure_directory_settles p σ :
  let run := ensure_directory p σ in
  ensure_directory p run.2 = run ∧
  (run.1 = Ok tt → ∀ q, q `prefix_of` p → ensure_directory q run.2 = (Ok tt, run.2)).
Proof.
  intros run. subst run.
  destruct (ensure_directory_spec p σ)
    as [[Hr Hs]|[(Hn & t & Hm & Hr & Hd)|(Hn & Hr & Hq)]]; rewrite Hr; simpl.
  - split; [done|]. intros _ q Hpre.
    destruct (ensure_directory_spec q σ) as [[Hr' _]|[(Hn & _)|(Hn & _)]]; [done|..];
      apply (stat_prefix_exists _ _ _ Hpre) in Hs; rewrite Hn in Hs; by destruct Hs.
  - assert (∀ q, q `prefix_of` p →
              ensure_directory q (World t (trace σ)) = (Ok tt, World t (trace σ))) as Hq.
    { intros q Hpre.
      destruct (ensure_directory_spec q (World t (trace σ)))
        as [[Hr' _]|[(Hn' & _)|(Hn' & _)]]; [done|..]; simpl in Hn';
        assert (is_Some (FS.stat t q)) as Hs
          by (apply (stat_prefix_exists _ p); [done|by eexists]);
        rewrite Hn' in Hs; by destruct Hs. }
    split; [by apply Hq|]. intros _. apply Hq.
  - split; [done|]. intros; discriminate.
Qed.

Lemma X2_witness :
  ensure_directory DATA_DIR (ensure_directory (DATA_DIR // "wri") empty_world).2
  = (Ok tt, (ensure_directory (DATA_DIR // "wri") empty_world).2).
Proof.
  destruct (X2_ensure_directory_settles (DATA_DIR // "wri") empty_world) as [_ H].
  apply H; [by vm_compute|]. by exists ["wri"].
Defined.

(** X3. Whatever the network answers, [http_download] makes exactly one
    request, writes to no path but its destination, changes the content
    of no other file, removes nothing, and creates directories only on
    the way to the parent of the destination. *)
Theorem X3_http_download_touches_only_its_destination net url out_path timeout σ :
  let σ' := (http_download net url out_path timeout σ).2 in
  (∀ q d, q ≠ out_path →
     FS.stat (fs σ') q = Some (FS.EFile d) ↔ FS.stat (fs σ) q = Some (FS.EFile d)) ∧
  (∀ q, FS.is_dir (fs σ) q → FS.is_dir (fs σ') q) ∧
  (∀ q, FS.is_dir (fs σ') q → FS.is_dir (fs σ) q ∨ q `prefix_of` parent out_path) ∧
  (∀ q, is_Some (FS.stat (fs σ) q) → is_Some (FS.stat (fs σ') q)) ∧
  ∃ τ, trace σ' = trace σ ++ τ ∧ requested τ = [url] ∧ Forall (λ q, q = out_path) (written τ).
Proof.
  intros σ'. subst σ'.
  pose proof (within_http_download net url out_path timeout σ) as Hw.
  pose proof (wi_fs _ _ _ Hw) as Hev. simpl in Hev.
  split.
  { intros q d Hq. split.
    - intros H. destruct (ev_file_back _ _ _ _ Hev q d H) as [?|Hin]; [done|].
      by apply list_elem_of_singleton in Hin.
    - intros H. apply (ev_file_keep _ _ _ _ Hev q d H).
      by rewrite list_elem_of_singleton. }
  split; [intros q; apply (ev_dir_keep _ _ _ _ Hev)|].
  split.
  { intros q H. destruct (ev_dir_back _ _ _ _ Hev q H) as [?|(p & Hin & Hpre)]; [by left|].
    apply list_elem_of_singleton in Hin as ->. by right. }
  split; [intros q; by apply (within_exists _ _ _ _ Hw)|].
  destruct (http_download_fetch net url out_path timeout σ) as (b & σ1 & Hr & Hf).
  rewrite Hr. simpl.
  destruct (fetch_emitted net _ _ _ _ _ _ Hf) as (τ & Ht & Hq & Hwr & _).
  by exists τ.
Qed.

(** X4. When there is no reply, or the status is in 400..599, or the
    destination cannot be opened, [http_download] returns [False] and the
    file system is exactly as it was: the status is checked before any
    directory is created, so a refused download creates no folder and
    touches no file; the trace gets the request and one line, which
    starts with [Failed to download], the URL and a colon. *)
Theorem X4_http_download_gives_up_early net url out_path timeout σ :
  match net (trace σ) url with
  | NoResponse _ => True
  | Response status_code _ _ => (400 ≤ status_code < 600)%Z ∨ ¬ can_open (fs σ) out_path
  end →
  ∃ message,
    http_download net url out_path timeout σ =
      (Ok false,
       World (fs σ)
         (trace σ ++ [EGet url true timeout;
                      EPrint ("Failed to download " +:+ url +:+ ": " +:+ message)])).
Proof.
  intros Hgive.
  destruct (http_download_fetch net url out_path timeout σ) as (b & σ' & Hr & Hf).
  inversion Hf as [st chunks σ2 Hnet Hst Hcan Ht Hs|st chunks detail σ2 Hnet Hst Hcan Ht Hs
                  |e σ2 Href Hfs Ht]; subst.
  - rewrite Hnet in Hgive. by destruct Hgive.
  - rewrite Hnet in Hgive. by destruct Hgive.
  - exists (str_exn e). rewrite Hr. destruct σ' as [t tr]. simpl in *. by subst.
Qed.

Lemma X4_witness :
  let run := http_download (net_for false false false) earth_observatory_url
               earth_observatory_jpg 60 empty_world in
  run.1 = Ok false ∧ fs run.2 = ∅ ∧ requested (trace run.2) = [earth_observatory_url].
Proof.
  intros run.
  destruct (X4_http_download_gives_up_early (net_for false false false)
              earth_observatory_url earth_observatory_jpg 60 empty_world)
    as (message & Hrun).
  - left. by vm_compute.
  - subst run. rewrite Hrun. done.
Defined.

(** X5. With a status that is not an error and a destination that can be
    opened, the destination holds exactly the chunks that were received,
    whatever it held before and whether or not the stream broke; the
    result is [True] exactly when the stream did not break. *)
Theorem X5_http_download_replaces_its_destination
    net url out_path timeout σ status_code chunks broken :
  net (trace σ) url = Response status_code chunks broken →
  ¬ (400 ≤ status_code < 600)%Z →
  can_open (fs σ) out_path →
  let run := http_download net url out_path timeout σ in
  run.1 = Ok (bool_decide (broken = None)) ∧
  FS.stat (fs run.2) out_path = Some (FS.EFile (body_of chunks)) ∧
  FS.is_dir (fs run.2) (parent out_path) ∧
  written (trace run.2) = written (trace σ) ++ [out_path].
Proof. apply http_download_opened. Qed.

Lemma X5_witness :
  let run := http_download net_broken wri_url wri_csv 60 world_old_readme in
  run.1 = Ok false ∧ FS.stat (fs run.2) wri_csv = Some (FS.EFile "partial ").
Proof.
  destruct (X5_http_download_replaces_its_destination net_broken wri_url wri_csv 60
              world_old_readme 200 ["partial "] (Some "Connection broken"))
    as (H1 & H2 & _).
  - reflexivity.
  - lia.
  - apply can_open_in_dir; [done| |]; apply (bool_decide_unpack _); by vm_compute.
  - split; [exact H1|exact H2].
Defined.

(** X6. After a download that succeeded, a later download to the same
    destination that gets a good status always replaces the file: when
    its stream breaks, the complete file of the first download is lost
    and the part received takes its place. *)
Theorem X6_later_download_replaces_earlier
    net url1 url2 out_path timeout1 timeout2 σ status_code chunks broken :
  let first := http_download net url1 out_path timeout1 σ in
  let second := http_download net url2 out_path timeout2 first.2 in
  first.1 = Ok true →
  net (trace first.2) url2 = Response status_code chunks broken →
  ¬ (400 ≤ status_code < 600)%Z →
  second.1 = Ok (bool_decide (broken = None)) ∧
  FS.stat (fs second.2) out_path = Some (FS.EFile (body_of chunks)).
Proof.
  intros first second Hfirst Hnet Hst. subst first second.
  destruct (http_download_fetch net url1 out_path timeout1 σ) as (b & σ1 & Hr & Hf).
  rewrite Hr in *. simpl in *. injection Hfirst as ->.
  assert (can_open (fs σ1) out_path) as Hcan.
  { inversion Hf as [st ch σ2 Hnet' Hst' Hcan' Ht Hs| |]; subst.
    apply can_open_in_dir.
    - by destruct Hcan'.
    - eapply FSFacts.stat_parent; [by destruct Hcan'|done].
    - unfold FS.is_dir. congruence. }
  destruct (http_download_opened net url2 out_path timeout2 σ1
              status_code chunks broken Hnet Hst Hcan) as (H1 & H2 & _).
  done.
Qed.

Lemma X6_witness :
  let first := http_download net_second_breaks wri_url wri_csv 60 empty_world in
  let second := http_download net_second_breaks wri_url wri_csv 60 first.2 in
  FS.stat (fs first.2) wri_csv = Some (FS.EFile "sample bytes") ∧
  second.1 = Ok false ∧
  FS.stat (fs second.2) wri_csv = Some (FS.EFile "partial ").
Proof.
  split; [by vm_compute|].
  apply (X6_later_download_replaces_earlier net_second_breaks wri_url wri_url wri_csv 60 60
           empty_world 200 ["partial "] (Some "Connection broken")).
  - by vm_compute.
  - by vm_compute.
  - lia.
Defined.

(** X7. [save_metadata] is all or nothing.  When the path can be opened
    it returns, the file holds the metadata as [json.dump] with
    [indent=2] and [sort_keys=True] writes them, whatever it held before,
    the missing ancestors of the file are directories, and every other
    path is as it was.  Otherwise it raises an [OSError] and neither the
    file system nor the trace has changed. *)
Theorem X7_save_metadata_all_or_nothing p metadata σ :
  let run := save_metadata p metadata σ in
  (can_open (fs σ) p ∧ run.1 = Ok tt ∧ trace run.2 = trace σ ++ [EWrite p] ∧
   ∀ q, FS.stat (fs run.2) q =
          if decide (q = p) then Some (FS.EFile (Json.dumps metadata 2 true))
          else match FS.stat (fs σ) q with
               | Some e => Some e
               | None => if decide (q `prefix_of` parent p) then Some FS.EDir else None
               end) ∨
  (¬ can_open (fs σ) p ∧ ∃ p', run = (Raised (OSError p'), σ)).
Proof.
  intros run. subst run.
  destruct (save_metadata_spec p metadata σ) as [[Hcan _]|[Hno Hr]]; [|by right].
  left. split; [done|].
  destruct (save_metadata_exact p metadata σ Hcan) as (σ' & -> & Ht & Hs). done.
Qed.

(** X8. The last write wins: saving metadata to a path and then other
    metadata to the same path ends as saving the second alone does, with
    the same outcome and the same file system. *)
Theorem X8_save_metadata_last_write_wins p m1 m2 σ :
  let first := save_metadata p m1 σ in
  let both := save_metadata p m2 first.2 in
  let only := save_metadata p m2 σ in
  both.1 = only.1 ∧ ∀ q, FS.stat (fs both.2) q = FS.stat (fs only.2) q.
Proof.
  intros first both only. subst first both only.
  destruct (save_metadata_spec p m1 σ) as [[Hcan _]|[Hno (p' & Hr)]].
  - destruct (save_metadata_exact p m1 σ Hcan) as (σ1 & Hr1 & _ & Hs1).
    pose proof (save_metadata_keeps_open _ _ _ _ Hcan Hr1) as Hcan1.
    rewrite Hr1. simpl.
    destruct (save_metadata_exact p m2 σ1 Hcan1) as (σ2 & -> & _ & Hs2).
    destruct (save_metadata_exact p m2 σ Hcan) as (σ3 & -> & _ & Hs3).
    simpl. split; [done|]. intros q. rewrite Hs2, Hs3, Hs1.
    destruct (decide (q = p)); [done|].
    destruct (FS.stat (fs σ) q); [done|]. by destruct (decide (q `prefix_of` parent p)).
  - rewrite Hr. done.
Qed.

(** X9. For every date that is one path component:
    [download_worldview_sample(date)] makes one request, to the WMS URL
    whose [TIME] is that date; when it returns a path, the path is
    [worldview_truecolor_<date>.png] in [data/worldview], the file holds
    the whole body and the sibling [.json] holds the metadata, whose [url]
    is the URL requested; when it returns [None] the sidecar is as it
    was. *)
Theorem X9_worldview_sample_of_any_date net date σ r σ' :
  has_separator date = false →
  download_worldview_sample net date σ = (Ok r, σ') →
  files_after net σ σ' (wms_url date) (worldview_png_of date) (worldview_json_of date)
    (worldview_metadata (wms_url date)) r ∧
  Json.get "url" (worldview_metadata (wms_url date)) = Some (Json.Str (wms_url date)) ∧
  ∃ τ, trace σ' = trace σ ++ τ ∧ requested τ = [wms_url date].
Proof.
  intros _ Hrun. rewrite download_worldview_sample_shape in Hrun.
  split; [by apply (fetch_with_sidecar_files net "worldview"), Hrun; apply worldview_names_of_a_date|].
  split; [reflexivity|].
  destruct (fetch_with_sidecar_trace net _ _ _ _ _ _ _ _ (worldview_names_of_a_date date) Hrun)
    as (τ & Ht & Hsrc).
  exists τ. split; [done|]. by destruct r, Hsrc.
Qed.

Lemma X9_witness :
  let run := download_worldview_sample net_up "2021-06-15" empty_world in
  FS.stat (fs run.2) (worldview_json_of "2021-06-15")
  = Some (FS.EFile (Json.dumps (worldview_metadata (wms_url "2021-06-15")) 2 true)).
Proof.
  intros run.
  destruct (X9_worldview_sample_of_any_date net_up "2021-06-15" empty_world
              (Some (worldview_png_of "2021-06-15")) run.2) as ((_ & _ & H) & _).
  - reflexivity.
  - by vm_compute.
  - exact H.
Defined.

(** X10. Samples of different dates do not collide: the URLs differ, and
    running the source for one date leaves the data file and the sidecar
    of every other date as they were. *)
Theorem X10_worldview_dates_do_not_collide net date1 date2 σ :
  has_separator date1 = false → has_separator date2 = false →
  date1 ≠ date2 →
  let σ' := (download_worldview_sample net date2 σ).2 in
  wms_url date1 ≠ wms_url date2 ∧
  FS.stat (fs σ') (worldview_png_of date1) = FS.stat (fs σ) (worldview_png_of date1) ∧
  FS.stat (fs σ') (worldview_json_of date1) = FS.stat (fs σ) (worldview_json_of date1).
Proof.
  intros _ _ Hne σ'. subst σ'. rewrite download_worldview_sample_shape.
  pose proof (stays_fetch_with_sidecar net "worldview" (wms_url date2)
                ("worldview_truecolor_" +:+ date2 +:+ ".png")
                ("worldview_truecolor_" +:+ date2 +:+ ".json")
                (worldview_metadata (wms_url date2)) σ) as [_ Hev].
  simpl in Hev. fold (worldview_png_of date2) (worldview_json_of date2) in Hev.
  split.
  { unfold wms_url. intros H. repeat apply append_inj_prefix in H. done. }
  split; eapply fs_evolves_unchanged; try exact Hev.
  - rewrite !elem_of_cons, elem_of_nil.
    intros [H%worldview_png_of_inj|[H%worldview_png_is_not_json|[]]]; done.
  - intros p ->%list_elem_of_singleton. apply child_not_prefix.
  - rewrite !elem_of_cons, elem_of_nil.
    intros [H|[H%worldview_json_of_inj|[]]]; [|done].
    symmetry in H. by apply worldview_png_is_not_json in H.
  - intros p ->%list_elem_of_singleton. apply child_not_prefix.
Qed.

Lemma X10_witness :
  let σ := (download_worldview_sample net_up "2020-01-01" empty_world).2 in
  let σ' := (download_worldview_sample net_broken "2020-01-02" σ).2 in
  FS.stat (fs σ') (worldview_png_of "2020-01-01") = Some (FS.EFile "sample bytes").
Proof.
  intros σ σ'.
  destruct (X10_worldview_dates_do_not_collide net_broken "2020-01-01" "2020-01-02" σ)
    as (_ & H & _); [reflexivity|reflexivity|discriminate|].
  change (FS.stat (fs σ') (worldview_png_of "2020-01-01")
          = FS.stat (fs σ) (worldview_png_of "2020-01-01")) in H.
  rewrite H. by vm_compute.
Defined.

(** X11. For any list of candidates: when the CSV source returns a path,
    the sidecar names the candidate that was fetched (not the first of
    the list), the CSV file holds the complete body of the reply to that
    candidate, the requests before it were the candidates before it in
    their order, and the instructions file is as it was. *)
Theorem X11_wri_sidecar_names_the_fetched_candidate net urls σ p σ' :
  download_wri_sample_from net urls σ = (Ok (Some p), σ') →
  p = wri_csv ∧
  ∃ j url τ status_code chunks,
    urls !! j = Some url ∧
    requested τ = take j urls ∧
    net (trace σ ++ τ) url = Response status_code chunks None ∧
    FS.stat (fs σ') wri_csv = Some (FS.EFile (body_of chunks)) ∧
    FS.stat (fs σ') wri_json = Some (FS.EFile (Json.dumps (wri_metadata url) 2 true)) ∧
    Json.get "url" (wri_metadata url) = Some (Json.Str url) ∧
    FS.stat (fs σ') wri_readme = FS.stat (fs σ) wri_readme.
Proof.
  intros Hrun.
  destruct (download_wri_sample_from_cases net urls σ)
    as [[Hr _]|(σ0 & k & bs & σ1 & τ1 & Hens & Ht0 & Hat & Ht1 & Hq1 & _ & _ & _ & _ & _ & Hcase)];
    simpl in *.
  { rewrite Hrun in Hr. discriminate. }
  destruct Hcase as [(_ & _ & [(σ2 & Hr & _)|[Hr _]])
                    |(j & url & -> & Hu & -> & _ & [(σ2 & Hr & _ & Hj & Hreadme & Hcsv)|(_ & p' & Hr)])];
    rewrite Hrun in Hr; try discriminate.
  injection Hr as -> ->. split; [done|].
  destruct (attempts_fetched net _ _ _ _ Hat) as (u & τ & st & chunks & Hu' & _ & Hq & Hnet & Hs).
  rewrite lookup_take_lt in Hu' by lia. rewrite Hu in Hu'. injection Hu' as <-.
  rewrite take_take, Nat.min_l in Hq by lia.
  exists j, url, τ, st, chunks. split; [done|]. split; [done|].
  split; [by rewrite <- Ht0|]. split; [by rewrite Hcsv|]. done.
Qed.

Lemma X11_witness :
  let run := download_wri_sample_from net_second_only
               ["https://example.org/first.csv"; "https://example.org/second.csv"]
               empty_world in
  FS.stat (fs run.2) wri_json
  = Some (FS.EFile (Json.dumps (wri_metadata "https://example.org/second.csv") 2 true)).
Proof.
  intros run.
  destruct (X11_wri_sidecar_names_the_fetched_candidate net_second_only
              ["https://example.org/first.csv"; "https://example.org/second.csv"]
              empty_world wri_csv run.2)
    as (_ & j & url & τ & st & chunks & Hu & Hq & Hnet & _ & Hj & _).
  - by vm_compute.
  - destruct j as [|[|j]]; simpl in Hu; [| |done].
    + injection Hu as <-. simpl in Hq. destruct τ as [|e τ]; [|].
      * vm_compute in Hnet. discriminate.
      * vm_compute in Hnet. discriminate.
    + injection Hu as <-. exact Hj.
Defined.

(** X12. The placeholder writer raises exactly when [data] or one of the
    five provider folders is a regular file, and what it raises is an
    [OSError].  In every run its writes follow the order of the
    providers, each provider at most once. *)
Theorem X12_placeholders_fail_only_on_a_blocked_folder σ :
  let run := write_placeholders_for_sedac_worldpop_ghsl_copernicus_eotoolkit σ in
  (is_ok run.1 ↔
     ¬ FS.is_file (fs σ) DATA_DIR ∧
     Forall (λ folder, ¬ FS.is_file (fs σ) (DATA_DIR // folder)) placeholders.*1) ∧
  (∀ e, run.1 = Raised e → ∃ p, e = OSError p) ∧
  ∃ τ, trace run.2 = trace σ ++ τ ∧
       written τ `sublist_of` (placeholder_readme <$> placeholders.*1) ∧
       NoDup (written τ).
Proof.
  intros run. subst run.
  unfold write_placeholders_for_sedac_worldpop_ghsl_copernicus_eotoolkit.
  destruct (for_each placeholders write_placeholder σ) as [r σ1] eqn:Hrun. simpl.
  split; [split|split].
  - destruct r as [[]|e]; [|done]. intros _. by apply (placeholders_unblocked _ _ _ Hrun).
  - intros [Hd Hf]. destruct (placeholders_total placeholders σ Hd Hf) as (σ' & Hr).
    rewrite Hrun in Hr. by injection Hr as -> _.
  - intros e ->.
    eapply (os_only_for_each placeholders write_placeholder); [|exact Hrun].
    intros item. apply os_only_write_placeholder.
  - destruct (placeholders_written_in_order _ _ _ _ Hrun) as (τ & Ht & Hsub).
    exists τ. split; [done|]. split; [done|].
    eapply sublist_NoDup; [|exact Hsub]. apply (bool_decide_unpack _). by vm_compute.
Qed.

(** X13. [main] opens for writing only paths of its own below [data/]:
    every path it opens is one of the twelve of [main_files], of the form
    [data/<folder>/<name>].  It removes nothing (a file stays a file, a
    directory a directory), and makes at most three requests, one per
    source in the order of the sources, with no retry. *)
Theorem X13_main_opens_only_paths_below_data net σ :
  let σ' := (main net σ).2 in
  (∀ q, FS.is_file (fs σ) q → FS.is_file (fs σ') q) ∧
  (∀ q, FS.is_dir (fs σ) q → FS.is_dir (fs σ') q) ∧
  ∃ τ, trace σ' = trace σ ++ τ ∧
       requested τ `prefix_of` [wms_url date_default; earth_observatory_url; wri_url] ∧
       Forall (λ p, p ∈ main_files ∧ ∃ folder name, p = DATA_DIR // folder // name)
         (written τ).
Proof.
  intros σ'. subst σ'. pose proof (main_evolves net σ) as Hev.
  split; [apply (ev_file_stay _ _ _ _ Hev)|].
  split; [apply (ev_dir_keep _ _ _ _ Hev)|].
  destruct (main_requests net σ) as (τ & Ht & Hq & Hw).
  exists τ. split; [done|]. split; [done|].
  eapply Forall_impl; [exact Hw|]. intros p Hin. split; [done|].
  unfold main_files in Hin. simpl in Hin.
  repeat (apply elem_of_cons in Hin as [->|Hin]; [by do 2 eexists|]).
  by apply elem_of_nil in Hin.
Qed.

(** X14. A run that nothing obstructs leaves a file system on which
    nothing obstructs the next run: the script can be run again any
    number of times, whatever the network does each time, and every run
    exits with status 0. *)
Theorem X14_unobstructed_runs_can_be_repeated nets net σ :
  unobstructed (fs σ) →
  unobstructed (fs (rerun nets σ)) ∧ exit_status net (rerun nets σ) = 0%Z.
Proof.
  intros HU. pose proof (rerun_keeps_unobstructed nets σ HU) as HU'.
  split; [done|].
  destruct (main_unobstructed net _ HU') as (? & ? & ? & ? & ? & ? & ? & σ' & Hrun & _).
  unfold exit_status. by rewrite Hrun.
Qed.

Lemma X14_witness :
  exit_status net_down (rerun [net_up; net_broken; net_down] empty_world) = 0%Z.
Proof.
  refine (proj2 (X14_unobstructed_runs_can_be_repeated [net_up; net_broken; net_down]
                   net_down empty_world _)).
  apply (bool_decide_unpack _). by vm_compute.
Defined.

(** X15. The disk at the end of a run that nothing obstructs.  Every
    source that returned a path has its data file and its sidecar on disk
    at the end of the run (the later steps leave them alone); a source
    that returned [None] has left its sidecar as it was.  The CSV instructions hold the
    static text when the CSV source returned [None] and are as they were
    otherwise.  Every provider has its instructions: the ones it had, or
    the text written for it. *)
Theorem X15_disk_after_a_complete_run net σ :
  unobstructed (fs σ) →
  ∃ σ' τ r1 r2 r3,
    main net σ = (Ok 0%Z, σ') ∧ trace σ' = trace σ ++ τ ∧
    returns τ = [(name_worldview, r1); (name_earth_observatory, r2);
                 (name_wri, r3); (name_placeholders, None)] ∧
    source_on_disk (fs σ) (fs σ') worldview_png worldview_json
      (worldview_metadata (wms_url date_default)) r1 ∧
    source_on_disk (fs σ) (fs σ') earth_observatory_jpg earth_observatory_json
      (earth_observatory_metadata earth_observatory_url) r2 ∧
    source_on_disk (fs σ) (fs σ') wri_csv wri_json (wri_metadata wri_url) r3 ∧
    FS.stat (fs σ') wri_readme =
      match r3 with
      | Some _ => FS.stat (fs σ) wri_readme
      | None => Some (FS.EFile wri_instructions)
      end ∧
    ∀ folder text, (folder, text) ∈ placeholders →
      FS.stat (fs σ') (placeholder_readme folder) =
        match FS.stat (fs σ) (placeholder_readme folder) with
        | Some e => Some e
        | None => Some (FS.EFile text)
        end.
Proof.
  intros HU.
  destruct (main_complete_run net σ HU)
    as (τ1 & r1 & σ1 & τ2 & r2 & σ2 & τ3 & r3 & σ3 & τ4 & σ4 & σ' &
        Hrun & Ht & Hc1 & Hc2 & Hc3 & Hc4 & Hfs).
  pose proof (called_worldview net _ _ _ _ Hc1) as (_ & Ha1 & Hev1).
  pose proof (called_earth_observatory net _ _ _ _ Hc2) as (_ & Ha2 & Hev2).
  pose proof (called_wri net _ _ _ _ Hc3) as (_ & Ha3 & Hev3).
  pose proof (called_placeholders _ _ _ _ Hc4) as (_ & _ & _ & Ha4 & Hev4).
  exists σ', (driver_trace τ1 (Ok r1) τ2 (Ok r2) τ3 (Ok r3) τ4 (Ok None)), r1, r2, r3.
  do 2 (split; [done|]).
  destruct (driver_trace_returned_read _ r1 _ r2 _ r3 _ None Ha1 Ha2 Ha3 Ha4) as (_ & Hret & _).
  split; [done|]. rewrite Hfs.
  (* what each step leaves alone *)
  assert (∀ q, length q = 3 → q ∉ fp_files worldview_footprint →
               FS.stat (fs σ1) q = FS.stat (fs σ) q) as Hk1.
  { intros q ? ?. by eapply untouched_by_step; [apply (shallow_sidecar "worldview")|..]. }
  assert (∀ q, length q = 3 → q ∉ fp_files earth_observatory_footprint →
               FS.stat (fs σ2) q = FS.stat (fs σ1) q) as Hk2.
  { intros q ? ?. by eapply untouched_by_step; [apply (shallow_sidecar "earth_observatory")|..]. }
  assert (∀ q, length q = 3 → q ∉ fp_files (wri_footprint candidates) →
               FS.stat (fs σ3) q = FS.stat (fs σ2) q) as Hk3.
  { intros q ? ?. by eapply untouched_by_step; [apply shallow_wri|..]. }
  assert (∀ q, length q = 3 → q ∉ fp_files (placeholders_footprint placeholders) →
               FS.stat (fs σ4) q = FS.stat (fs σ3) q) as Hk4.
  { intros q ? ?. by eapply untouched_by_step; [apply shallow_placeholders|..]. }
  assert (∀ q, q ∈ [worldview_png; worldview_json] →
               FS.stat (fs σ4) q = FS.stat (fs σ1) q) as Hworldview.
  { intros q Hq. rewrite Hk4, Hk3, Hk2; [done|..];
      repeat (apply elem_of_cons in Hq as [->|Hq]; [first [reflexivity|apply (bool_decide_unpack _); by vm_compute]|]);
      by apply elem_of_nil in Hq. }
  assert (∀ q, q ∈ [earth_observatory_jpg; earth_observatory_json] →
               FS.stat (fs σ4) q = FS.stat (fs σ2) q ∧
               FS.stat (fs σ1) q = FS.stat (fs σ) q) as Hearth.
  { intros q Hq. rewrite Hk4, Hk3, Hk1; [done|..];
      repeat (apply elem_of_cons in Hq as [->|Hq]; [first [reflexivity|apply (bool_decide_unpack _); by vm_compute]|]);
      by apply elem_of_nil in Hq. }
  assert (∀ q, q ∈ [wri_csv; wri_json; wri_readme] →
               FS.stat (fs σ4) q = FS.stat (fs σ3) q ∧
               FS.stat (fs σ2) q = FS.stat (fs σ) q) as Hwri.
  { intros q Hq. rewrite Hk4, Hk2, Hk1; [done|..];
      repeat (apply elem_of_cons in Hq as [->|Hq]; [first [reflexivity|apply (bool_decide_unpack _); by vm_compute]|]);
      by apply elem_of_nil in Hq. }
  (* the worldview source *)
  split.
  { destruct Hc1 as (σa & Hfa & Hb & _). rewrite download_worldview_sample_shape in Hb.
    apply fetch_with_sidecar_files, files_after_on_disk in Hb; [|apply worldview_names_differ].
    rewrite Hfa in Hb.
    eapply (source_on_disk_framed _ (fs σ) (fs σ1)); [done|exact Hb|..];
      apply Hworldview; apply (bool_decide_unpack _); by vm_compute. }
  (* the Earth Observatory source *)
  split.
  { destruct Hc2 as (σa & Hfa & Hb & _). rewrite download_earth_observatory_sample_shape in Hb.
    apply fetch_with_sidecar_files, files_after_on_disk in Hb; [|done].
    rewrite Hfa in Hb.
    eapply (source_on_disk_framed _ (fs σ1) (fs σ2)); [|exact Hb|..];
      apply Hearth; apply (bool_decide_unpack _); by vm_compute. }
  (* the CSV source *)
  destruct Hc3 as (σc & Hfc & Hb3 & _).
  apply download_wri_sample_files in Hb3 as [Hb3 Hreadme].
  apply files_after_on_disk in Hb3. rewrite Hfc in Hb3, Hreadme.
  split.
  { eapply (source_on_disk_framed _ (fs σ2) (fs σ3)); [|exact Hb3|..];
      apply Hwri; apply (bool_decide_unpack _); by vm_compute. }
  split.
  { assert (wri_readme ∈ [wri_csv; wri_json; wri_readme]) as Hin
      by (apply (bool_decide_unpack _); by vm_compute).
    rewrite (proj1 (Hwri wri_readme Hin)).
    destruct r3; [|done]. rewrite Hreadme. by apply Hwri. }
  (* the placeholders *)
  intros folder text Hin.
  destruct Hc4 as (σd & Hfd & Hb4 & _).
  unfold placeholders_call, write_placeholders_for_sedac_worldpop_ghsl_copernicus_eotoolkit in Hb4.
  rewrite run_bind in Hb4.
  destruct (for_each placeholders write_placeholder σd) as [[[]|e] σx] eqn:Hfor;
    [|discriminate].
  rewrite run_mret in Hb4. injection Hb4 as ->.
  assert (NoDup placeholders.*1) as Hnd by (apply (bool_decide_unpack _); by vm_compute).
  pose proof (placeholders_complete _ _ _ Hnd Hfor folder text Hin) as Hdone.
  rewrite Hfd in Hdone.
  assert (FS.stat (fs σ3) (placeholder_readme folder)
          = FS.stat (fs σ) (placeholder_readme folder)) as Hsame.
  { assert (folder ∈ placeholders.*1) as Hf
      by (apply list_elem_of_fmap; by exists (folder, text)).
    assert (Forall (λ f, (placeholder_readme f ∉ fp_files worldview_footprint) ∧
                         (placeholder_readme f ∉ fp_files earth_observatory_footprint) ∧
                         (placeholder_readme f ∉ fp_files (wri_footprint candidates)))
              placeholders.*1) as Hall
      by (apply (bool_decide_unpack _); by vm_compute).
    rewrite Forall_forall in Hall. destruct (Hall _ Hf) as (H1 & H2 & H3).
    rewrite Hk3, Hk2, Hk1; done. }
  rewrite Hsame in Hdone.
  by destruct (FS.stat (fs σ) (placeholder_readme folder)).
Qed.

Lemma X15_witness :
  ∃ σ', main net_down empty_world = (Ok 0%Z, σ') ∧
        FS.stat (fs σ') wri_readme = Some (FS.EFile wri_instructions) ∧
        FS.stat (fs σ') wri_json = None.
Proof.
  destruct (X15_disk_after_a_complete_run net_down empty_world)
    as (σ' & τ & r1 & r2 & r3 & Hrun & Ht & Hret & _ & _ & Hwri & Hreadme & _).
  - apply (bool_decide_unpack _). by vm_compute.
  - exists σ'. split; [exact Hrun|].
    assert (σ' = (main net_down empty_world).2) as Hσ by (by rewrite Hrun).
    assert (r3 = None) as ->.
    { rewrite Hσ in Ht. change (trace empty_world ++ τ) with τ in Ht.
      rewrite <- Ht in Hret. apply (f_equal (fmap snd)) in Hret.
      vm_compute in Hret. injection Hret as _ _ <-. reflexivity. }
    split; [exact Hreadme|exact Hwri].
Defined.

(** X16. The lines of a run that nothing obstructs, all of them: the
    header, then for each source the diagnostic of its download when it
    failed and its status line, then the line of the placeholders and the
    count.  A run prints nine lines less the number of sources that
    returned a path. *)
Theorem X16_lines_of_a_complete_run net σ :
  unobstructed (fs σ) →
  ∃ τ r1 r2 r3 d1 d2 d3,
    trace (main net σ).2 = trace σ ++ τ ∧
    returns τ = [(name_worldview, r1); (name_earth_observatory, r2);
                 (name_wri, r3); (name_placeholders, None)] ∧
    failure_lines (wms_url date_default) r1 d1 ∧
    failure_lines earth_observatory_url r2 d2 ∧
    failure_lines wri_url r3 d3 ∧
    printed τ =
      header_line :: d1 ++ status_line name_worldview r1
      :: d2 ++ status_line name_earth_observatory r2
      :: d3 ++ status_line name_wri r3
      :: [placeholders_line; completed_line (count_paths [r1; r2; r3])] ∧
    Z.of_nat (length (printed τ)) = (9 - count_paths [r1; r2; r3])%Z.
Proof.
  intros HU.
  destruct (main_complete_run net σ HU)
    as (τ1 & r1 & σ1 & τ2 & r2 & σ2 & τ3 & r3 & σ3 & τ4 & σ4 & σ' &
        Hrun & Ht & Hc1 & Hc2 & Hc3 & Hc4 & Hfs).
  pose proof (called_worldview net _ _ _ _ Hc1) as (Hs1%source_trace_lines & Ha1 & _).
  pose proof (called_earth_observatory net _ _ _ _ Hc2) as (Hs2%source_trace_lines & Ha2 & _).
  pose proof (called_wri net _ _ _ _ Hc3) as (Hs3%source_trace_lines & Ha3 & _).
  pose proof (called_placeholders _ _ _ _ Hc4) as (_ & Hp4 & _ & Ha4 & _).
  destruct (driver_trace_returned_read _ r1 _ r2 _ r3 _ None Ha1 Ha2 Ha3 Ha4)
    as (_ & Hret & Hprinted).
  exists (driver_trace τ1 (Ok r1) τ2 (Ok r2) τ3 (Ok r3) τ4 (Ok None)), r1, r2, r3,
    (printed τ1), (printed τ2), (printed τ3).
  split; [by rewrite Hrun|]. do 4 (split; [done|]).
  rewrite Hprinted, Hp4. split; [done|].
  destruct r1 as [p1|], r2 as [p2|], r3 as [p3|]; simpl in Hs1, Hs2, Hs3;
    repeat match goal with
           | H : ∃ _, _ |- _ => destruct H as [? H]
           | H : printed _ = _ |- _ => rewrite H; clear H
           end; reflexivity.
Qed.

Lemma X16_witness :
  ∃ τ, trace (main net_down empty_world).2 = trace empty_world ++ τ ∧
       length (printed τ) = 9.
Proof.
  destruct (X16_lines_of_a_complete_run net_down empty_world)
    as (τ & r1 & r2 & r3 & d1 & d2 & d3 & Ht & Hret & _ & _ & _ & _ & Hlen).
  - apply (bool_decide_unpack _). by vm_compute.
  - exists τ. split; [exact Ht|].
    assert (r1 = None ∧ r2 = None ∧ r3 = None) as (-> & -> & ->).
    { change (trace empty_world ++ τ) with τ in Ht.
      rewrite <- Ht in Hret. apply (f_equal (fmap snd)) in Hret.
      vm_compute in Hret. injection Hret as <- <- <-.
      split; [reflexivity|split; reflexivity]. }
    change (count_paths [None; None; None]) with 0%Z in Hlen. clear Ht Hret. lia.
Defined.

(** X17. In every run of [main], whatever the network and the file system
    do: the header is the first line printed; the exit status is 0 or 1;
    when it is 0 the four callees have returned and the count line is the
    last line printed, after lines none of which can be taken for it;
    when it is 1 no count line is printed at all. *)
Theorem X17_count_line_means_success net σ :
  (∀ n, ¬ progress_line (completed_line n)) ∧
  ∃ τ, trace (main net σ).2 = trace σ ++ τ ∧
    head (printed τ) = Some header_line ∧
    (exit_status net σ = 0%Z ∨ exit_status net σ = 1%Z) ∧
    (exit_status net σ = 0%Z →
       ∃ r1 r2 r3 lines,
         returns τ = [(name_worldview, r1); (name_earth_observatory, r2);
                      (name_wri, r3); (name_placeholders, None)] ∧
         printed τ = lines ++ [completed_line (count_paths [r1; r2; r3])] ∧
         Forall progress_line lines) ∧
    (exit_status net σ = 1%Z → Forall progress_line (printed τ)).
Proof.
  split; [apply count_line_is_no_progress_line|].
  destruct (main_run_traced net σ)
    as (τ1 & o1 & σ1 & τ2 & o2 & σ2 & τ3 & o3 & σ3 & τ4 & o4 & σ4 & σ' &
        Hrun & Ht & Hc1 & Hrest).
  exists (driver_trace τ1 o1 τ2 o2 τ3 o3 τ4 o4).
  split; [by rewrite Hrun|]. unfold exit_status. rewrite Hrun. cbn [fst].
  rewrite printed_driver_trace. split; [done|].
  pose proof (called_worldview net _ _ _ _ Hc1) as (Hs1%source_trace_progress & Ha1 & _).
  destruct o1 as [r1|e1]; cbn [driver_result].
  2:{ split; [by right|]. split; [done|]. intros _. rewrite app_nil_r.
      constructor; [apply progress_header_line|done]. }
  destruct Hrest as [Hc2 Hrest].
  pose proof (called_earth_observatory net _ _ _ _ Hc2)
    as (Hs2%source_trace_progress & Ha2 & _).
  destruct o2 as [r2|e2]; cbn [driver_result].
  2:{ split; [by right|]. split; [done|]. intros _. rewrite app_nil_r.
      constructor; [apply progress_header_line|]. apply Forall_app_2; [done|].
      constructor; [apply progress_status_line|done]. }
  destruct Hrest as [Hc3 Hrest].
  pose proof (called_wri net _ _ _ _ Hc3) as (Hs3%source_trace_progress & Ha3 & _).
  destruct o3 as [r3|e3]; cbn [driver_result].
  2:{ split; [by right|]. split; [done|]. intros _. rewrite app_nil_r.
      constructor; [apply progress_header_line|]. apply Forall_app_2; [done|].
      constructor; [apply progress_status_line|]. apply Forall_app_2; [done|].
      constructor; [apply progress_status_line|done]. }
  destruct Hrest as [Hc4 _].
  pose proof (called_placeholders _ _ _ _ Hc4) as (_ & Hp4 & Hnone & Ha4 & _).
  rewrite Hp4.
  destruct o4 as [r4|e4]; cbn [driver_result].
  2:{ split; [by right|]. split; [done|]. intros _.
      constructor; [apply progress_header_line|]. apply Forall_app_2; [done|].
      constructor; [apply progress_status_line|]. apply Forall_app_2; [done|].
      constructor; [apply progress_status_line|]. apply Forall_app_2; [done|].
      constructor; [apply progress_status_line|done]. }
  assert (r4 = None) as -> by (by injection (Hnone I)).
  split; [by left|]. split; [|done]. intros _.
  exists r1, r2, r3,
    (header_line :: printed τ1 ++ status_line name_worldview r1
     :: printed τ2 ++ status_line name_earth_observatory r2
     :: printed τ3 ++ status_line name_wri r3 :: [placeholders_line]).
  destruct (driver_trace_returned_read _ r1 _ r2 _ r3 _ None Ha1 Ha2 Ha3 Ha4) as (_ & Hret & _).
  split; [done|]. split.
  { simpl. rewrite <- !app_assoc. simpl. rewrite <- !app_assoc. simpl.
    by rewrite <- !app_assoc. }
  constructor; [apply progress_header_line|]. apply Forall_app_2; [done|].
  constructor; [apply progress_status_line|]. apply Forall_app_2; [done|].
  constructor; [apply progress_status_line|]. apply Forall_app_2; [done|].
  constructor; [apply progress_status_line|].
  constructor; [apply progress_placeholders_line|done].
Qed.

Lemma X17_witness :
  Forall progress_line (printed (trace (main net_down world_readme_is_dir).2)).
Proof.
  destruct (X17_count_line_means_success net_down world_readme_is_dir)
    as (_ & τ & Ht & _ & _ & _ & H).
  change (trace world_readme_is_dir ++ τ) with τ in Ht. rewrite Ht.
  apply H. by vm_compute.
Defined.

(** X18. A source writes its sidecar last and only after its data file:
    in every run of one of the three sources, if the sidecar is written
    then the data file was written before it in the same call and is on
    disk, nothing is written after the sidecar, and the call returns the
    path of the data file.  (For the worldview source the date is one
    path component; for the CSV source the list of candidates is any
    list: what the call emits ends with the request of the candidate
    that was fetched, the write of the CSV file and the write of the
    sidecar, the CSV file holds the whole body of that candidate's
    reply, and the writes before are those of the CSV file for the
    candidates that failed.) *)
Theorem X18_sidecar_is_written_last net σ :
  (∀ date τ,
     has_separator date = false →
     let run := download_worldview_sample net date σ in
     trace run.2 = trace σ ++ τ → worldview_json_of date ∈ written τ →
     run.1 = Ok (Some (worldview_png_of date)) ∧
     written τ = [worldview_png_of date; worldview_json_of date] ∧
     FS.is_file (fs run.2) (worldview_png_of date)) ∧
  (∀ τ,
     let run := download_earth_observatory_sample net σ in
     trace run.2 = trace σ ++ τ → earth_observatory_json ∈ written τ →
     run.1 = Ok (Some earth_observatory_jpg) ∧
     written τ = [earth_observatory_jpg; earth_observatory_json] ∧
     FS.is_file (fs run.2) earth_observatory_jpg) ∧
  (∀ urls τ,
     let run := download_wri_sample_from net urls σ in
     trace run.2 = trace σ ++ τ → wri_json ∈ written τ →
     run.1 = Ok (Some wri_csv) ∧
     (∃ w, written τ = w ++ [wri_csv; wri_json] ∧ Forall (λ q, q = wri_csv) w) ∧
     (∃ j url τj status_code chunks,
        urls !! j = Some url ∧
        requested τj = take j urls ∧
        net (trace σ ++ τj) url = Response status_code chunks None ∧
        τ = τj ++ [EGet url true timeout_seconds_default; EWrite wri_csv; EWrite wri_json] ∧
        FS.stat (fs run.2) wri_csv = Some (FS.EFile (body_of chunks))) ∧
     FS.is_file (fs run.2) wri_csv).
Proof.
  split; [|split].
  - intros date τ _ run Ht Hin. subst run.
    rewrite download_worldview_sample_shape in *.
    destruct (fetch_with_sidecar net "worldview" _ _ _ _ σ) as [o σ'] eqn:Hrun.
    eapply fetch_with_sidecar_writes; [apply worldview_names_of_a_date|exact Hrun|exact Ht|exact Hin].
  - intros τ run Ht Hin. subst run.
    rewrite download_earth_observatory_sample_shape in *.
    destruct (fetch_with_sidecar net "earth_observatory" _ _ _ _ σ) as [o σ'] eqn:Hrun.
    eapply fetch_with_sidecar_writes; [|exact Hrun|exact Ht|exact Hin]. done.
  - intros urls τ run Ht Hin. subst run.
    destruct (download_wri_sample_from net urls σ) as [o σ'] eqn:Hrun.
    by eapply download_wri_sample_from_writes.
Qed.

Lemma X18_witness :
  (download_earth_observatory_sample net_up empty_world).1 = Ok (Some earth_observatory_jpg).
Proof.
  destruct (X18_sidecar_is_written_last net_up empty_world) as (_ & H & _).
  destruct (H (trace (download_earth_observatory_sample net_up empty_world).2))
    as (Hr & _).
  - reflexivity.
  - apply (bool_decide_unpack _). by vm_compute.
  - exact Hr.
Defined.
